(** * The CPU and memory bus of the NES emulator (src/cpu.cpp)

    A shallow embedding of [CPU::read], [CPU::write], the stack helpers,
    the constructor, the interrupt latches, the body of [CPU::run] and the
    save-state pair [get_state] / [restore_state], together with the
    properties of the bus and of the interpreter loop that follow from
    them.

    Integers of the C++ code are [Z] with the wrap-around of their type
    written out ([u8], [u16]); the work RAM [std::array<uint8_t, 0x800>]
    is a [list Z] read and updated by index; the components behind the
    interfaces of include/bus.h ([IPPU], [IAPU], [IROM], [IController])
    are type classes, so every statement holds for any implementation of
    them. *)

From Stdlib Require Import ZArith Lia List Bool.
From stdpp Require Import base list.

Local Open Scope Z_scope.

(** ** Machine integers *)

(** Conversion to [uint8_t]. *)
Definition u8 (x : Z) : Z := x mod 0x100.

(** Conversion to [uint16_t]. *)
Definition u16 (x : Z) : Z := x mod 0x10000.

Definition is_u8 (x : Z) : Prop := 0 <= x < 0x100.
Definition is_u16 (x : Z) : Prop := 0 <= x < 0x10000.

(** ** Work RAM: [std::array<uint8_t, 0x800>]

    [operator[]] of the array is only ever applied to an index that the
    code has masked into range; out of range the model reads 0 and a
    store does nothing. *)

Definition mem_get (mem : list Z) (i : Z) : Z := default 0 (mem !! Z.to_nat i).

Definition mem_set (mem : list Z) (i v : Z) : list Z := <[Z.to_nat i := v]> mem.

(** ** The interfaces of include/bus.h *)

(** [class IPPU]: the register file seen from the CPU.  A register read
    may change the PPU, so it returns the new PPU with the byte.  These
    are the members that bus.h documents as acting on the registers and
    latches of the PPU and on its object attribute memory, the member
    [OAM] of [class PPU]. *)
Class IPPU (T : Type) := {
  regw_control : Z -> T -> T;
  regw_mask : Z -> T -> T;
  regw_OAM_address : Z -> T -> T;
  regw_OAM_data : Z -> T -> T;
  regw_scroll : Z -> T -> T;
  regw_address : Z -> T -> T;
  regr_status : T -> Z * T;
  regr_OAM_data : T -> Z * T;
}.

(** The two members of [class IPPU] that bus.h documents as accessing
    "the memory at the current vram address": [regw_data] and
    [regr_data].  [class PPU] of include/ppu.h has no video memory of
    its own; it holds the pointer [IROM *rom] to the cartridge of the
    console, whose interface has the accessors of the nametables and of
    the pattern banks ([getntref], [write_nt], [getvbankref]).  Both
    members therefore take the cartridge [R] and return it with the
    PPU. *)
Class IPPU_data (T R : Type) := {
  regw_data : Z -> T -> R -> T * R;
  regr_data : T -> R -> Z * (T * R);
}.

(** [class IAPU]: [read()] and [write(value, index)].  [read] is
    declared [const], but bus.h documents it as having side effects (its
    implementation may change [mutable] members), so it returns the APU
    with the byte. *)
Class IAPU (T : Type) := {
  IAPU_read : T -> Z * T;
  IAPU_write : Z -> Z -> T -> T;
}.

(** The cartridge as [CPU::read] and [CPU::write] use it:
    [rom->read_prg(addr)] and [rom->write_prg(value, addr)]. *)
Class IROM (T : Type) := {
  read_prg : Z -> T -> Z * T;
  write_prg : Z -> Z -> T -> T;
}.

(** [enum IController::Button]. *)
Inductive Button :=
  | CONTROL_RIGHT | CONTROL_LEFT | CONTROL_DOWN | CONTROL_UP
  | CONTROL_START | CONTROL_SELECT | CONTROL_B | CONTROL_A.

(** The enumerators' values. *)
Definition Button_value (b : Button) : Z :=
  match b with
  | CONTROL_RIGHT => 0 | CONTROL_LEFT => 1 | CONTROL_DOWN => 2
  | CONTROL_UP => 3 | CONTROL_START => 4 | CONTROL_SELECT => 5
  | CONTROL_B => 6 | CONTROL_A => 7
  end.

Definition BUTTON_OFF : Z := 0.
Definition BUTTON_ON : Z := 0xff.

(** [class IController]: [read()], [set_button_state(button, state)] and
    [strobe()], which takes no argument. *)
Class IController (T : Type) := {
  IController_read : T -> Z * T;
  set_button_state : Button -> Z -> T -> T;
  strobe : T -> T;
}.

(** ** The CPU object

    The fields that src/cpu.cpp uses; [memory] has 0x800 cells. *)
Record CPU := mkCPU {
  memory : list Z;
  P : Z;
  A : Z;
  X : Z;
  Y : Z;
  SP : Z;
  PC : Z;
  last_PC : Z;
  last_op : Z;
  result_cycle : Z;
  IRQ : bool;
  _done : bool;
}.

Definition with_memory (mem : list Z) (c : CPU) : CPU :=
  mkCPU mem (P c) (A c) (X c) (Y c) (SP c) (PC c) (last_PC c) (last_op c)
        (result_cycle c) (IRQ c) (_done c).

Definition with_P (v : Z) (c : CPU) : CPU :=
  mkCPU (memory c) v (A c) (X c) (Y c) (SP c) (PC c) (last_PC c) (last_op c)
        (result_cycle c) (IRQ c) (_done c).

Definition with_SP (v : Z) (c : CPU) : CPU :=
  mkCPU (memory c) (P c) (A c) (X c) (Y c) v (PC c) (last_PC c) (last_op c)
        (result_cycle c) (IRQ c) (_done c).

Definition with_PC (v : Z) (c : CPU) : CPU :=
  mkCPU (memory c) (P c) (A c) (X c) (Y c) (SP c) v (last_PC c) (last_op c)
        (result_cycle c) (IRQ c) (_done c).

Definition with_last_PC (v : Z) (c : CPU) : CPU :=
  mkCPU (memory c) (P c) (A c) (X c) (Y c) (SP c) (PC c) v (last_op c)
        (result_cycle c) (IRQ c) (_done c).

Definition with_last_op (v : Z) (c : CPU) : CPU :=
  mkCPU (memory c) (P c) (A c) (X c) (Y c) (SP c) (PC c) (last_PC c) v
        (result_cycle c) (IRQ c) (_done c).

Definition with_result_cycle (v : Z) (c : CPU) : CPU :=
  mkCPU (memory c) (P c) (A c) (X c) (Y c) (SP c) (PC c) (last_PC c) (last_op c)
        v (IRQ c) (_done c).

Definition with_IRQ (b : bool) (c : CPU) : CPU :=
  mkCPU (memory c) (P c) (A c) (X c) (Y c) (SP c) (PC c) (last_PC c) (last_op c)
        (result_cycle c) b (_done c).

Definition with_done (b : bool) (c : CPU) : CPU :=
  mkCPU (memory c) (P c) (A c) (X c) (Y c) (SP c) (PC c) (last_PC c) (last_op c)
        (result_cycle c) (IRQ c) b.

(** The components the constructor of [CPU] is given pointers to: [ppu],
    [apu], [rom] and [controller[2]].  They belong to the console, which
    also drives them from [on_cpu_tick]. *)
Record Devices (PPU APU ROM Ctl : Type) := mkDevices {
  ppu : PPU;
  apu : APU;
  rom : ROM;
  controller0 : Ctl;
  controller1 : Ctl;
}.

Arguments mkDevices {PPU APU ROM Ctl} _ _ _ _ _.
Arguments ppu {PPU APU ROM Ctl} _.
Arguments apu {PPU APU ROM Ctl} _.
Arguments rom {PPU APU ROM Ctl} _.
Arguments controller0 {PPU APU ROM Ctl} _.
Arguments controller1 {PPU APU ROM Ctl} _.

(** The CPU object with what its pointers reach. *)
Record Machine (PPU APU ROM Ctl : Type) := mkMachine {
  cpu : CPU;
  dev : Devices PPU APU ROM Ctl;
}.

Arguments mkMachine {PPU APU ROM Ctl} _ _.
Arguments cpu {PPU APU ROM Ctl} _.
Arguments dev {PPU APU ROM Ctl} _.

(** [for (int i = start; i < start + n; ++i) body(i)] *)
Fixpoint for_loop {St : Type} (n : nat) (i : Z) (body : Z -> St -> St) (s : St) : St :=
  match n with
  | O => s
  | S n' => for_loop n' (i + 1) body (body i s)
  end.

Section Bus.

Context {PPU APU ROM Ctl : Type}.
Context `{!IPPU PPU, !IPPU_data PPU ROM, !IAPU APU, !IROM ROM, !IController Ctl}.

Local Abbreviation Dev := (Devices PPU APU ROM Ctl).
Local Abbreviation Mach := (Machine PPU APU ROM Ctl).

Definition with_cpu (c : CPU) (m : Mach) : Mach := mkMachine c (dev m).

Definition with_dev (d : Dev) (m : Mach) : Mach := mkMachine (cpu m) d.

Definition with_ppu (p : PPU) (m : Mach) : Mach :=
  let d := dev m in
  with_dev (mkDevices p (apu d) (rom d) (controller0 d) (controller1 d)) m.

Definition with_apu (a : APU) (m : Mach) : Mach :=
  let d := dev m in
  with_dev (mkDevices (ppu d) a (rom d) (controller0 d) (controller1 d)) m.

Definition with_rom (r : ROM) (m : Mach) : Mach :=
  let d := dev m in
  with_dev (mkDevices (ppu d) (apu d) r (controller0 d) (controller1 d)) m.

(** [controller[i]] for [i] in {0, 1}. *)
Definition controller (i : Z) (m : Mach) : Ctl :=
  if i =? 0 then controller0 (dev m) else controller1 (dev m).

Definition with_controller (i : Z) (c : Ctl) (m : Mach) : Mach :=
  let d := dev m in
  if i =? 0
  then with_dev (mkDevices (ppu d) (apu d) (rom d) c (controller1 d)) m
  else with_dev (mkDevices (ppu d) (apu d) (rom d) (controller0 d) c) m.

(** [uint8_t CPU::read(uint16_t addr) const] *)
Definition read (addr : Z) (m : Mach) : Z * Mach :=
  let addr := u16 addr in
  if addr <? 0x2000 then
    (mem_get (memory (cpu m)) (Z.land addr 0x7ff), m)
  else if addr <? 0x4000 then
    match Z.land addr 7 with
    | 2 => let '(v, p) := regr_status (ppu (dev m)) in (u8 v, with_ppu p m)
    | 4 => let '(v, p) := regr_OAM_data (ppu (dev m)) in (u8 v, with_ppu p m)
    | 7 =>
        let '(v, (p, r)) := regr_data (ppu (dev m)) (rom (dev m)) in
        (u8 v, with_rom r (with_ppu p m))
    | _ => (0, m)
    end
  else if addr <? 0x4020 then
    match Z.land addr 0x1f with
    | 0x15 => let '(v, a) := IAPU_read (apu (dev m)) in (u8 v, with_apu a m)
    | 0x16 =>
        let '(v, c) := IController_read (controller 0 m) in
        (u8 v, with_controller 0 c m)
    | 0x17 =>
        let '(v, c) := IController_read (controller 1 m) in
        (u8 v, with_controller 1 c m)
    | _ => (0, m)
    end
  else
    let '(v, r) := read_prg addr (rom (dev m)) in (u8 v, with_rom r m).

(** One turn of the DMA loop of [CPU::write]:
    [ppu->regw_OAM_data(read((value & 7) * 0x100 + i))]. *)
Definition dma_body (value : Z) (i : Z) (m : Mach) : Mach :=
  let '(b, m1) := read (Z.land value 7 * 0x100 + i) m in
  with_ppu (regw_OAM_data b (ppu (dev m1))) m1.

(** [void CPU::write(uint8_t value, uint16_t addr)].  The switch over
    the PPU registers has no case 2 and no default: a write to
    [$2002] does nothing. *)
Definition write (value addr : Z) (m : Mach) : Mach :=
  let value := u8 value in
  let addr := u16 addr in
  if addr <? 0x2000 then
    with_cpu (with_memory (mem_set (memory (cpu m)) (Z.land addr 0x7ff) value) (cpu m)) m
  else if addr <? 0x4000 then
    match Z.land addr 7 with
    | 0 => with_ppu (regw_control value (ppu (dev m))) m
    | 1 => with_ppu (regw_mask value (ppu (dev m))) m
    | 3 => with_ppu (regw_OAM_address value (ppu (dev m))) m
    | 4 => with_ppu (regw_OAM_data value (ppu (dev m))) m
    | 5 => with_ppu (regw_scroll value (ppu (dev m))) m
    | 6 => with_ppu (regw_address value (ppu (dev m))) m
    | 7 =>
        let '(p, r) := regw_data value (ppu (dev m)) (rom (dev m)) in
        with_rom r (with_ppu p m)
    | _ => m
    end
  else if addr <? 0x4020 then
    match Z.land addr 0x1f with
    | 0x14 => for_loop 256 0 (dma_body value) m
    | 0x16 =>
        with_controller (Z.land value 1)
          (strobe (controller (Z.land value 1) m)) m
    | _ => with_apu (IAPU_write value (Z.land addr 0x1f) (apu (dev m))) m
    end
  else
    with_rom (write_prg value addr (rom (dev m))) m.

(** [uint8_t CPU::next()]: [read(PC++)]. *)
Definition next (m : Mach) : Z * Mach :=
  let pc := PC (cpu m) in
  read pc (with_cpu (with_PC (u16 (pc + 1)) (cpu m)) m).

(** [uint16_t CPU::next2()]; the low byte is read first. *)
Definition next2 (m : Mach) : Z * Mach :=
  let '(v, m1) := next m in
  let '(h, m2) := next m1 in
  (u16 (Z.lor v (Z.shiftl h 8)), m2).

(** The 16-bit little-endian load [read(a) | (read(a + 1) << 8)] that
    [CPU::run] uses for the three vectors, low byte first. *)
Definition read_vector (a : Z) (m : Mach) : Z * Mach :=
  let '(lo, m1) := read a m in
  let '(hi, m2) := read (a + 1) m1 in
  (u16 (Z.lor lo (Z.shiftl hi 8)), m2).

(** [n] successive reads of one address, oldest first. *)
Fixpoint reads (n : nat) (addr : Z) (m : Mach) : list Z * Mach :=
  match n with
  | O => ([], m)
  | S n' =>
      let '(b, m1) := read addr m in
      let '(bs, m2) := reads n' addr m1 in
      (b :: bs, m2)
  end.

(** The bytes the DMA loop of [CPU::write] feeds to the PPU: the cells
    [(value & 7) * 0x100 + i] of work RAM for [i] from 0 to 255. *)
Definition dma_source (value : Z) (m : Mach) : list Z :=
  (fun i => mem_get (memory (cpu m)) (Z.land value 7 * 0x100 + i)) <$> seqZ 0 256.

(** The source page as the specification words it: the 256 bytes that
    the bus reads at [(value << 8) + i]. *)
Definition spec_dma_source (value : Z) (m : Mach) : list Z :=
  (fun i => fst (read (Z.shiftl value 8 + i) m)) <$> seqZ 0 256.

(** [regw_OAM_data] applied to a list of bytes in order. *)
Definition OAM_writes (bytes : list Z) (p : PPU) : PPU :=
  fold_left (fun p b => regw_OAM_data b p) bytes p.

End Bus.

(** ** The stack, in page [$0100] of the work RAM

    These member functions use [memory] and [SP] only. *)

(** [void CPU::push(uint8_t x)]: [memory[0x100 + SP--] = x]. *)
Definition push (x : Z) (c : CPU) : CPU :=
  with_SP (u8 (SP c - 1)) (with_memory (mem_set (memory c) (0x100 + SP c) (u8 x)) c).

(** [void CPU::push2(uint16_t x)]: high byte first. *)
Definition push2 (x : Z) (c : CPU) : CPU :=
  let x := u16 x in
  push (Z.land x 0xff) (push (Z.shiftr x 8) c).

(** [uint8_t CPU::pull()]: [memory[++SP + 0x100]]. *)
Definition pull (c : CPU) : Z * CPU :=
  let sp := u8 (SP c + 1) in
  (mem_get (memory c) (sp + 0x100), with_SP sp c).

(** [uint16_t CPU::pull2()]: low byte first. *)
Definition pull2 (c : CPU) : Z * CPU :=
  let '(r, c1) := pull c in
  let '(h, c2) := pull c1 in
  (u16 (Z.lor r (Z.shiftl h 8)), c2).

(** [void CPU::addcyc()]: [++result_cycle]. *)
Definition addcyc (c : CPU) : CPU := with_result_cycle (result_cycle c + 1) c.

(** [void CPU::pull_IRQ()], [void CPU::release_IRQ()], [void CPU::stop()]. *)
Definition pull_IRQ (c : CPU) : CPU := with_IRQ true c.
Definition release_IRQ (c : CPU) : CPU := with_IRQ false c.
Definition stop (c : CPU) : CPU := with_done true c.

(** The body of the constructor [CPU::CPU], applied to the object as its
    member initialisers leave it. *)
Definition CPU_ctor (c : CPU) : CPU :=
  let mem := memory c in
  let mem := mem_set mem 0x008 0xf7 in
  let mem := mem_set mem 0x009 0xef in
  let mem := mem_set mem 0x00a 0xdf in
  let mem := mem_set mem 0x00f 0xbf in
  let mem := mem_set mem 0x1fc 0x69 in
  with_memory mem c.

(** ** Save states *)

(** [struct CPU_state]. *)
Record CPU_state := mkCPU_state {
  state_memory : list Z;
  state_P : Z;
  state_A : Z;
  state_X : Z;
  state_Y : Z;
  state_SP : Z;
  state_PC : Z;
}.

(** [new CPU_state()]: a value-initialised state. *)
Definition CPU_state_new : CPU_state :=
  mkCPU_state (replicate 0x800 0) 0 0 0 0 0 0.

(** [IRestorable::State const* CPU::get_state() const]; [memory.size()]
    is 0x800. *)
Definition get_state (c : CPU) : CPU_state :=
  let state := CPU_state_new in
  let mem :=
    for_loop 0x800 0
      (fun i sm => mem_set sm i (u8 (mem_get (memory c) i)))
      (state_memory state) in
  mkCPU_state mem (P c) (A c) (X c) (Y c) (SP c) (PC c).

(** [void CPU::restore_state(IRestorable::State const* s)] *)
Definition restore_state (state : CPU_state) (c : CPU) : CPU :=
  let mem :=
    for_loop 0x800 0
      (fun i cm => mem_set cm i (mem_get (state_memory state) i))
      (memory c) in
  mkCPU mem (state_P state) (state_A state) (state_X state) (state_Y state)
        (state_SP state) (state_PC state)
        (last_PC c) (last_op c) (result_cycle c) (IRQ c) (_done c).

(** ** The interpreter loop *)

(** [static const uint8_t cycles[256]]: the CPU cycle chart. *)
Definition cycles : list Z :=
  (*          0  1  2  3  4  5  6  7  8  9  A  B  C  D  E  F *)
  (* 0x00 *) [7; 6; 0; 8; 3; 3; 5; 5; 3; 2; 2; 2; 4; 4; 6; 6;
  (* 0x10 *)  2; 5; 0; 8; 4; 4; 6; 6; 2; 4; 2; 7; 4; 4; 7; 7;
  (* 0x20 *)  6; 6; 0; 8; 3; 3; 5; 5; 4; 2; 2; 2; 4; 4; 6; 6;
  (* 0x30 *)  2; 5; 0; 8; 4; 4; 6; 6; 2; 4; 2; 7; 4; 4; 7; 7;
  (* 0x40 *)  6; 6; 0; 8; 3; 3; 5; 5; 3; 2; 2; 2; 3; 4; 6; 6;
  (* 0x50 *)  2; 5; 0; 8; 4; 4; 6; 6; 2; 4; 2; 7; 4; 4; 7; 7;
  (* 0x60 *)  6; 6; 0; 8; 3; 3; 5; 5; 4; 2; 2; 2; 5; 4; 6; 6;
  (* 0x70 *)  2; 5; 0; 8; 4; 4; 6; 6; 2; 4; 2; 7; 4; 4; 7; 7;
  (* 0x80 *)  2; 6; 2; 6; 3; 3; 3; 3; 2; 2; 2; 2; 4; 4; 4; 4;
  (* 0x90 *)  2; 6; 0; 6; 4; 4; 4; 4; 2; 5; 2; 5; 5; 5; 5; 5;
  (* 0xA0 *)  2; 6; 2; 6; 3; 3; 3; 3; 2; 2; 2; 2; 4; 4; 4; 4;
  (* 0xB0 *)  2; 5; 0; 5; 4; 4; 4; 4; 2; 4; 2; 4; 4; 4; 4; 4;
  (* 0xC0 *)  2; 6; 2; 8; 3; 3; 5; 5; 2; 2; 2; 2; 4; 4; 6; 6;
  (* 0xD0 *)  2; 5; 0; 8; 4; 4; 6; 6; 2; 4; 2; 7; 4; 4; 7; 7;
  (* 0xE0 *)  2; 6; 2; 8; 3; 3; 5; 5; 2; 2; 2; 2; 4; 4; 6; 6;
  (* 0xF0 *)  2; 5; 0; 8; 4; 4; 6; 6; 2; 4; 2; 7; 4; 4; 7; 7].

(** [cycles[op]] for an opcode byte. *)
Definition base_cycles (op : Z) : Z := mem_get cycles op.

(** Modelled from the spec: the flag masks are declared in cpu.h, which
    is not among the sources.  The spec lists the bits of P from the top
    as N, V, -, B, D, I, Z, C, so the interrupt-disable flag is bit 2. *)
Definition I_FLAG : Z := 0x04.

(** Modelled from the spec: the mask of the Z flag, bit 1 of P; cpu.h is
    missing. *)
Definition Z_FLAG : Z := 0x02.

(** What the console can call on the CPU while it handles a tick: the
    public members [pull_NMI], [pull_IRQ], [release_IRQ] and [stop]. *)
Inductive ICPU_call :=
  | call_pull_NMI
  | call_pull_IRQ
  | call_release_IRQ
  | call_stop.

(** [bus->on_cpu_tick()]: the console advances its devices and may call
    back into the CPU. *)
Class IBus (D : Type) := {
  on_cpu_tick : D -> D * list ICPU_call;
}.

(** The members of [CPU] that [CPU::run] uses and cpu.h declares: the
    dispatch table [ops] of opcode handlers and the accessor
    [ProcStatus] whose value [stack_push<&CPU::ProcStatus>()] pushes.
    They are parameters of the development.  A handler is a member
    function: it works on the CPU object and, through [read] and
    [write], on the devices. *)
Class cpu_h (M : Type) := {
  ops : Z -> M -> M;
  ProcStatus : CPU -> Z;
}.

(** The CPU, its devices and the file-scope latch [bool do_NMI] of
    src/cpu.cpp, which only [pull_NMI] and [run] name. *)
Record System (PPU APU ROM Ctl : Type) := mkSystem {
  machine : Machine PPU APU ROM Ctl;
  do_NMI : bool;
}.

Arguments mkSystem {PPU APU ROM Ctl} _ _.
Arguments machine {PPU APU ROM Ctl} _.
Arguments do_NMI {PPU APU ROM Ctl} _.

(** What an observer of the loop sees. *)
Inductive Event :=
  | EvExec (op : Z)
  | EvTick
  | EvCall (c : ICPU_call)
  | EvIRQ
  | EvNMI.

Section Run.

Context {PPU APU ROM Ctl : Type}.
Context `{!IPPU PPU, !IPPU_data PPU ROM, !IAPU APU, !IROM ROM, !IController Ctl}.
Context {the_bus : IBus (Devices PPU APU ROM Ctl)}.
Context {the_cpu_h : cpu_h (Machine PPU APU ROM Ctl)}.

Local Abbreviation Mach := (Machine PPU APU ROM Ctl).
Local Abbreviation Sys := (System PPU APU ROM Ctl).

Definition with_machine (m : Mach) (s : Sys) : Sys := mkSystem m (do_NMI s).

Definition with_do_NMI (b : bool) (s : Sys) : Sys := mkSystem (machine s) b.

Definition on_cpu (f : CPU -> CPU) (s : Sys) : Sys :=
  with_machine (with_cpu (f (cpu (machine s))) (machine s)) s.

(** [void CPU::pull_NMI()]: [do_NMI = true]. *)
Definition pull_NMI (s : Sys) : Sys := with_do_NMI true s.

Definition deliver (s : Sys) (c : ICPU_call) : Sys :=
  match c with
  | call_pull_NMI => pull_NMI s
  | call_pull_IRQ => on_cpu pull_IRQ s
  | call_release_IRQ => on_cpu release_IRQ s
  | call_stop => on_cpu stop s
  end.

(** One [bus->on_cpu_tick()]. *)
Definition tick (s : Sys) : Sys * list Event :=
  let '(d, calls) := on_cpu_tick (dev (machine s)) in
  (fold_left deliver calls (with_machine (with_dev d (machine s)) s),
   EvTick :: map EvCall calls).

Fixpoint ticks (n : nat) (s : Sys) : Sys * list Event :=
  match n with
  | O => (s, [])
  | S n' =>
      let '(s1, t1) := tick s in
      let '(s2, t2) := ticks n' s1 in
      (s2, t1 ++ t2)
  end.

(** [stack_push<&CPU::ProcStatus>()]. *)
Definition stack_push_ProcStatus (c : CPU) : CPU := push (ProcStatus c) c.

(** Fetch and execute: [last_PC = PC; last_op = next();
    (this->*ops[last_op])();]. *)
Definition fetch (m : Mach) : Z * Mach :=
  let m := with_cpu (with_last_PC (PC (cpu m)) (cpu m)) m in
  let '(op, m) := next m in
  (op, with_cpu (with_last_op op (cpu m)) m).

Definition execute (m : Mach) : Mach :=
  let '(op, m) := fetch m in
  ops op m.

(** The bound of the tick loop, [cycles[last_op] + result_cycle].  No
    call that a tick can make changes [last_op] or [result_cycle], so
    the bound is the same at every test of the loop. *)
Definition tick_bound (c : CPU) : Z := base_cycles (last_op c) + result_cycle c.

(** The interrupt tests at the end of the loop body: the [IRQ] branch
    first, the [do_NMI] branch in its [else]. *)
Definition service_interrupts (s : Sys) : Sys * list Event :=
  let m := machine s in
  let c := cpu m in
  if IRQ c && (Z.land (P c) I_FLAG =? 0) then
    let c := push2 (PC c) c in
    let c := stack_push_ProcStatus c in
    let c := with_P (u8 (Z.lor (P c) I_FLAG)) c in
    let '(pc, m) := read_vector 0xfffe (with_cpu c m) in
    (with_machine (with_cpu (with_PC pc (cpu m)) m) s, [EvIRQ])
  else if do_NMI s then
    let s := with_do_NMI false s in
    let c := push2 (PC c) c in
    let c := stack_push_ProcStatus c in
    let '(pc, m) := read_vector 0xfffa (with_cpu c m) in
    (with_machine (with_cpu (with_PC pc (cpu m)) m) s, [EvNMI])
  else (s, []).

(** One turn of [for (;;)] in [CPU::run]; the boolean is false when
    the turn leaves the loop through [break]. *)
Definition iteration (s : Sys) : Sys * list Event * bool :=
  let s := with_machine (execute (machine s)) s in
  let op := last_op (cpu (machine s)) in
  let '(s, t1) := ticks (Z.to_nat (tick_bound (cpu (machine s)))) s in
  let s := on_cpu (with_result_cycle 0) s in
  if _done (cpu (machine s)) then (s, EvExec op :: t1, false)
  else
    let '(s, t2) := service_interrupts s in
    (s, EvExec op :: t1 ++ t2, true).

(** The first [n] turns of the loop. *)
Fixpoint run_loop (n : nat) (s : Sys) : Sys * list Event :=
  match n with
  | O => (s, [])
  | S n' =>
      let '(s1, t1, continue) := iteration s in
      if continue then
        let '(s2, t2) := run_loop n' s1 in (s2, t1 ++ t2)
      else (s1, t1)
  end.

(** [void CPU::run()]: load PC from the reset vector, then loop. *)
Definition run (n : nat) (s : Sys) : Sys * list Event :=
  let '(pc, m) := read_vector 0xfffc (machine s) in
  run_loop n (with_machine (with_cpu (with_PC pc (cpu m)) m) s).

End Run.

(** ** Opcode handlers and their cycle penalties

    cpu.h, which declares the dispatch table [ops], the addressing
    modes and the opcode handlers, is not among the sources; the
    definitions of this part are modelled from the specification.  They
    fix what bears on the cycle count: which bytes an opcode fetches,
    which address it forms, and when it calls [addcyc].  What an
    operation computes is left to the class [Operations]. *)

(** Modelled from the spec: the mask of the N flag, bit 7 of P; cpu.h
    is missing. *)
Definition N_FLAG : Z := 0x80.

(** Modelled from the spec: the mask of the V flag, bit 6 of P; cpu.h
    is missing. *)
Definition V_FLAG : Z := 0x40.

(** Modelled from the spec: the mask of the B flag, bit 4 of P; cpu.h
    is missing. *)
Definition B_FLAG : Z := 0x10.

(** Modelled from the spec: the mask of the C flag, bit 0 of P; cpu.h
    is missing. *)
Definition C_FLAG : Z := 0x01.

(** The page of an address. *)
Definition page (a : Z) : Z := Z.land a 0xff00.

(** The operand of a relative branch as a signed offset. *)
Definition signed8 (v : Z) : Z := if v <? 0x80 then v else v - 0x100.

(** Modelled from the spec: the addressing modes of cpu.h (missing), as
    the spec lists them. *)
Inductive Mode :=
  | Implicit | Accumulator | Immediate
  | ZeroPage | ZeroPageX | ZeroPageY
  | Absolute | AbsoluteX | AbsoluteY
  | Indirect | IndexedIndirect | IndirectIndexed
  | Relative.

(** Modelled from the spec: the operations of the dispatch table of
    cpu.h (missing): the 56 documented mnemonics of the 6502, then the
    unofficial ones, with [IGN] and [SKB] for the unofficial NOPs that
    fetch an operand from memory or skip an immediate byte, and [JAM]
    for the opcodes that the cycle chart gives 0 cycles. *)
Inductive Mnemonic :=
  | ADC | AND | ASL | BCC | BCS | BEQ | BIT | BMI | BNE | BPL | BRK | BVC | BVS
  | CLC | CLD | CLI | CLV | CMP | CPX | CPY | DEC | DEX | DEY | EOR | INC | INX
  | INY | JMP | JSR | LDA | LDX | LDY | LSR | NOP | ORA | PHA | PHP | PLA | PLP
  | ROL | ROR | RTI | RTS | SBC | SEC | SED | SEI | STA | STX | STY | TAX | TAY
  | TSX | TXA | TXS | TYA
  | LAX | SAX | DCP | ISC | SLO | RLA | SRE | RRA | IGN | SKB
  | ANC | ALR | ARR | XAA | AXS | LAS | AHX | SHX | SHY | TAS
  | JAM.

(** Modelled from the spec: how an operation of cpu.h (missing) uses its
    operand.  The spec adds the page-crossing cycle "on read-class
    instructions, never on write-class RMW", has branches test a flag,
    gives BRK its own sequence and treats the opcodes of cost 0 as
    illegal, a silent no-op in the source. *)
Inductive Kind :=
  | KRead
  | KWrite
  | KModify
  | KBranch (mask : Z) (set : bool)
  | KBreak
  | KJam
  | KOther.

(** Modelled from the spec: the kind of each operation of cpu.h
    (missing).  A branch is taken when the flag under [mask] is [set]. *)
Definition kind (mn : Mnemonic) : Kind :=
  match mn with
  | ADC | AND | BIT | CMP | CPX | CPY | EOR | LDA | LDX | LDY | ORA | SBC
  | LAX | LAS | IGN | SKB | ANC | ALR | ARR | XAA | AXS => KRead
  | STA | STX | STY | SAX | AHX | SHX | SHY | TAS => KWrite
  | ASL | LSR | ROL | ROR | INC | DEC | SLO | RLA | SRE | RRA | DCP | ISC => KModify
  | BPL => KBranch N_FLAG false
  | BMI => KBranch N_FLAG true
  | BVC => KBranch V_FLAG false
  | BVS => KBranch V_FLAG true
  | BCC => KBranch C_FLAG false
  | BCS => KBranch C_FLAG true
  | BNE => KBranch Z_FLAG false
  | BEQ => KBranch Z_FLAG true
  | BRK => KBreak
  | JAM => KJam
  | _ => KOther
  end.

(** Modelled from the spec: the documented operations of cpu.h
    (missing), the first 56 of [Mnemonic].  The unofficial opcodes that
    repeat a documented operation, [EB] and the NOPs without operand,
    are in modes that cross no page. *)
Definition documented (mn : Mnemonic) : bool :=
  match mn with
  | LAX | SAX | DCP | ISC | SLO | RLA | SRE | RRA | IGN | SKB
  | ANC | ALR | ARR | XAA | AXS | LAS | AHX | SHX | SHY | TAS | JAM => false
  | _ => true
  end.

(** Modelled from the spec: the 256-entry dispatch table of cpu.h
    (missing), which decodes an opcode into an operation and an
    addressing mode: the opcode matrix of the 6502. *)
Definition opcode_table : list (Mnemonic * Mode) :=
  (* 0x00 *) [(BRK, Implicit); (ORA, IndexedIndirect); (JAM, Implicit); (SLO, IndexedIndirect);
  (* 0x04 *)  (IGN, ZeroPage); (ORA, ZeroPage); (ASL, ZeroPage); (SLO, ZeroPage);
  (* 0x08 *)  (PHP, Implicit); (ORA, Immediate); (ASL, Accumulator); (ANC, Immediate);
  (* 0x0C *)  (IGN, Absolute); (ORA, Absolute); (ASL, Absolute); (SLO, Absolute);
  (* 0x10 *)  (BPL, Relative); (ORA, IndirectIndexed); (JAM, Implicit); (SLO, IndirectIndexed);
  (* 0x14 *)  (IGN, ZeroPageX); (ORA, ZeroPageX); (ASL, ZeroPageX); (SLO, ZeroPageX);
  (* 0x18 *)  (CLC, Implicit); (ORA, AbsoluteY); (NOP, Implicit); (SLO, AbsoluteY);
  (* 0x1C *)  (IGN, AbsoluteX); (ORA, AbsoluteX); (ASL, AbsoluteX); (SLO, AbsoluteX);
  (* 0x20 *)  (JSR, Absolute); (AND, IndexedIndirect); (JAM, Implicit); (RLA, IndexedIndirect);
  (* 0x24 *)  (BIT, ZeroPage); (AND, ZeroPage); (ROL, ZeroPage); (RLA, ZeroPage);
  (* 0x28 *)  (PLP, Implicit); (AND, Immediate); (ROL, Accumulator); (ANC, Immediate);
  (* 0x2C *)  (BIT, Absolute); (AND, Absolute); (ROL, Absolute); (RLA, Absolute);
  (* 0x30 *)  (BMI, Relative); (AND, IndirectIndexed); (JAM, Implicit); (RLA, IndirectIndexed);
  (* 0x34 *)  (IGN, ZeroPageX); (AND, ZeroPageX); (ROL, ZeroPageX); (RLA, ZeroPageX);
  (* 0x38 *)  (SEC, Implicit); (AND, AbsoluteY); (NOP, Implicit); (RLA, AbsoluteY);
  (* 0x3C *)  (IGN, AbsoluteX); (AND, AbsoluteX); (ROL, AbsoluteX); (RLA, AbsoluteX);
  (* 0x40 *)  (RTI, Implicit); (EOR, IndexedIndirect); (JAM, Implicit); (SRE, IndexedIndirect);
  (* 0x44 *)  (IGN, ZeroPage); (EOR, ZeroPage); (LSR, ZeroPage); (SRE, ZeroPage);
  (* 0x48 *)  (PHA, Implicit); (EOR, Immediate); (LSR, Accumulator); (ALR, Immediate);
  (* 0x4C *)  (JMP, Absolute); (EOR, Absolute); (LSR, Absolute); (SRE, Absolute);
  (* 0x50 *)  (BVC, Relative); (EOR, IndirectIndexed); (JAM, Implicit); (SRE, IndirectIndexed);
  (* 0x54 *)  (IGN, ZeroPageX); (EOR, ZeroPageX); (LSR, ZeroPageX); (SRE, ZeroPageX);
  (* 0x58 *)  (CLI, Implicit); (EOR, AbsoluteY); (NOP, Implicit); (SRE, AbsoluteY);
  (* 0x5C *)  (IGN, AbsoluteX); (EOR, AbsoluteX); (LSR, AbsoluteX); (SRE, AbsoluteX);
  (* 0x60 *)  (RTS, Implicit); (ADC, IndexedIndirect); (JAM, Implicit); (RRA, IndexedIndirect);
  (* 0x64 *)  (IGN, ZeroPage); (ADC, ZeroPage); (ROR, ZeroPage); (RRA, ZeroPage);
  (* 0x68 *)  (PLA, Implicit); (ADC, Immediate); (ROR, Accumulator); (ARR, Immediate);
  (* 0x6C *)  (JMP, Indirect); (ADC, Absolute); (ROR, Absolute); (RRA, Absolute);
  (* 0x70 *)  (BVS, Relative); (ADC, IndirectIndexed); (JAM, Implicit); (RRA, IndirectIndexed);
  (* 0x74 *)  (IGN, ZeroPageX); (ADC, ZeroPageX); (ROR, ZeroPageX); (RRA, ZeroPageX);
  (* 0x78 *)  (SEI, Implicit); (ADC, AbsoluteY); (NOP, Implicit); (RRA, AbsoluteY);
  (* 0x7C *)  (IGN, AbsoluteX); (ADC, AbsoluteX); (ROR, AbsoluteX); (RRA, AbsoluteX);
  (* 0x80 *)  (SKB, Immediate); (STA, IndexedIndirect); (SKB, Immediate); (SAX, IndexedIndirect);
  (* 0x84 *)  (STY, ZeroPage); (STA, ZeroPage); (STX, ZeroPage); (SAX, ZeroPage);
  (* 0x88 *)  (DEY, Implicit); (SKB, Immediate); (TXA, Implicit); (XAA, Immediate);
  (* 0x8C *)  (STY, Absolute); (STA, Absolute); (STX, Absolute); (SAX, Absolute);
  (* 0x90 *)  (BCC, Relative); (STA, IndirectIndexed); (JAM, Implicit); (AHX, IndirectIndexed);
  (* 0x94 *)  (STY, ZeroPageX); (STA, ZeroPageX); (STX, ZeroPageY); (SAX, ZeroPageY);
  (* 0x98 *)  (TYA, Implicit); (STA, AbsoluteY); (TXS, Implicit); (TAS, AbsoluteY);
  (* 0x9C *)  (SHY, AbsoluteX); (STA, AbsoluteX); (SHX, AbsoluteY); (AHX, AbsoluteY);
  (* 0xA0 *)  (LDY, Immediate); (LDA, IndexedIndirect); (LDX, Immediate); (LAX, IndexedIndirect);
  (* 0xA4 *)  (LDY, ZeroPage); (LDA, ZeroPage); (LDX, ZeroPage); (LAX, ZeroPage);
  (* 0xA8 *)  (TAY, Implicit); (LDA, Immediate); (TAX, Implicit); (LAX, Immediate);
  (* 0xAC *)  (LDY, Absolute); (LDA, Absolute); (LDX, Absolute); (LAX, Absolute);
  (* 0xB0 *)  (BCS, Relative); (LDA, IndirectIndexed); (JAM, Implicit); (LAX, IndirectIndexed);
  (* 0xB4 *)  (LDY, ZeroPageX); (LDA, ZeroPageX); (LDX, ZeroPageY); (LAX, ZeroPageY);
  (* 0xB8 *)  (CLV, Implicit); (LDA, AbsoluteY); (TSX, Implicit); (LAS, AbsoluteY);
  (* 0xBC *)  (LDY, AbsoluteX); (LDA, AbsoluteX); (LDX, AbsoluteY); (LAX, AbsoluteY);
  (* 0xC0 *)  (CPY, Immediate); (CMP, IndexedIndirect); (SKB, Immediate); (DCP, IndexedIndirect);
  (* 0xC4 *)  (CPY, ZeroPage); (CMP, ZeroPage); (DEC, ZeroPage); (DCP, ZeroPage);
  (* 0xC8 *)  (INY, Implicit); (CMP, Immediate); (DEX, Implicit); (AXS, Immediate);
  (* 0xCC *)  (CPY, Absolute); (CMP, Absolute); (DEC, Absolute); (DCP, Absolute);
  (* 0xD0 *)  (BNE, Relative); (CMP, IndirectIndexed); (JAM, Implicit); (DCP, IndirectIndexed);
  (* 0xD4 *)  (IGN, ZeroPageX); (CMP, ZeroPageX); (DEC, ZeroPageX); (DCP, ZeroPageX);
  (* 0xD8 *)  (CLD, Implicit); (CMP, AbsoluteY); (NOP, Implicit); (DCP, AbsoluteY);
  (* 0xDC *)  (IGN, AbsoluteX); (CMP, AbsoluteX); (DEC, AbsoluteX); (DCP, AbsoluteX);
  (* 0xE0 *)  (CPX, Immediate); (SBC, IndexedIndirect); (SKB, Immediate); (ISC, IndexedIndirect);
  (* 0xE4 *)  (CPX, ZeroPage); (SBC, ZeroPage); (INC, ZeroPage); (ISC, ZeroPage);
  (* 0xE8 *)  (INX, Implicit); (SBC, Immediate); (NOP, Implicit); (SBC, Immediate);
  (* 0xEC *)  (CPX, Absolute); (SBC, Absolute); (INC, Absolute); (ISC, Absolute);
  (* 0xF0 *)  (BEQ, Relative); (SBC, IndirectIndexed); (JAM, Implicit); (ISC, IndirectIndexed);
  (* 0xF4 *)  (IGN, ZeroPageX); (SBC, ZeroPageX); (INC, ZeroPageX); (ISC, ZeroPageX);
  (* 0xF8 *)  (SED, Implicit); (SBC, AbsoluteY); (NOP, Implicit); (ISC, AbsoluteY);
  (* 0xFC *)  (IGN, AbsoluteX); (SBC, AbsoluteX); (INC, AbsoluteX); (ISC, AbsoluteX)].

(** Modelled from the spec: the decoding of an opcode byte by the
    dispatch table of cpu.h (missing). *)
Definition decode (op : Z) : Mnemonic * Mode :=
  default (JAM, Implicit) (opcode_table !! Z.to_nat op).

(** Modelled from the spec: "the canonical 6502 table" of base cycle
    costs, which the spec names without printing it, by the timing rules
    of the 6502: the cost of an operation follows from its kind and its
    addressing mode. *)
Definition canonical_cycles (d : Mnemonic * Mode) : Z :=
  let '(mn, mode) := d in
  match kind mn with
  | KJam => 0
  | KBreak => 7
  | KBranch _ _ => 2
  | KRead =>
      match mode with
      | ZeroPage => 3
      | ZeroPageX | ZeroPageY | Absolute | AbsoluteX | AbsoluteY => 4
      | IndexedIndirect => 6
      | IndirectIndexed => 5
      | _ => 2
      end
  | KWrite =>
      match mode with
      | ZeroPage => 3
      | ZeroPageX | ZeroPageY | Absolute => 4
      | AbsoluteX | AbsoluteY => 5
      | IndexedIndirect | IndirectIndexed => 6
      | _ => 2
      end
  | KModify =>
      match mode with
      | ZeroPage => 5
      | ZeroPageX | ZeroPageY | Absolute => 6
      | AbsoluteX | AbsoluteY => 7
      | IndexedIndirect | IndirectIndexed => 8
      | _ => 2
      end
  | KOther =>
      match mn with
      | JSR | RTS | RTI => 6
      | PHA | PHP => 3
      | PLA | PLP => 4
      | JMP => match mode with Indirect => 5 | _ => 3 end
      | _ => 2
      end
  end.

(** Modelled from the spec: what a handler of cpu.h (missing) signals:
    whether a read of a documented instruction crossed a page, whether a
    branch was taken and whether it crossed a page. *)
Record Outcome := mkOutcome {
  page_crossed_read : bool;
  branch_taken : bool;
  branch_crossed : bool;
}.

(** Modelled from the spec: the signals of an opcode without penalty;
    cpu.h is missing. *)
Definition no_penalty : Outcome := mkOutcome false false false.

(** Modelled from the spec: the penalty of a handler of cpu.h (missing)
    is 1 for a page-crossing read on a documented instruction. *)
Definition page_cross_penalty (o : Outcome) : Z :=
  if page_crossed_read o then 1 else 0.

(** Modelled from the spec: the penalty of a branch handler of cpu.h
    (missing) is 1 for a taken branch and 2 if the branch also crosses a
    page. *)
Definition branch_penalty (o : Outcome) : Z :=
  if branch_taken o then (if branch_crossed o then 2 else 1) else 0.

(** Modelled from the spec: [ProcStatus] is declared in cpu.h, which is
    missing.  The status byte pushed when an interrupt is serviced has
    B = 0 and the unused bit 5 set. *)
Definition spec_ProcStatus (c : CPU) : Z := Z.lor (Z.land (P c) 0xef) 0x20.

(** Modelled from the spec: the registers and the RAM of a CPU object
    as a [CPU_state], what an operation of cpu.h (missing) computes
    with. *)
Definition arch (c : CPU) : CPU_state :=
  mkCPU_state (memory c) (P c) (A c) (X c) (Y c) (SP c) (PC c).

(** Modelled from the spec: the CPU object with the registers and the
    RAM that an operation of cpu.h (missing) returns, the registers
    converted to their types; the members that the loop of [CPU::run]
    keeps for itself, [last_PC], [last_op] and [result_cycle], and the
    lines [IRQ] and [_done] are kept. *)
Definition set_arch (st : CPU_state) (c : CPU) : CPU :=
  mkCPU (state_memory st) (u8 (state_P st)) (u8 (state_A st)) (u8 (state_X st))
        (u8 (state_Y st)) (u8 (state_SP st)) (u16 (state_PC st))
        (last_PC c) (last_op c) (result_cycle c) (IRQ c) (_done c).

Definition with_state_A (v : Z) (st : CPU_state) : CPU_state :=
  mkCPU_state (state_memory st) (state_P st) v (state_X st) (state_Y st)
              (state_SP st) (state_PC st).

Definition with_state_P (v : Z) (st : CPU_state) : CPU_state :=
  mkCPU_state (state_memory st) v (state_A st) (state_X st) (state_Y st)
              (state_SP st) (state_PC st).

Definition with_state_PC (v : Z) (st : CPU_state) : CPU_state :=
  mkCPU_state (state_memory st) (state_P st) (state_A st) (state_X st) (state_Y st)
              (state_SP st) v.

(** Modelled from the spec: what the operations of cpu.h (missing)
    compute, on the registers and the RAM.
    - [op_read]: a read-class operation, from the byte of its operand;
    - [op_store]: the byte that a write-class operation stores;
    - [op_modify]: a read-modify-write operation, from the byte read to
      the byte written back;
    - [op_other]: the remaining operations, from the address of their
      operand, if any.
    The spec says what they do to the flags and leaves the rest to the
    6502; the cycle count does not depend on it, so they are
    parameters. *)
Class Operations := {
  op_read : Mnemonic -> Z -> CPU_state -> CPU_state;
  op_store : Mnemonic -> CPU_state -> Z;
  op_modify : Mnemonic -> Z -> CPU_state -> Z * CPU_state;
  op_other : Mnemonic -> Z -> CPU_state -> CPU_state;
}.

Section Handlers.

Context {PPU APU ROM Ctl : Type}.
Context `{!IPPU PPU, !IPPU_data PPU ROM, !IAPU APU, !IROM ROM, !IController Ctl}.

Local Abbreviation Mach := (Machine PPU APU ROM Ctl).

(** Modelled from the spec: an operation of cpu.h (missing) on the
    registers and the RAM, applied to the CPU. *)
Definition operate (f : CPU_state -> CPU_state) (m : Mach) : Mach :=
  with_cpu (set_arch (f (arch (cpu m))) (cpu m)) m.

(** Modelled from the spec: the 16-bit pointer that the indirect modes
    of cpu.h (missing) load from page zero, the low byte at [z] and the
    high byte at [z + 1] without leaving the page. *)
Definition read_vector_zp (z : Z) (m : Mach) : Z * Mach :=
  let '(lo, m1) := read (u8 z) m in
  let '(hi, m2) := read (u8 (z + 1)) m1 in
  (u16 (Z.lor lo (Z.shiftl hi 8)), m2).

(** Modelled from the spec: the addressing modes of cpu.h (missing).
    Each fetches its operand bytes with [next] and [next2], returns the
    effective address and signals whether indexing left the page of the
    base address.  [Immediate] and [Relative] address the byte at PC;
    [Indirect] has the page-wrap bug of JMP ($xxFF): the high byte of the
    pointer is read from the start of the same page. *)
Definition address (mode : Mode) (m : Mach) : Z * bool * Mach :=
  match mode with
  | Implicit | Accumulator => (0, false, m)
  | Immediate | Relative =>
      let pc := PC (cpu m) in
      (pc, false, with_cpu (with_PC (u16 (pc + 1)) (cpu m)) m)
  | ZeroPage =>
      let '(z, m) := next m in (u8 z, false, m)
  | ZeroPageX =>
      let '(z, m) := next m in (u8 (z + X (cpu m)), false, m)
  | ZeroPageY =>
      let '(z, m) := next m in (u8 (z + Y (cpu m)), false, m)
  | Absolute =>
      let '(a, m) := next2 m in (a, false, m)
  | AbsoluteX =>
      let '(a, m) := next2 m in
      let ea := u16 (a + X (cpu m)) in
      (ea, negb (page a =? page ea), m)
  | AbsoluteY =>
      let '(a, m) := next2 m in
      let ea := u16 (a + Y (cpu m)) in
      (ea, negb (page a =? page ea), m)
  | Indirect =>
      let '(p, m) := next2 m in
      let '(lo, m) := read p m in
      let '(hi, m) := read (Z.lor (page p) (u8 (p + 1))) m in
      (u16 (Z.lor lo (Z.shiftl hi 8)), false, m)
  | IndexedIndirect =>
      let '(z, m) := next m in
      let '(a, m) := read_vector_zp (z + X (cpu m)) m in
      (a, false, m)
  | IndirectIndexed =>
      let '(z, m) := next m in
      let '(a, m) := read_vector_zp z m in
      let ea := u16 (a + Y (cpu m)) in
      (ea, negb (page a =? page ea), m)
  end.

(** Modelled from the spec: the operand byte of a read through an
    addressing mode of cpu.h (missing), with the page-crossing signal of
    the mode.  For [Immediate] this is the byte at PC, as in the one
    specialisation that src/cpu.cpp has, [CPU::read<&CPU::IMM>]. *)
Definition operand (mode : Mode) (m : Mach) : Z * bool * Mach :=
  match mode with
  | Implicit => (0, false, m)
  | Accumulator => (A (cpu m), false, m)
  | _ =>
      let '(ea, crossed, m) := address mode m in
      let '(v, m) := read ea m in
      (v, crossed, m)
  end.

(** Modelled from the spec: the branch handlers of cpu.h (missing).  The
    branch is taken when the flag under [mask] is [set]; a taken branch
    calls [addcyc] once, and once more when it crosses a page.  As in
    the scenario of the spec ([F0 7F] at [$80FE] costs 2 + 1 + 1) the
    branch crosses a page when its target is not on the page of the
    branch opcode. *)
Definition branch (mask : Z) (set : bool) (m : Mach) : Mach :=
  let '(v, m) := next m in
  let c := cpu m in
  if Bool.eqb (negb (Z.land (P c) mask =? 0)) set then
    let target := u16 (PC c + signed8 v) in
    let c := addcyc c in
    let c := if page target =? page (last_PC c) then c else addcyc c in
    with_cpu (with_PC target c) m
  else m.

(** Modelled from the spec: the handler of BRK of cpu.h (missing): it
    "pushes PC+2 and P with B=1, loads PC from $FFFE/F, and sets I".
    When the handler runs PC is past the opcode. *)
Definition handler_BRK (m : Mach) : Mach :=
  let c := cpu m in
  let c := push2 (PC c + 1) c in
  let c := push (Z.lor (spec_ProcStatus c) B_FLAG) c in
  let c := with_P (u8 (Z.lor (P c) I_FLAG)) c in
  let '(pc, m) := read_vector 0xfffe (with_cpu c m) in
  with_cpu (with_PC pc (cpu m)) m.

Context `{!Operations}.

(** Modelled from the spec: the opcode handlers [ops[op]] of cpu.h
    (missing).  A read-class operation reads its operand and, when the
    instruction is documented and the mode signalled a page crossing,
    calls [addcyc]; a write-class operation stores at the effective
    address; a read-modify-write operation reads, computes and writes
    back, or works on A in the accumulator mode; a branch and BRK are as
    above; an opcode of cost 0 does nothing. *)
Definition handler (op : Z) (m : Mach) : Mach :=
  let '(mn, mode) := decode op in
  match kind mn with
  | KRead =>
      let '(v, crossed, m) := operand mode m in
      let m := if documented mn && crossed then with_cpu (addcyc (cpu m)) m else m in
      operate (op_read mn v) m
  | KWrite =>
      let '(ea, _, m) := address mode m in
      write (op_store mn (arch (cpu m))) ea m
  | KModify =>
      match mode with
      | Accumulator =>
          operate (fun st => let '(v, st) := op_modify mn (state_A st) st in
                             with_state_A v st) m
      | _ =>
          let '(ea, _, m) := address mode m in
          let '(v, m) := read ea m in
          let '(v', st) := op_modify mn v (arch (cpu m)) in
          write v' ea (with_cpu (set_arch st (cpu m)) m)
      end
  | KBranch mask set => branch mask set m
  | KBreak => handler_BRK m
  | KJam => m
  | KOther =>
      let '(ea, _, m) := address mode m in
      operate (op_other mn ea) m
  end.

(** Modelled from the spec: the members of cpu.h (missing) as the
    definitions above give them. *)
Definition spec_cpu_h : cpu_h Mach :=
  {| ops := handler; ProcStatus := spec_ProcStatus |}.

End Handlers.

(** *** The penalties of an instruction, from the state before it *)

Section Penalty.

Context {PPU APU ROM Ctl : Type}.
Context `{!IPPU PPU, !IPPU_data PPU ROM, !IAPU APU, !IROM ROM, !IController Ctl}.

Local Abbreviation Mach := (Machine PPU APU ROM Ctl).

(** Modelled from the spec: whether the operand of an instruction in
    [mode] crosses a page, for a machine whose PC is past the opcode:
    the indexed address is not on the page of the base address, which is
    the word at PC in the absolute modes and the pointer in page zero
    that the byte at PC names in the indirect indexed mode.  The other
    modes of cpu.h (missing) cross no page. *)
Definition crosses (mode : Mode) (m : Mach) : bool :=
  let c := cpu m in
  match mode with
  | AbsoluteX =>
      let base := fst (read_vector (PC c) m) in
      negb (page base =? page (u16 (base + X c)))
  | AbsoluteY =>
      let base := fst (read_vector (PC c) m) in
      negb (page base =? page (u16 (base + Y c)))
  | IndirectIndexed =>
      let '(z, m1) := read (PC c) m in
      let base := fst (read_vector_zp z m1) in
      negb (page base =? page (u16 (base + Y c)))
  | _ => false
  end.

(** Modelled from the spec: the signals of the instruction with opcode
    [op], for a machine whose PC is past the opcode.  A read of a
    documented instruction signals the page crossing of its mode; a
    branch is taken when its flag has the value it tests, to the
    address after its operand plus the signed operand, and crosses a
    page when the target is not on the page of the branch opcode
    ([last_PC]); the handlers of cpu.h are missing. *)
Definition outcome (op : Z) (m : Mach) : Outcome :=
  let c := cpu m in
  let '(mn, mode) := decode op in
  match kind mn with
  | KRead => mkOutcome (documented mn && crosses mode m) false false
  | KBranch mask set =>
      let target := u16 (u16 (PC c + 1) + signed8 (fst (read (PC c) m))) in
      mkOutcome false
                (Bool.eqb (negb (Z.land (P c) mask =? 0)) set)
                (negb (page target =? page (last_PC c)))
  | _ => no_penalty
  end.

End Penalty.

(** ** Devices modelled from the spec *)

(** Modelled from the spec: the PPU's implementation is not among the
    sources.  This is its OAM port only: 256 bytes of OAM
    ([PPU::ObjectAttributeMemory]) and OAMADDR; a write of OAMDATA stores
    at OAMADDR and increments it, a read returns the byte at OAMADDR.
    The other registers are left out: their writes are dropped and their
    reads return 0. *)
Record OAM_port := mkOAM_port {
  OAM : list Z;
  OAMADDR : Z;
}.

(** Modelled from the spec: [regw_OAM_data] of the missing PPU stores
    at OAMADDR and increments the 8-bit OAMADDR after the write. *)
Definition OAM_port_write_data (v : Z) (p : OAM_port) : OAM_port :=
  mkOAM_port (mem_set (OAM p) (OAMADDR p) v) (u8 (OAMADDR p + 1)).

#[export] Instance OAM_port_IPPU : IPPU OAM_port := {|
  regw_control _ p := p;
  regw_mask _ p := p;
  regw_OAM_address v p := mkOAM_port (OAM p) v;
  regw_OAM_data := OAM_port_write_data;
  regw_scroll _ p := p;
  regw_address _ p := p;
  regr_status p := (0, p);
  regr_OAM_data p := (mem_get (OAM p) (OAMADDR p), p);
|}.

(** The OAM port has no PPUDATA: a write is dropped and a read returns
    0, the cartridge untouched. *)
#[export] Instance OAM_port_IPPU_data {R : Type} : IPPU_data OAM_port R := {|
  regw_data _ p r := (p, r);
  regr_data p r := (0, (p, r));
|}.

(** ** Stand-ins for the remaining devices, for concrete runs *)

(** An APU that records its register writes and reads as 0. *)
Definition APU_log := list (Z * Z).

#[export] Instance APU_log_IAPU : IAPU APU_log := {|
  IAPU_read a := (0, a);
  IAPU_write value index a := (index, value) :: a;
|}.

(** A cartridge given by the PRG bytes that are not 0, as (address,
    byte) pairs; writes are ignored. *)
Definition PRG := list (Z * Z).

Fixpoint PRG_byte (addr : Z) (r : list (Z * Z)) : Z :=
  match r with
  | [] => 0
  | (a, b) :: r' => if a =? addr then b else PRG_byte addr r'
  end.

#[export] Instance PRG_IROM : IROM PRG := {|
  read_prg addr r := (PRG_byte addr r, r);
  write_prg _ _ r := r;
|}.

(** A controller that records the calls made on it, oldest first, and
    reads as 0.  The controllers' implementation is not among the
    sources; nothing is assumed of it. *)
Inductive Pad_call :=
  | pad_read
  | pad_set_button_state (button : Button) (state : Z)
  | pad_strobe.

Definition Pad_log := list Pad_call.

#[export] Instance Pad_log_IController : IController Pad_log := {|
  IController_read g := (0, g ++ [pad_read]);
  set_button_state b state g := g ++ [pad_set_button_state b state];
  strobe g := g ++ [pad_strobe];
|}.

Definition Board := Devices OAM_port APU_log PRG Pad_log.
Definition Console := Machine OAM_port APU_log PRG Pad_log.

(** A console whose devices never call back. *)
Definition quiet_bus : IBus Board := {| on_cpu_tick d := (d, []) |}.

(** A console that raises the NMI line on every tick. *)
Definition nmi_bus : IBus Board := {| on_cpu_tick d := (d, [call_pull_NMI]) |}.

(** ** The claims about DMA and the strobe, as the specification words
    them, and concrete consoles to run them on *)

Section SpecBus.

Context {PPU APU ROM : Type}.
Context `{!IPPU PPU, !IPPU_data PPU ROM, !IAPU APU, !IROM ROM}.

(** OAM DMA as specified: the 256 bytes at [(value << 8) + i] reach
    the PPU through OAMDATA, and the CPU is stalled by 513 or 514
    cycles. *)
Definition spec_oam_dma {Ctl : Type} `{!IController Ctl}
    (value : Z) (m m' : Machine PPU APU ROM Ctl) : Prop :=
  ppu (dev m') = OAM_writes (spec_dma_source value m) (ppu (dev m)) /\
  (result_cycle (cpu m') = result_cycle (cpu m) + 513 \/
   result_cycle (cpu m') = result_cycle (cpu m) + 514).

(** The player holds button [b] of the controller in [port]:
    [controller[port]->set_button_state(b, BUTTON_ON)]. *)
Definition press {Ctl : Type} `{!IController Ctl}
    (port : Z) (m : Machine PPU APU ROM Ctl) (b : Button) : Machine PPU APU ROM Ctl :=
  with_controller port (set_button_state b BUTTON_ON (controller port m)) m.

(** The player lets go of button [b]:
    [controller[port]->set_button_state(b, BUTTON_OFF)]. *)
Definition release {Ctl : Type} `{!IController Ctl}
    (port : Z) (m : Machine PPU APU ROM Ctl) (b : Button) : Machine PPU APU ROM Ctl :=
  with_controller port (set_button_state b BUTTON_OFF (controller port m)) m.

(** The strobe as the specification words it: while bit 0 of the byte
    written to [$4016] is set the controllers reload from the live
    buttons, the write that clears it latches a snapshot, and the reads
    return the snapshot one bit per read, A first.  Two round trips on
    the controller in [port] that these words tell apart by their first
    read:
    - strobe on, A pressed, strobe off, A released: A was held when the
      snapshot was taken, and the first read returns 1;
    - strobe on, A pressed, A released, strobe off: A was not held, and
      the first read returns 0. *)
Definition spec_strobe_latches {Ctl : Type} `{!IController Ctl}
    (port : Z) (m : Machine PPU APU ROM Ctl) : Prop :=
  let held := press port (write 1 0x4016 m) CONTROL_A in
  fst (reads 8 (0x4016 + port) (release port (write 0 0x4016 held) CONTROL_A))
    !! 0%nat = Some 1 /\
  fst (reads 8 (0x4016 + port) (write 0 0x4016 (release port held CONTROL_A)))
    !! 0%nat = Some 0.

End SpecBus.

Definition ram_zero : list Z := replicate 0x800 0.

(** The CPU after reset, over a zeroed RAM. *)
Definition cpu_reset : CPU :=
  mkCPU ram_zero 0x24 0 0 0 0xfd 0x8000 0 0 0 false false.

(** A controller on which nothing has been called. *)
Definition pad_idle : Pad_log := [].

Definition board (prg : PRG) : Board :=
  mkDevices (mkOAM_port (replicate 0x100 0) 0) [] prg pad_idle pad_idle.

Definition console (c : CPU) (prg : PRG) : Console := mkMachine c (board prg).

(** RAM cell 0 holds 0x11 and the first byte of ROM page [$80] is 0x5a. *)
Definition dma_console : Console :=
  console (with_memory (mem_set ram_zero 0 0x11) cpu_reset) [(0x8000, 0x5a)].

(** ** Reading a trace of the loop *)

(** The number of bus ticks in a trace. *)
Fixpoint count_ticks (t : list Event) : Z :=
  match t with
  | [] => 0
  | EvTick :: t' => 1 + count_ticks t'
  | _ :: t' => count_ticks t'
  end.

(** The NMI line as a trace drives it: [pull_NMI] latches a pulse and a
    service consumes the latched pulse.  The result is [None] when the
    trace services an NMI with no pulse latched, and the final latch
    otherwise. *)
Fixpoint nmi_latch_after (latch : bool) (t : list Event) : option bool :=
  match t with
  | [] => Some latch
  | EvCall call_pull_NMI :: t' => nmi_latch_after true t'
  | EvNMI :: t' => if latch then nmi_latch_after false t' else None
  | _ :: t' => nmi_latch_after latch t'
  end.


(** ** A few operations for concrete runs *)

(** Modelled from the spec: "N and Z are set from the result of every
    data-producing op"; the status byte [p] with N and Z set from [v].
    The operations of cpu.h are missing. *)
Definition set_NZ (v p : Z) : Z :=
  let p := Z.land p (0xff - N_FLAG - Z_FLAG) in
  let p := Z.lor p (Z.land v N_FLAG) in
  if v =? 0 then Z.lor p Z_FLAG else p.

(** Modelled from the spec: the loads LDA, LDX and LDY of cpu.h
    (missing) put the operand in their register and set N and Z; the
    other read-class operations are left out and do nothing here. *)
Definition console_op_read (mn : Mnemonic) (v : Z) (st : CPU_state) : CPU_state :=
  let p := set_NZ v (state_P st) in
  match mn with
  | LDA => mkCPU_state (state_memory st) p v (state_X st) (state_Y st)
                       (state_SP st) (state_PC st)
  | LDX => mkCPU_state (state_memory st) p (state_A st) v (state_Y st)
                       (state_SP st) (state_PC st)
  | LDY => mkCPU_state (state_memory st) p (state_A st) (state_X st) v
                       (state_SP st) (state_PC st)
  | _ => st
  end.

(** Modelled from the spec: the stores STA, STX and STY of cpu.h
    (missing) write their register; the other write-class operations are
    left out and store 0 here. *)
Definition console_op_store (mn : Mnemonic) (st : CPU_state) : Z :=
  match mn with
  | STA => state_A st
  | STX => state_X st
  | STY => state_Y st
  | _ => 0
  end.

(** Modelled from the spec: INC and DEC of cpu.h (missing) write back
    the byte plus or minus 1 and set N and Z; the other
    read-modify-write operations are left out and write the byte back
    here. *)
Definition console_op_modify (mn : Mnemonic) (v : Z) (st : CPU_state) : Z * CPU_state :=
  match mn with
  | INC => (u8 (v + 1), with_state_P (set_NZ (u8 (v + 1)) (state_P st)) st)
  | DEC => (u8 (v - 1), with_state_P (set_NZ (u8 (v - 1)) (state_P st)) st)
  | _ => (v, st)
  end.

(** Modelled from the spec: JMP, CLI and SEI of cpu.h (missing); the
    remaining operations are left out and do nothing here. *)
Definition console_op_other (mn : Mnemonic) (ea : Z) (st : CPU_state) : CPU_state :=
  match mn with
  | JMP => with_state_PC ea st
  | CLI => with_state_P (Z.land (state_P st) (0xff - I_FLAG)) st
  | SEI => with_state_P (Z.lor (state_P st) I_FLAG) st
  | _ => st
  end.

(** Modelled from the spec: the operations above in place of those of
    cpu.h (missing). *)
#[export] Instance console_Operations : Operations := {|
  op_read := console_op_read;
  op_store := console_op_store;
  op_modify := console_op_modify;
  op_other := console_op_other;
|}.

Definition console_cpu_h : cpu_h Console := spec_cpu_h.

Definition Console_system := System OAM_port APU_log PRG Pad_log.

(** A cartridge with the three vectors: NMI [$A000], reset [$8000], IRQ
    [$9000]; and at [$8000] the program [LDA #$42; BEQ +2]. *)
Definition prg_vectors : PRG :=
  [(0xfffb, 0xa0); (0xfffd, 0x80); (0xffff, 0x90);
   (0x8000, 0xa9); (0x8001, 0x42); (0x8002, 0xf0); (0x8003, 0x02)].

(** Both interrupts pending with the I flag clear. *)
Definition both_pending : Console_system :=
  mkSystem (console (with_IRQ true (with_P 0x20 cpu_reset)) prg_vectors) true.

(** Only the NMI latched, at reset. *)
Definition nmi_pending : Console_system :=
  mkSystem (console cpu_reset prg_vectors) true.

(** Nothing pending. *)
Definition idle : Console_system :=
  mkSystem (console cpu_reset prg_vectors) false.

(** The branch scenario of the spec: [F0 7F] at [$80FE], Z set. *)
Definition branch_scenario : Console_system :=
  mkSystem (console (with_PC 0x80fe (with_P 0x26 cpu_reset))
                    [(0x80fe, 0xf0); (0x80ff, 0x7f)]) false.


(** ** Sequences of stack operations *)

(** The bytes of a list pushed one after the other, first byte first. *)
Definition pushes (xs : list Z) (c : CPU) : CPU :=
  fold_left (fun c x => push x c) xs c.

(** [n] successive calls of [pull()], first result first. *)
Fixpoint pulls (n : nat) (c : CPU) : list Z * CPU :=
  match n with
  | O => ([], c)
  | S n' =>
      let '(x, c1) := pull c in
      let '(xs, c2) := pulls n' c1 in
      (x :: xs, c2)
  end.

(** The number of interrupts a trace services. *)
Fixpoint count_services (t : list Event) : Z :=
  match t with
  | [] => 0
  | EvIRQ :: t' => 1 + count_services t'
  | EvNMI :: t' => 1 + count_services t'
  | _ :: t' => count_services t'
  end.

(** The members of the CPU object that only the CPU itself writes: all
    but the [IRQ] level and the stop flag. *)
Definition registers (c : CPU) : list Z * (Z * Z * Z * Z * Z * Z) * (Z * Z * Z) :=
  (memory c, (P c, A c, X c, Y c, SP c, PC c), (last_PC c, last_op c, result_cycle c)).

(** Events of the tick loop: a tick or a call from the console. *)
Definition tick_event (e : Event) : Prop := e = EvTick \/ exists c, e = EvCall c.


(** A console that stops the CPU on every tick. *)
Definition stop_bus : IBus Board := {| on_cpu_tick d := (d, [call_stop]) |}.

(** The concrete console with the bytes 1, 2, 3 on its stack. *)
Definition cpu_with_stack : CPU := pushes [1; 2; 3] cpu_reset.

(** ** A console with a clock *)

(** An APU without registers that counts its ticks ([IAPU::tick]). *)
Record APU_clock := mkAPU_clock {
  apu_ticks : Z;
}.

#[export] Instance APU_clock_IAPU : IAPU APU_clock := {|
  IAPU_read a := (0, a);
  IAPU_write _ _ a := a;
|}.

Definition Clocked_board := Devices OAM_port APU_clock PRG Pad_log.

(** Modelled from the spec: the console, whose [on_cpu_tick] is not
    among the sources, ticks the APU once per CPU cycle; this one does
    nothing else and never calls back. *)
Definition clock_bus : IBus Clocked_board := {|
  on_cpu_tick d :=
    (mkDevices (ppu d) (mkAPU_clock (apu_ticks (apu d) + 1)) (rom d)
               (controller0 d) (controller1 d), []);
|}.

Definition clocked_console (c : CPU) (prg : PRG)
    : System OAM_port APU_clock PRG Pad_log :=
  mkSystem
    (mkMachine c (mkDevices (mkOAM_port (replicate 0x100 0) 0) (mkAPU_clock 0) prg
                            pad_idle pad_idle))
    false.

(** The branch scenario of the spec on the console with a clock:
    [F0 7F] at [$80FE], Z set. *)
Definition clocked_branch : System OAM_port APU_clock PRG Pad_log :=
  clocked_console (with_PC 0x80fe (with_P 0x26 cpu_reset))
                  [(0x80fe, 0xf0); (0x80ff, 0x7f)].

(** [LDA $80FF,X] at [$8000] with X = 1: the read at [$8100] leaves the
    page of [$80FF]. *)
Definition clocked_load : System OAM_port APU_clock PRG Pad_log :=
  clocked_console
    (mkCPU ram_zero 0x24 0 1 0 0xfd 0x8000 0 0 0 false false)
    [(0x8000, 0xbd); (0x8001, 0xff); (0x8002, 0x80); (0x8100, 0x99)].


(** * Properties *)

(** ** Machine integers and the work RAM *)

(** Linear arithmetic with the divisions and remainders by constants
    that the wrap-around of machine integers brings in. *)
Ltac lia_mod := Z.div_mod_to_equations; lia.

Lemma u8_range (x : Z) : is_u8 (u8 x).
Proof. unfold is_u8, u8. lia_mod. Qed.

Lemma u16_range (x : Z) : is_u16 (u16 x).
Proof. unfold is_u16, u16. lia_mod. Qed.

Lemma u8_id (x : Z) : is_u8 x -> u8 x = x.
Proof. unfold is_u8, u8. intros Hx. apply Z.mod_small. lia. Qed.

Lemma u16_id (x : Z) : is_u16 x -> u16 x = x.
Proof. unfold is_u16, u16. intros Hx. apply Z.mod_small. lia. Qed.

Lemma land_0x7ff (a : Z) : Z.land a 0x7ff = a mod 0x800.
Proof. change 0x7ff with (Z.ones 11). rewrite Z.land_ones by lia. reflexivity. Qed.

Lemma land_0x1f (a : Z) : Z.land a 0x1f = a mod 0x20.
Proof. change 0x1f with (Z.ones 5). rewrite Z.land_ones by lia. reflexivity. Qed.

Lemma land_7 (a : Z) : Z.land a 7 = a mod 8.
Proof. change 7 with (Z.ones 3). rewrite Z.land_ones by lia. reflexivity. Qed.

Lemma land_1 (a : Z) : Z.land a 1 = a mod 2.
Proof. change 1 with (Z.ones 1). rewrite Z.land_ones by lia. reflexivity. Qed.

Lemma land_0xff (a : Z) : Z.land a 0xff = a mod 0x100.
Proof. change 0xff with (Z.ones 8). rewrite Z.land_ones by lia. reflexivity. Qed.

Lemma length_mem_set (mem : list Z) (i v : Z) :
  length (mem_set mem i v) = length mem.
Proof. unfold mem_set. apply length_insert. Qed.

Lemma mem_get_set_eq (mem : list Z) (i v : Z) :
  (Z.to_nat i < length mem)%nat -> mem_get (mem_set mem i v) i = v.
Proof.
  intros Hi. unfold mem_get, mem_set.
  rewrite list_lookup_insert_eq by exact Hi. reflexivity.
Qed.

Lemma mem_get_set_ne (mem : list Z) (i j v : Z) :
  Z.to_nat i <> Z.to_nat j -> mem_get (mem_set mem i v) j = mem_get mem j.
Proof.
  intros Hij. unfold mem_get, mem_set.
  rewrite list_lookup_insert_ne by exact Hij. reflexivity.
Qed.

Lemma mem_set_lookup_ne (mem : list Z) (i v : Z) (j : nat) :
  Z.to_nat i <> j -> mem_set mem i v !! j = mem !! j.
Proof. intros Hij. unfold mem_set. apply list_lookup_insert_ne. exact Hij. Qed.

Section BusProperties.

Context {PPU APU ROM Ctl : Type}.
Context `{!IPPU PPU, !IPPU_data PPU ROM, !IAPU APU, !IROM ROM, !IController Ctl}.

Local Abbreviation Mach := (Machine PPU APU ROM Ctl).

Lemma read_ram (addr : Z) (m : Mach) :
  0 <= addr < 0x2000 ->
  read addr m = (mem_get (memory (cpu m)) (addr mod 0x800), m).
Proof.
  intros Ha. unfold read.
  rewrite u16_id by (unfold is_u16; lia).
  destruct (Z.ltb_spec addr 0x2000) as [_|Hge]; [|lia].
  rewrite land_0x7ff. reflexivity.
Qed.

Lemma write_ram (v addr : Z) (m : Mach) :
  0 <= addr < 0x2000 ->
  write v addr m =
  with_cpu (with_memory (mem_set (memory (cpu m)) (addr mod 0x800) (u8 v)) (cpu m)) m.
Proof.
  intros Ha. unfold write.
  rewrite u16_id by (unfold is_u16; lia).
  destruct (Z.ltb_spec addr 0x2000) as [_|Hge]; [|lia].
  rewrite land_0x7ff. reflexivity.
Qed.

(** C5: a byte written to work RAM through the bus is read back from
    the same address and from every mirror of it: for [addr] in
    [$0000-$1FFF], after [write(v, addr)] a read of [addr], and of any
    address of [$0000-$1FFF] congruent to it modulo [$0800], returns
    [v] and leaves the machine as the write left it. *)
Theorem ram_write_then_read (m : Mach) (addr v : Z) :
  length (memory (cpu m)) = 0x800%nat ->
  0 <= addr < 0x2000 ->
  is_u8 v ->
  read addr (write v addr m) = (v, write v addr m) /\
  forall addr', 0 <= addr' < 0x2000 -> addr' mod 0x800 = addr mod 0x800 ->
                read addr' (write v addr m) = (v, write v addr m).
Proof.
  intros Hlen Ha Hv.
  assert (Hmirror : forall addr', 0 <= addr' < 0x2000 ->
                      addr' mod 0x800 = addr mod 0x800 ->
                      read addr' (write v addr m) = (v, write v addr m)).
  { intros addr' Ha' Hcong.
    rewrite read_ram by exact Ha'.
    rewrite write_ram by exact Ha. cbn [cpu with_cpu memory with_memory].
    rewrite Hcong, mem_get_set_eq, u8_id; [reflexivity | exact Hv |].
    rewrite Hlen. pose proof (Z.mod_pos_bound addr 0x800). lia. }
  split; [apply Hmirror; [exact Ha | reflexivity] | exact Hmirror].
Qed.

End BusProperties.

(** Case analysis on a small non-negative integer, by its binary
    digits; the cases out of range go by arithmetic. *)
Ltac small_cases k :=
  destruct k as [|k|k]; [| |lia];
  [ | do 6 (try destruct k as [k|k|]) ]; try lia.

Section BadReads.

Context {PPU APU ROM Ctl : Type}.
Context `{!IPPU PPU, !IPPU_data PPU ROM, !IAPU APU, !IROM ROM, !IController Ctl}.

Local Abbreviation Mach := (Machine PPU APU ROM Ctl).

Lemma read_io_unmapped (addr : Z) (m : Mach) :
  0x4000 <= addr < 0x4015 -> read addr m = (0, m).
Proof.
  intros Ha. unfold read.
  rewrite u16_id by (unfold is_u16; lia).
  destruct (Z.ltb_spec addr 0x2000) as [Hlt|_]; [lia|].
  destruct (Z.ltb_spec addr 0x4000) as [Hlt|_]; [lia|].
  destruct (Z.ltb_spec addr 0x4020) as [_|Hge]; [|lia].
  rewrite land_0x1f.
  assert (Hk : 0 <= addr mod 0x20 < 0x15) by lia_mod.
  generalize dependent (addr mod 0x20). intros k Hk.
  small_cases k; reflexivity.
Qed.

Lemma read_ppu_write_only (addr : Z) (m : Mach) :
  0x2000 <= addr < 0x4000 ->
  Z.land addr 7 <> 2 -> Z.land addr 7 <> 4 -> Z.land addr 7 <> 7 ->
  read addr m = (0, m).
Proof.
  intros Ha H2 H4 H7. unfold read.
  rewrite u16_id by (unfold is_u16; lia).
  destruct (Z.ltb_spec addr 0x2000) as [Hlt|_]; [lia|].
  destruct (Z.ltb_spec addr 0x4000) as [_|Hge]; [|lia].
  rewrite land_7 in *.
  assert (Hk : 0 <= addr mod 8 < 8) by lia_mod.
  generalize dependent (addr mod 8). intros k H2 H4 H7 Hk.
  small_cases k; reflexivity.
Qed.

(** C6: bad reads return 0.  A read of an address in [$4000-$4015]
    other than the APU status register [$4015], and a read of a mirror
    of a write-only PPU register (an address in [$2000-$3FFF] whose low
    three bits are not 2, 4 or 7), returns 0 and changes nothing. *)
Theorem bad_reads_return_zero (addr : Z) (m : Mach) :
  (0x4000 <= addr <= 0x4015 /\ addr <> 0x4015) \/
  (0x2000 <= addr <= 0x3fff /\
   Z.land addr 7 <> 2 /\ Z.land addr 7 <> 4 /\ Z.land addr 7 <> 7) ->
  read addr m = (0, m).
Proof.
  intros [[Ha Hne] | (Ha & H2 & H4 & H7)].
  - apply read_io_unmapped. lia.
  - apply read_ppu_write_only; [lia | assumption..].
Qed.

End BadReads.

(** ** The stack *)

Lemma push_memory (x : Z) (c : CPU) :
  memory (push x c) = mem_set (memory c) (0x100 + SP c) (u8 x).
Proof. reflexivity. Qed.

Lemma push_SP (x : Z) (c : CPU) : SP (push x c) = (SP c - 1) mod 0x100.
Proof. reflexivity. Qed.

Lemma pull_memory (c : CPU) : memory (snd (pull c)) = memory c.
Proof. reflexivity. Qed.

Lemma pull_SP (c : CPU) : SP (snd (pull c)) = (SP c + 1) mod 0x100.
Proof. reflexivity. Qed.

Lemma length_push (x : Z) (c : CPU) : length (memory (push x c)) = length (memory c).
Proof. rewrite push_memory. apply length_mem_set. Qed.

Lemma push_outside_page1 (x : Z) (c : CPU) (i : nat) :
  is_u8 (SP c) -> ~ (0x100 <= i < 0x200)%nat ->
  memory (push x c) !! i = memory c !! i.
Proof.
  unfold is_u8. intros Hsp Hi. rewrite push_memory.
  apply mem_set_lookup_ne. lia.
Qed.

Lemma pull_push (x : Z) (c : CPU) :
  length (memory c) = 0x800%nat -> is_u8 (SP c) -> is_u8 x ->
  pull (push x c) = (x, with_SP (SP c) (push x c)).
Proof.
  unfold is_u8. intros Hlen Hsp Hx. unfold pull.
  rewrite push_SP, push_memory.
  assert (Hback : u8 ((SP c - 1) mod 0x100 + 1) = SP c) by (unfold u8; lia_mod).
  rewrite Hback. f_equal.
  replace (SP c + 0x100) with (0x100 + SP c) by lia.
  rewrite mem_get_set_eq by (rewrite Hlen; lia).
  apply u8_id. exact Hx.
Qed.

(** A 16-bit value is the [|] of its low byte and its high byte shifted
    back. *)
Lemma lor_bytes (w : Z) :
  is_u16 w -> Z.lor (w mod 0x100) (Z.shiftl (w / 0x100) 8) = w.
Proof.
  unfold is_u16. intros Hw.
  rewrite <- Z.lxor_lor, <- Z.add_nocarry_lxor.
  - rewrite Z.shiftl_mul_pow2 by lia. change (2 ^ 8) with 0x100. lia_mod.
  - apply Z.bits_inj'. intros n Hn. rewrite Z.land_spec, Z.bits_0.
    destruct (Z.lt_ge_cases n 8) as [Hlt|Hge].
    + rewrite Z.shiftl_spec_low by exact Hlt. apply andb_false_r.
    + change 0x100 with (2 ^ 8) at 1.
      rewrite Z.mod_pow2_bits_high by lia. reflexivity.
  - apply Z.bits_inj'. intros n Hn. rewrite Z.land_spec, Z.bits_0.
    destruct (Z.lt_ge_cases n 8) as [Hlt|Hge].
    + rewrite Z.shiftl_spec_low by exact Hlt. apply andb_false_r.
    + change 0x100 with (2 ^ 8) at 1.
      rewrite Z.mod_pow2_bits_high by lia. reflexivity.
Qed.

Lemma pull2_push2 (w : Z) (c : CPU) :
  length (memory c) = 0x800%nat -> is_u8 (SP c) -> is_u16 w ->
  pull2 (push2 w c) = (w, with_SP (SP c) (push2 w c)).
Proof.
  intros Hlen Hsp Hw. pose proof Hsp as Hsp'. pose proof Hw as Hw'.
  unfold is_u8 in Hsp'. unfold is_u16 in Hw'.
  unfold push2. rewrite (u16_id w) by exact Hw.
  rewrite land_0xff, Z.shiftr_div_pow2 by lia. change (2 ^ 8) with 0x100.
  set (c1 := push (w / 0x100) c).
  assert (Hlen1 : length (memory c1) = 0x800%nat)
    by (unfold c1; rewrite length_push; exact Hlen).
  assert (Hsp1 : is_u8 (SP c1)) by (unfold c1; rewrite push_SP; apply u8_range).
  unfold pull2.
  rewrite (pull_push (w mod 0x100) c1 Hlen1 Hsp1) by (unfold is_u8; lia_mod).
  unfold pull. cbn [SP with_SP memory].
  assert (Hsp1' : SP c1 = (SP c - 1) mod 0x100) by reflexivity.
  assert (Hback : u8 (SP c1 + 1) = SP c) by (rewrite Hsp1'; unfold u8; lia_mod).
  rewrite Hback. f_equal.
  rewrite push_memory. unfold c1 at 1. rewrite push_memory.
  rewrite mem_get_set_ne by (rewrite Hsp1'; lia_mod).
  replace (SP c + 0x100) with (0x100 + SP c) by lia.
  rewrite mem_get_set_eq by (rewrite Hlen; lia).
  rewrite (u8_id (w / 0x100)) by (unfold is_u8; lia_mod).
  rewrite u16_id; rewrite lor_bytes by exact Hw; [reflexivity | exact Hw].
Qed.

(** C7: the stack.  SP stays in [0, 0xFF]: [push(x)] stores [x] at
    [$0100 + SP] and decrements SP modulo 256, [pull()] increments SP
    modulo 256 and returns the byte at [$0100 + SP]; a pull after a push
    returns the pushed byte with SP restored, [pull2] after [push2]
    returns the pushed 16-bit value with SP restored, and none of them
    touches memory outside [$0100-$01FF]. *)
Theorem stack_push_pull (c : CPU) (x w : Z) :
  length (memory c) = 0x800%nat -> is_u8 (SP c) -> is_u8 x -> is_u16 w ->
  (memory (push x c) = mem_set (memory c) (0x100 + SP c) x /\
   SP (push x c) = (SP c - 1) mod 0x100 /\ is_u8 (SP (push x c))) /\
  (pull c = (mem_get (memory c) (0x100 + (SP c + 1) mod 0x100),
             with_SP ((SP c + 1) mod 0x100) c) /\
   is_u8 (SP (snd (pull c)))) /\
  (fst (pull (push x c)) = x /\ SP (snd (pull (push x c))) = SP c) /\
  (fst (pull2 (push2 w c)) = w /\ SP (snd (pull2 (push2 w c))) = SP c /\
   is_u8 (SP (push2 w c)) /\ is_u8 (SP (snd (pull2 c)))) /\
  (forall i : nat, ~ (0x100 <= i < 0x200)%nat ->
     memory (push x c) !! i = memory c !! i /\
     memory (push2 w c) !! i = memory c !! i) /\
  (memory (snd (pull c)) = memory c /\ memory (snd (pull2 c)) = memory c).
Proof.
  intros Hlen Hsp Hx Hw.
  split; [|split; [|split; [|split; [|split]]]].
  - rewrite push_memory, (u8_id x) by exact Hx.
    split; [reflexivity|]. split; [reflexivity|]. apply u8_range.
  - split; [|apply u8_range].
    unfold pull, u8. rewrite (Z.add_comm _ 0x100). reflexivity.
  - rewrite pull_push by assumption. split; reflexivity.
  - rewrite pull2_push2 by assumption.
    split; [reflexivity|]. split; [reflexivity|].
    split; [apply u8_range|]. apply u8_range.
  - intros i Hi. split.
    + apply push_outside_page1; assumption.
    + unfold push2.
      rewrite push_outside_page1; [| rewrite push_SP; apply u8_range | exact Hi].
      apply push_outside_page1; assumption.
  - split; reflexivity.
Qed.

(** ** Save states *)

(** An element-by-element copy loop: cell [j] of the result is [f j] for
    the indices the loop visits and the old cell elsewhere. *)
Lemma for_loop_store_lookup (f : Z -> Z) (n : nat) :
  forall (k : nat) (dst : list Z) (j : nat),
    for_loop n (Z.of_nat k) (fun i d => mem_set d i (f i)) dst !! j =
    if decide (k <= j < k + n /\ j < length dst)%nat
    then Some (f (Z.of_nat j)) else dst !! j.
Proof.
  induction n as [|n IH]; intros k dst j; cbn [for_loop].
  - destruct (decide _) as [[Hj _]|_]; [lia | reflexivity].
  - replace (Z.of_nat k + 1) with (Z.of_nat (S k)) by lia.
    rewrite IH, length_mem_set.
    destruct (decide (S k <= j < S k + n /\ j < length dst)%nat) as [Hin|Hout].
    + destruct (decide _) as [_|Hno]; [reflexivity | lia].
    + destruct (Nat.eq_dec j k) as [->|Hne].
      * unfold mem_set. rewrite Nat2Z.id.
        destruct (decide (k < length dst)%nat) as [Hlt|Hge].
        -- rewrite list_lookup_insert_eq by exact Hlt.
           destruct (decide _) as [_|Hno]; [reflexivity | lia].
        -- rewrite list_insert_ge by lia.
           destruct (decide _) as [Hyes|_]; [lia | reflexivity].
      * rewrite mem_set_lookup_ne by lia.
        destruct (decide _) as [Hyes|_]; [lia | reflexivity].
Qed.

Lemma for_loop_store_length (f : Z -> Z) (n : nat) :
  forall (k : Z) (dst : list Z),
    length (for_loop n k (fun i d => mem_set d i (f i)) dst) = length dst.
Proof.
  induction n as [|n IH]; intros k dst; cbn [for_loop]; [reflexivity|].
  rewrite IH. apply length_mem_set.
Qed.

(** Copying all [n] cells of [src] over a list of the same length gives
    [src]. *)
Lemma for_loop_copy (f : Z -> Z) (src dst : list Z) (n : nat) :
  length src = n -> length dst = n ->
  (forall j : nat, (j < n)%nat -> f (Z.of_nat j) = mem_get src (Z.of_nat j)) ->
  for_loop n 0 (fun i d => mem_set d i (f i)) dst = src.
Proof.
  intros Hsrc Hdst Hf. apply list_eq. intros j.
  change 0 with (Z.of_nat 0). rewrite for_loop_store_lookup.
  destruct (decide _) as [[Hj _]|Hout].
  - rewrite Hf by lia. unfold mem_get. rewrite Nat2Z.id.
    destruct (src !! j) as [b|] eqn:Hb; [reflexivity|].
    apply lookup_ge_None in Hb. lia.
  - rewrite !lookup_ge_None_2 by lia. reflexivity.
Qed.

Lemma mem_get_is_u8 (mem : list Z) (i : Z) :
  Forall is_u8 mem -> is_u8 (mem_get mem i).
Proof.
  intros Hall. unfold mem_get.
  destruct (mem !! Z.to_nat i) as [b|] eqn:Hb; cbn.
  - exact (proj1 (Forall_lookup _ _) Hall _ _ Hb).
  - unfold is_u8. lia.
Qed.

Lemma get_state_memory (c : CPU) :
  length (memory c) = 0x800%nat -> Forall is_u8 (memory c) ->
  state_memory (get_state c) = memory c.
Proof.
  intros Hlen Hbytes. unfold get_state. cbn [state_memory].
  apply (for_loop_copy (fun i => u8 (mem_get (memory c) i))).
  - exact Hlen.
  - reflexivity.
  - intros j _. apply u8_id, mem_get_is_u8. exact Hbytes.
Qed.

Lemma restore_state_memory (s : CPU_state) (c : CPU) :
  length (state_memory s) = 0x800%nat -> length (memory c) = 0x800%nat ->
  memory (restore_state s c) = state_memory s.
Proof.
  intros Hs Hc. unfold restore_state. cbn [memory].
  apply (for_loop_copy (fun i => mem_get (state_memory s) i)); auto.
Qed.

(** C9: a save state round trip.  Restoring, into a CPU [c'], the state
    captured from a CPU [c] gives a CPU whose registers P, A, X, Y, SP,
    PC and whose 2048 bytes of work RAM are those of [c] at capture
    time; every other member ([last_PC], [last_op], [result_cycle], the
    [IRQ] level and the stop flag) keeps the value it has in [c'], so
    restoring a CPU's own state leaves it as it is. *)
Theorem get_state_restore_state (c c' : CPU) :
  length (memory c) = 0x800%nat -> Forall is_u8 (memory c) ->
  length (memory c') = 0x800%nat ->
  restore_state (get_state c) c' =
    mkCPU (memory c) (P c) (A c) (X c) (Y c) (SP c) (PC c)
          (last_PC c') (last_op c') (result_cycle c') (IRQ c') (_done c') /\
  restore_state (get_state c) c = c.
Proof.
  intros Hlen Hbytes Hlen'.
  assert (Hgen : forall d, length (memory d) = 0x800%nat ->
            restore_state (get_state c) d =
            mkCPU (memory c) (P c) (A c) (X c) (Y c) (SP c) (PC c)
                  (last_PC d) (last_op d) (result_cycle d) (IRQ d) (_done d)).
  { intros d Hd.
    pose proof (restore_state_memory (get_state c) d) as Hmem.
    rewrite get_state_memory in Hmem by assumption.
    specialize (Hmem Hlen Hd).
    unfold restore_state in *. cbn [memory] in Hmem. rewrite Hmem.
    reflexivity. }
  split.
  - apply Hgen. exact Hlen'.
  - rewrite Hgen by exact Hlen. destruct c. reflexivity.
Qed.

(** ** The constructor *)

Lemma CPU_ctor_length (c : CPU) : length (memory (CPU_ctor c)) = length (memory c).
Proof. unfold CPU_ctor. cbn [memory with_memory]. rewrite !length_mem_set. reflexivity. Qed.

(** C10: after construction the work RAM is not all zero: the bytes at
    [$0008], [$0009], [$000A], [$000F] and [$01FC] are 0xF7, 0xEF, 0xDF,
    0xBF and 0x69, whatever the RAM held before the constructor's body
    ran. *)
Theorem CPU_ctor_presets (c : CPU) :
  length (memory c) = 0x800%nat ->
  mem_get (memory (CPU_ctor c)) 0x0008 = 0xf7 /\
  mem_get (memory (CPU_ctor c)) 0x0009 = 0xef /\
  mem_get (memory (CPU_ctor c)) 0x000a = 0xdf /\
  mem_get (memory (CPU_ctor c)) 0x000f = 0xbf /\
  mem_get (memory (CPU_ctor c)) 0x01fc = 0x69 /\
  memory (CPU_ctor c) <> replicate 0x800 0.
Proof.
  intros Hlen. unfold CPU_ctor. cbn [memory with_memory].
  assert (H8 : mem_get (mem_set (mem_set (mem_set (mem_set (mem_set (memory c)
                 0x008 0xf7) 0x009 0xef) 0x00a 0xdf) 0x00f 0xbf) 0x1fc 0x69) 0x008 = 0xf7).
  { rewrite !mem_get_set_ne by lia. apply mem_get_set_eq. lia. }
  repeat split.
  - exact H8.
  - rewrite !mem_get_set_ne by lia. apply mem_get_set_eq.
    rewrite !length_mem_set. lia.
  - rewrite !mem_get_set_ne by lia. apply mem_get_set_eq.
    rewrite !length_mem_set. lia.
  - rewrite !mem_get_set_ne by lia. apply mem_get_set_eq.
    rewrite !length_mem_set. lia.
  - apply mem_get_set_eq. rewrite !length_mem_set. lia.
  - intros Hzero. rewrite Hzero in H8. vm_compute in H8. discriminate H8.
Qed.

(** ** OAM DMA *)

Section DMA.

Context {PPU APU ROM Ctl : Type}.
Context `{!IPPU PPU, !IPPU_data PPU ROM, !IAPU APU, !IROM ROM, !IController Ctl}.

Local Abbreviation Mach := (Machine PPU APU ROM Ctl).

Lemma land_7_range (v : Z) : 0 <= Z.land v 7 < 8.
Proof. rewrite land_7. lia_mod. Qed.

(** One turn of the loop reads work RAM, whatever [value] is. *)
Lemma dma_body_ram (value i : Z) (m : Mach) :
  0 <= i < 0x100 ->
  dma_body value i m =
  with_ppu (regw_OAM_data (mem_get (memory (cpu m)) (Z.land value 7 * 0x100 + i))
                          (ppu (dev m))) m.
Proof.
  intros Hi. unfold dma_body.
  pose proof (land_7_range value) as Hp.
  rewrite read_ram by lia.
  rewrite Z.mod_small by lia. reflexivity.
Qed.

Lemma dma_loop (value : Z) (n : nat) :
  forall (i : Z) (m : Mach),
    0 <= i -> i + Z.of_nat n <= 0x100 ->
    for_loop n i (dma_body value) m =
    with_ppu (OAM_writes
                ((fun j => mem_get (memory (cpu m)) (Z.land value 7 * 0x100 + j))
                   <$> seqZ i (Z.of_nat n))
                (ppu (dev m))) m.
Proof.
  induction n as [|n IH]; intros i m Hi Hn; cbn [for_loop].
  - rewrite seqZ_nil by lia. destruct m as [c []]. reflexivity.
  - rewrite dma_body_ram by lia.
    rewrite IH by lia.
    rewrite (seqZ_cons i (Z.of_nat (S n))) by lia.
    replace (Z.pred (Z.of_nat (S n))) with (Z.of_nat n) by lia.
    replace (Z.succ i) with (i + 1) by lia.
    reflexivity.
Qed.

Lemma write_0x4014 (value : Z) (m : Mach) :
  write value 0x4014 m = for_loop 256 0 (dma_body (u8 value)) m.
Proof. reflexivity. Qed.

(** C1, as the code has it: a write of any byte [value] to [$4014]
    performs exactly 256 OAMDATA writes, in order, of the bytes of work
    RAM at [(value & 7) * 0x100 + i] for [i] = 0..255: the source page
    is the low three bits of [value], always inside the 2 KiB of RAM.
    Nothing but the PPU changes: the CPU, with its cycle counter
    [result_cycle], and the other devices are as before, so no stall
    is charged by the write. *)
Theorem oam_dma_copies_ram_page (value : Z) (m : Mach) :
  is_u8 value ->
  length (dma_source value m) = 256%nat /\
  write value 0x4014 m =
    with_ppu (OAM_writes (dma_source value m) (ppu (dev m))) m /\
  cpu (write value 0x4014 m) = cpu m /\
  (forall b, b ∈ dma_source value m ->
     exists a, 0 <= a < 0x800 /\ b = mem_get (memory (cpu m)) a).
Proof.
  intros Hv.
  assert (Hw : write value 0x4014 m =
               with_ppu (OAM_writes (dma_source value m) (ppu (dev m))) m).
  { rewrite write_0x4014, (u8_id value) by exact Hv.
    rewrite (dma_loop value 256 0 m) by lia. reflexivity. }
  split; [|split; [exact Hw | split]].
  - unfold dma_source. rewrite length_fmap, length_seqZ. reflexivity.
  - rewrite Hw. reflexivity.
  - intros b Hb. unfold dma_source in Hb.
    apply list_elem_of_fmap in Hb as (i & -> & Hi).
    apply list_elem_of_lookup in Hi as (k & Hk).
    apply lookup_seqZ in Hk as (-> & Hk).
    pose proof (land_7_range value) as Hp.
    eexists. split; [|reflexivity]. lia.
Qed.

End DMA.

(** *** The transfer seen in OAM

    On the OAM port modelled from the spec the 256 writes fill OAM with
    the source page, starting at OAMADDR and wrapping, and leave OAMADDR
    where it was. *)

Lemma OAM_port_writes (bytes : list Z) :
  forall p : OAM_port,
    (length bytes <= 0x100)%nat -> length (OAM p) = 0x100%nat -> is_u8 (OAMADDR p) ->
    OAMADDR (OAM_writes bytes p) = (OAMADDR p + Z.of_nat (length bytes)) mod 0x100 /\
    length (OAM (OAM_writes bytes p)) = 0x100%nat /\
    (forall (j : nat) (b : Z), bytes !! j = Some b ->
       mem_get (OAM (OAM_writes bytes p)) ((OAMADDR p + Z.of_nat j) mod 0x100) = b) /\
    (forall a : Z, 0 <= a < 0x100 ->
       (forall j : nat, (j < length bytes)%nat -> a <> (OAMADDR p + Z.of_nat j) mod 0x100) ->
       mem_get (OAM (OAM_writes bytes p)) a = mem_get (OAM p) a).
Proof.
  induction bytes as [|b bytes IH]; intros p Hlen Hoam Haddr.
  - cbn [OAM_writes fold_left length]. repeat split.
    + unfold is_u8 in Haddr. rewrite Z.add_0_r, Z.mod_small by lia. reflexivity.
    + exact Hoam.
    + intros j b Hj. rewrite lookup_nil in Hj. discriminate Hj.
  - cbn [length] in Hlen. unfold is_u8 in Haddr.
    change (OAM_writes (b :: bytes) p)
      with (OAM_writes bytes (OAM_port_write_data b p)).
    set (p1 := OAM_port_write_data b p).
    assert (Hoam1 : length (OAM p1) = 0x100%nat)
      by (unfold p1, OAM_port_write_data; cbn [OAM]; rewrite length_mem_set; exact Hoam).
    assert (Haddr1 : OAMADDR p1 = (OAMADDR p + 1) mod 0x100) by reflexivity.
    destruct (IH p1 ltac:(lia) Hoam1 ltac:(rewrite Haddr1; apply u8_range))
      as (Hend & Hl & Hfill & Hrest).
    split; [|split; [exact Hl | split]].
    + rewrite Hend, Haddr1. cbn [length]. lia_mod.
    + intros [|j] b' Hj.
      * cbn in Hj. injection Hj as <-.
        rewrite Hrest.
        -- unfold p1, OAM_port_write_data. cbn [OAM].
           rewrite Z.add_0_r, Z.mod_small by lia.
           apply mem_get_set_eq. lia.
        -- lia_mod.
        -- intros j Hjlt. rewrite Haddr1. lia_mod.
      * cbn in Hj. rewrite <- (Hfill j b' Hj). f_equal.
        rewrite Haddr1. lia_mod.
    + intros a Ha Hfree. rewrite Hrest.
      * unfold p1, OAM_port_write_data. cbn [OAM].
        apply mem_get_set_ne.
        specialize (Hfree 0%nat ltac:(cbn [length]; lia)).
        rewrite Z.add_0_r, Z.mod_small in Hfree by lia. lia.
      * exact Ha.
      * intros j Hjlt. specialize (Hfree (S j) ltac:(cbn [length]; lia)).
        rewrite Haddr1. intros ->. apply Hfree. lia_mod.
Qed.

Lemma oam_dma_fills_OAM {APU ROM Ctl : Type} `{!IAPU APU, !IROM ROM, !IController Ctl}
    (value : Z) (m : Machine OAM_port APU ROM Ctl) :
  is_u8 value ->
  length (OAM (ppu (dev m))) = 0x100%nat -> is_u8 (OAMADDR (ppu (dev m))) ->
  OAMADDR (ppu (dev (write value 0x4014 m))) = OAMADDR (ppu (dev m)) /\
  forall i : Z, 0 <= i < 0x100 ->
    mem_get (OAM (ppu (dev (write value 0x4014 m))))
            ((OAMADDR (ppu (dev m)) + i) mod 0x100) =
    mem_get (memory (cpu m)) (Z.land value 7 * 0x100 + i).
Proof.
  intros Hv Hoam Haddr.
  assert (Hw : write value 0x4014 m =
               with_ppu (OAM_writes (dma_source value m) (ppu (dev m))) m).
  { rewrite write_0x4014, (u8_id value) by exact Hv.
    rewrite (dma_loop value 256 0 m) by lia. reflexivity. }
  rewrite Hw. cbn [dev with_ppu with_dev ppu].
  assert (Hlen : length (dma_source value m) = 0x100%nat)
    by (unfold dma_source; rewrite length_fmap, length_seqZ; reflexivity).
  destruct (OAM_port_writes (dma_source value m) (ppu (dev m))
              ltac:(rewrite Hlen; lia) Hoam Haddr) as (Hend & _ & Hfill & _).
  split.
  - rewrite Hend, Hlen. unfold is_u8 in Haddr. lia_mod.
  - intros i Hi.
    replace i with (Z.of_nat (Z.to_nat i)) at 1 by lia.
    apply Hfill. unfold dma_source.
    rewrite list_lookup_fmap, lookup_seqZ_lt by lia. cbn.
    do 2 f_equal. lia.
Qed.

(** C1, as the specification states it, fails on a page outside work
    RAM: a write of [0x80] to [$4014] copies RAM page 0, not the page at
    [$8000], and leaves [result_cycle] as it was. *)
Lemma oam_dma_rom_page_counterexample :
  fst (read 0x8000 dma_console) = 0x5a /\
  mem_get (OAM (ppu (dev (write 0x80 0x4014 dma_console)))) 0 = 0x11 /\
  result_cycle (cpu (write 0x80 0x4014 dma_console)) = result_cycle (cpu dma_console) /\
  ~ spec_oam_dma 0x80 dma_console (write 0x80 0x4014 dma_console).
Proof.
  split; [reflexivity|]. split; [vm_compute; reflexivity|].
  split; [vm_compute; reflexivity|].
  intros [Hppu _].
  apply (f_equal (fun p => mem_get (OAM p) 0)) in Hppu.
  vm_compute in Hppu. discriminate Hppu.
Qed.

Lemma oam_dma_copies_ram_page_witness :
  is_u8 0x80 /\
  write 0x80 0x4014 dma_console =
    with_ppu (OAM_writes (dma_source 0x80 dma_console) (ppu (dev dma_console)))
             dma_console.
Proof.
  assert (Hv : is_u8 0x80) by (unfold is_u8; lia).
  split; [exact Hv|].
  exact (proj1 (proj2 (oam_dma_copies_ram_page 0x80 dma_console Hv))).
Defined.

(** ** The controller port *)

Section Strobe.

Context {PPU APU ROM Ctl : Type}.
Context `{!IPPU PPU, !IPPU_data PPU ROM, !IAPU APU, !IROM ROM, !IController Ctl}.

Local Abbreviation Mach := (Machine PPU APU ROM Ctl).

Lemma land_1_cases (v : Z) : Z.land v 1 = 0 \/ Z.land v 1 = 1.
Proof. rewrite land_1. lia_mod. Qed.

(** [CPU::write] at [$4016]: [controller[value & 1]->strobe()]. *)
Lemma write_0x4016 (v : Z) (m : Mach) :
  is_u8 v ->
  write v 0x4016 m =
  with_controller (Z.land v 1) (strobe (controller (Z.land v 1) m)) m.
Proof. intros Hv. unfold write. rewrite (u8_id v) by exact Hv. reflexivity. Qed.

Lemma read_0x4016 (m : Mach) :
  read 0x4016 m =
  (u8 (fst (IController_read (controller 0 m))),
   with_controller 0 (snd (IController_read (controller 0 m))) m).
Proof.
  unfold read. cbn. destruct (IController_read (controller0 (dev m))). reflexivity.
Qed.

Lemma read_0x4017 (m : Mach) :
  read 0x4017 m =
  (u8 (fst (IController_read (controller 1 m))),
   with_controller 1 (snd (IController_read (controller 1 m))) m).
Proof.
  unfold read. cbn. destruct (IController_read (controller1 (dev m))). reflexivity.
Qed.

Lemma read_controller_port (i : Z) (m : Mach) :
  i = 0 \/ i = 1 ->
  read (0x4016 + i) m =
  (u8 (fst (IController_read (controller i m))),
   with_controller i (snd (IController_read (controller i m))) m).
Proof. intros [-> | ->]; [apply read_0x4016 | apply read_0x4017]. Qed.

Lemma controller_with_controller (i : Z) (c : Ctl) (m : Mach) :
  controller i (with_controller i c m) = c.
Proof. unfold controller, with_controller. destruct (i =? 0); reflexivity. Qed.

Lemma controller_with_other (i j : Z) (c : Ctl) (m : Mach) :
  (i =? 0) <> (j =? 0) -> controller j (with_controller i c m) = controller j m.
Proof.
  unfold controller, with_controller.
  destruct (i =? 0), (j =? 0); intros Hne; try reflexivity; congruence.
Qed.

(** What the reads of a controller port return depends on that
    controller alone. *)
Lemma reads_of_port (i : Z) (n : nat) :
  i = 0 \/ i = 1 ->
  forall m m' : Mach,
    controller i m = controller i m' ->
    fst (reads n (0x4016 + i) m) = fst (reads n (0x4016 + i) m').
Proof.
  intros Hi. induction n as [|n IH]; intros m m' Hc; [reflexivity|].
  cbn [reads]. rewrite !read_controller_port by exact Hi. rewrite Hc.
  specialize (IH (with_controller i (snd (IController_read (controller i m'))) m)
                 (with_controller i (snd (IController_read (controller i m'))) m')).
  rewrite !controller_with_controller in IH. specialize (IH eq_refl).
  destruct (reads n _ (with_controller i _ m)) as [bs m2].
  destruct (reads n _ (with_controller i _ m')) as [bs' m2'].
  cbn [fst] in *. rewrite IH. reflexivity.
Qed.

(** A write to [$4016] with bit 0 clear does not reach controller 1:
    it commutes with whatever is done to that controller. *)
Lemma strobe_off_misses_controller1 (f : Ctl -> Ctl) (m : Mach) :
  with_controller 1 (f (controller 1 (write 0 0x4016 m))) (write 0 0x4016 m) =
  write 0 0x4016 (with_controller 1 (f (controller 1 m)) m).
Proof. destruct m as [c []]. reflexivity. Qed.

(** The round trips that the specification tells apart reach controller
    1 as the same calls in the same order, whatever the controller is:
    the clearing write is not among them. *)
Lemma strobe_cannot_latch_controller1 (m : Mach) : ~ spec_strobe_latches 1 m.
Proof.
  unfold spec_strobe_latches, release. cbv zeta. intros [Hheld Hfree].
  rewrite strobe_off_misses_controller1 in Hheld.
  rewrite Hheld in Hfree. discriminate Hfree.
Qed.

(** C4, as the code has it: a write of [v] to [$4016] calls [strobe()]
    once on the one controller that bit 0 of [v] selects,
    [controller[v & 1]], and changes nothing else: the bit chooses the
    controller, it is not a strobe level, and the controller is not
    told the value.  A read of [$4016] is one [read()] of controller 0
    and a read of [$4017] one [read()] of controller 1, whose result is
    returned.  The write does not reach the controller that the bit
    does not select: any number of reads of that controller's port
    return the same with the write as without it. *)
Theorem strobe_write_selects_controller (v : Z) (m : Mach) :
  is_u8 v ->
  write v 0x4016 m =
    with_controller (Z.land v 1) (strobe (controller (Z.land v 1) m)) m /\
  controller (1 - Z.land v 1) (write v 0x4016 m) = controller (1 - Z.land v 1) m /\
  cpu (write v 0x4016 m) = cpu m /\
  ppu (dev (write v 0x4016 m)) = ppu (dev m) /\
  apu (dev (write v 0x4016 m)) = apu (dev m) /\
  rom (dev (write v 0x4016 m)) = rom (dev m) /\
  (forall port, port = 0 \/ port = 1 ->
     read (0x4016 + port) m =
     (u8 (fst (IController_read (controller port m))),
      with_controller port (snd (IController_read (controller port m))) m)) /\
  (forall n,
     fst (reads n (0x4016 + (1 - Z.land v 1)) (write v 0x4016 m)) =
     fst (reads n (0x4016 + (1 - Z.land v 1)) m)).
Proof.
  intros Hv. rewrite write_0x4016 by exact Hv.
  pose proof (land_1_cases v) as Hi.
  assert (Hother : controller (1 - Z.land v 1)
                     (with_controller (Z.land v 1) (strobe (controller (Z.land v 1) m)) m) =
                   controller (1 - Z.land v 1) m).
  { apply controller_with_other. destruct Hi as [-> | ->]; cbn; discriminate. }
  split; [reflexivity|]. split; [exact Hother|].
  split; [unfold with_controller; destruct (_ =? 0); reflexivity|].
  split; [unfold with_controller; destruct (_ =? 0); reflexivity|].
  split; [unfold with_controller; destruct (_ =? 0); reflexivity|].
  split; [unfold with_controller; destruct (_ =? 0); reflexivity|].
  split; [intros port Hp; apply read_controller_port; exact Hp|].
  intros n. apply reads_of_port; [|exact Hother].
  destruct Hi as [-> | ->]; [right | left]; reflexivity.
Qed.

End Strobe.

(** C4, as the specification states it, fails for the second
    controller.  On the console whose controllers record their calls,
    the round trip strobe on, A pressed, strobe off reaches controller
    1 as one [strobe()], made by the write of 1 before the button was
    pressed, and the press; the write of 0 calls [strobe()] on
    controller 0.  So the round trip with A released after the clearing
    write and the one with A released before it are the same calls to
    controller 1, and their reads of [$4017] cannot differ: on this
    console, and with any controllers on any console. *)
Lemma strobe_latch_counterexample :
  controller1 (dev (write 0 0x4016 (press 1 (write 1 0x4016 (console cpu_reset []))
                                      CONTROL_A))) =
    [pad_strobe; pad_set_button_state CONTROL_A BUTTON_ON] /\
  controller0 (dev (write 0 0x4016 (press 1 (write 1 0x4016 (console cpu_reset []))
                                      CONTROL_A))) =
    [pad_strobe] /\
  release 1 (write 0 0x4016 (press 1 (write 1 0x4016 (console cpu_reset [])) CONTROL_A))
          CONTROL_A =
  write 0 0x4016 (release 1 (press 1 (write 1 0x4016 (console cpu_reset [])) CONTROL_A)
                            CONTROL_A) /\
  ~ spec_strobe_latches 1 (console cpu_reset []) /\
  (forall (PPU APU ROM Ctl : Type)
          (the_ppu : IPPU PPU) (the_ppu_data : IPPU_data PPU ROM) (the_apu : IAPU APU)
          (the_rom : IROM ROM) (the_controller : IController Ctl)
          (m : Machine PPU APU ROM Ctl),
     ~ spec_strobe_latches 1 m).
Proof.
  split; [reflexivity|]. split; [reflexivity|]. split; [reflexivity|].
  split; [apply strobe_cannot_latch_controller1|].
  intros PPU APU ROM Ctl the_ppu the_ppu_data the_apu the_rom the_controller m.
  apply strobe_cannot_latch_controller1.
Qed.

Lemma strobe_write_selects_controller_witness :
  is_u8 1 /\
  controller1 (dev (write 1 0x4016 (console cpu_reset []))) = [pad_strobe] /\
  controller0 (dev (write 1 0x4016 (console cpu_reset []))) = [] /\
  fst (reads 8 0x4016 (write 1 0x4016 (console cpu_reset []))) =
  fst (reads 8 0x4016 (console cpu_reset [])).
Proof.
  assert (Hv : is_u8 1) by (unfold is_u8; lia).
  split; [exact Hv|].
  destruct (strobe_write_selects_controller 1 (console cpu_reset []) Hv)
    as (Hw & Hother & _ & _ & _ & _ & _ & Hreads).
  split; [rewrite Hw; reflexivity|]. split; [exact Hother | exact (Hreads 8%nat)].
Defined.

(** ** Scenarios of the specification on the concrete console *)

Example LDA_immediate_scenario :
  let r := iteration (the_bus := quiet_bus) (the_cpu_h := console_cpu_h)
             (mkSystem (console cpu_reset prg_vectors) false) in
  A (cpu (machine (fst (fst r)))) = 0x42 /\
  Z.land (P (cpu (machine (fst (fst r))))) (N_FLAG + Z_FLAG) = 0 /\
  count_ticks (snd (fst r)) = 2.
Proof. vm_compute. repeat split; reflexivity. Qed.

Example BEQ_page_cross_scenario :
  let r := iteration (the_bus := quiet_bus) (the_cpu_h := console_cpu_h) branch_scenario in
  PC (cpu (machine (fst (fst r)))) = 0x817f /\
  count_ticks (snd (fst r)) = 4.
Proof. vm_compute. repeat split; reflexivity. Qed.

(** ** The interpreter loop *)

Section ReadFrame.

Context {PPU APU ROM Ctl : Type}.
Context `{!IPPU PPU, !IPPU_data PPU ROM, !IAPU APU, !IROM ROM, !IController Ctl}.

Local Abbreviation Mach := (Machine PPU APU ROM Ctl).

(** [CPU::read] is [const]: it leaves the CPU object as it is. *)
Lemma read_cpu (addr : Z) (m : Mach) : cpu (snd (read addr m)) = cpu m.
Proof.
  unfold read, with_controller.
  repeat match goal with
         | |- context [if ?b then _ else _] => destruct b
         | |- context [let '(_, _) := ?x in _] => destruct x
         | |- context [match ?x with _ => _ end] => destruct x
         end; reflexivity.
Qed.

Lemma next_cpu (m : Mach) :
  cpu (snd (next m)) = with_PC (u16 (PC (cpu m) + 1)) (cpu m).
Proof. unfold next. rewrite read_cpu. reflexivity. Qed.

Lemma read_vector_cpu (a : Z) (m : Mach) : cpu (snd (read_vector a m)) = cpu m.
Proof.
  unfold read_vector.
  destruct (read a m) as [lo m1] eqn:H1.
  destruct (read (a + 1) m1) as [hi m2] eqn:H2. cbn [snd].
  pose proof (read_cpu (a + 1) m1) as E2. rewrite H2 in E2.
  pose proof (read_cpu a m) as E1. rewrite H1 in E1.
  cbn [snd] in *. congruence.
Qed.

(** What [read] returns and does to the devices does not depend on the
    CPU registers outside work RAM. *)
Lemma read_vector_with_cpu (a : Z) (c : CPU) (m : Mach) :
  0x2000 <= a -> a + 1 < 0x10000 ->
  read_vector a (with_cpu c m) =
  (fst (read_vector a m), with_cpu c (snd (read_vector a m))).
Proof.
  intros Hlo Hhi.
  assert (Hread : forall b m', 0x2000 <= b < 0x10000 ->
            read b (with_cpu c m') = (fst (read b m'), with_cpu c (snd (read b m')))).
  { intros b m' Hb.
    unfold read, controller, with_controller, with_ppu, with_rom, with_dev, with_cpu.
    rewrite u16_id by (unfold is_u16; lia).
    destruct (Z.ltb_spec b 0x2000) as [Hlt|_]; [lia|].
    cbn [dev cpu].
    repeat match goal with
           | |- context [if ?b then _ else _] => destruct b
           | |- context [let '(_, _) := ?x in _] => destruct x
           | |- context [match ?x with _ => _ end] => destruct x
           end; reflexivity. }
  unfold read_vector.
  rewrite Hread by lia.
  destruct (read a m) as [lo m1]. cbn [fst snd].
  rewrite Hread by lia.
  destruct (read (a + 1) m1) as [hi m2]. reflexivity.
Qed.

End ReadFrame.

Lemma count_ticks_app (t1 t2 : list Event) :
  count_ticks (t1 ++ t2) = count_ticks t1 + count_ticks t2.
Proof.
  induction t1 as [|e t1 IH]; [reflexivity|].
  destruct e; cbn [app count_ticks]; rewrite IH; lia.
Qed.

Lemma count_ticks_calls (calls : list ICPU_call) : count_ticks (map EvCall calls) = 0.
Proof. induction calls as [|c calls IH]; [reflexivity | exact IH]. Qed.

Lemma nmi_latch_after_app (latch : bool) (t1 t2 : list Event) :
  nmi_latch_after latch (t1 ++ t2) =
  match nmi_latch_after latch t1 with
  | Some latch' => nmi_latch_after latch' t2
  | None => None
  end.
Proof.
  revert latch. induction t1 as [|e t1 IH]; intros latch; [reflexivity|].
  destruct e as [op| |[]| |]; cbn [app nmi_latch_after]; try apply IH.
  destruct latch; [apply IH | reflexivity].
Qed.

(** With no pulse latched and no [pull_NMI] in the trace, no NMI is
    serviced and the latch stays clear. *)
Lemma nmi_latch_quiet (t : list Event) (latch : bool) :
  nmi_latch_after false t = Some latch ->
  (EvCall call_pull_NMI ∉ t) ->
  (EvNMI ∉ t) /\ latch = false.
Proof.
  induction t as [|e t IH]; intros Hrun Hquiet.
  - cbn in Hrun. split; [apply not_elem_of_nil | congruence].
  - assert (Hquiet' : EvCall call_pull_NMI ∉ t)
      by (intros Hin; apply Hquiet; right; exact Hin).
    destruct e as [op| |c| |]; cbn [nmi_latch_after] in Hrun;
      try (destruct (IH Hrun Hquiet') as [Hno ->]; split; [|reflexivity];
           intros Hin; apply elem_of_cons in Hin as [Heq|Hin];
           [discriminate Heq | exact (Hno Hin)]).
    + destruct c;
        try (destruct (IH Hrun Hquiet') as [Hno ->]; split; [|reflexivity];
             intros Hin; apply elem_of_cons in Hin as [Heq|Hin];
             [discriminate Heq | exact (Hno Hin)]).
      exfalso. apply Hquiet. left.
    + discriminate Hrun.
Qed.

Lemma base_cycles_range (op : Z) : 0 <= base_cycles op <= 8.
Proof.
  assert (Hall : Forall (fun x => 0 <= x <= 8) cycles)
    by (apply (bool_decide_unpack _); vm_compute; exact I).
  unfold base_cycles, mem_get.
  destruct (cycles !! Z.to_nat op) as [x|] eqn:Hx; cbn; [|lia].
  exact (proj1 (Forall_lookup _ _) Hall _ _ Hx).
Qed.

(** The cycle chart has 256 entries; the ones that are 0 are the twelve
    opcodes that jam the processor. *)
Lemma cycles_table_shape :
  length cycles = 256%nat /\
  filter (fun op => base_cycles op = 0) (seqZ 0 256) =
    [0x02; 0x12; 0x22; 0x32; 0x42; 0x52; 0x62; 0x72; 0x92; 0xb2; 0xd2; 0xf2].
Proof. split; vm_compute; reflexivity. Qed.

Section RunProperties.

Context {PPU APU ROM Ctl : Type}.
Context `{!IPPU PPU, !IPPU_data PPU ROM, !IAPU APU, !IROM ROM, !IController Ctl}.
Context {the_bus : IBus (Devices PPU APU ROM Ctl)}.
Context {the_cpu_h : cpu_h (Machine PPU APU ROM Ctl)}.

Local Abbreviation Mach := (Machine PPU APU ROM Ctl).
Local Abbreviation Sys := (System PPU APU ROM Ctl).

Lemma fetch_cpu (m : Mach) :
  cpu (snd (fetch m)) =
  with_last_op (fst (fetch m))
    (with_PC (u16 (PC (cpu m) + 1)) (with_last_PC (PC (cpu m)) (cpu m))).
Proof.
  unfold fetch.
  pose proof (next_cpu (with_cpu (with_last_PC (PC (cpu m)) (cpu m)) m)) as Hn.
  destruct (next _) as [op m1]. cbn [fst snd cpu with_cpu] in *.
  rewrite Hn. reflexivity.
Qed.

(** *** Ticks *)

Lemma deliver_cpu_private (calls : list ICPU_call) :
  forall s : Sys,
    last_op (cpu (machine (fold_left deliver calls s))) = last_op (cpu (machine s)) /\
    result_cycle (cpu (machine (fold_left deliver calls s))) =
      result_cycle (cpu (machine s)).
Proof.
  induction calls as [|c calls IH]; intros s; [split; reflexivity|].
  cbn [fold_left]. destruct (IH (deliver s c)) as [-> ->].
  destruct c; split; reflexivity.
Qed.

Lemma deliver_latch (calls : list ICPU_call) :
  forall s : Sys,
    nmi_latch_after (do_NMI s) (map EvCall calls) =
    Some (do_NMI (fold_left deliver calls s)).
Proof.
  induction calls as [|c calls IH]; intros s; [reflexivity|].
  cbn [map fold_left nmi_latch_after].
  destruct c.
  - exact (IH (deliver s call_pull_NMI)).
  - exact (IH (deliver s call_pull_IRQ)).
  - exact (IH (deliver s call_release_IRQ)).
  - exact (IH (deliver s call_stop)).
Qed.

Lemma tick_count (s : Sys) : count_ticks (snd (tick s)) = 1.
Proof.
  unfold tick. destruct (on_cpu_tick _) as [d calls]. cbn [snd count_ticks].
  rewrite count_ticks_calls. reflexivity.
Qed.

Lemma tick_latch (s : Sys) :
  nmi_latch_after (do_NMI s) (snd (tick s)) = Some (do_NMI (fst (tick s))).
Proof.
  unfold tick. destruct (on_cpu_tick _) as [d calls]. cbn [fst snd nmi_latch_after].
  exact (deliver_latch calls (with_machine (with_dev d (machine s)) s)).
Qed.

Lemma ticks_count (n : nat) :
  forall s : Sys, count_ticks (snd (ticks n s)) = Z.of_nat n.
Proof.
  induction n as [|n IH]; intros s; [reflexivity|].
  cbn [ticks]. pose proof (tick_count s) as H1.
  destruct (tick s) as [s1 t1]. specialize (IH s1).
  destruct (ticks n s1) as [s2 t2]. cbn [snd] in *.
  rewrite count_ticks_app. lia.
Qed.

Lemma ticks_latch (n : nat) :
  forall s : Sys,
    nmi_latch_after (do_NMI s) (snd (ticks n s)) = Some (do_NMI (fst (ticks n s))).
Proof.
  induction n as [|n IH]; intros s; [reflexivity|].
  cbn [ticks]. pose proof (tick_latch s) as H1.
  destruct (tick s) as [s1 t1]. specialize (IH s1).
  destruct (ticks n s1) as [s2 t2]. cbn [fst snd] in *.
  rewrite nmi_latch_after_app, H1. exact IH.
Qed.

(** *** The interrupt tests *)

Lemma service_IRQ (s : Sys) :
  IRQ (cpu (machine s)) = true -> Z.land (P (cpu (machine s))) I_FLAG = 0 ->
  service_interrupts s =
  (let c := cpu (machine s) in
   let pushed := stack_push_ProcStatus (push2 (PC c) c) in
   let c1 := with_P (u8 (Z.lor (P c) I_FLAG)) pushed in
   let r := read_vector 0xfffe (machine s) in
   (mkSystem (mkMachine (with_PC (fst r) c1) (dev (snd r))) (do_NMI s), [EvIRQ])).
Proof.
  intros Hirq Hi. unfold service_interrupts.
  rewrite Hirq, Hi. cbn [andb Z.eqb].
  rewrite read_vector_with_cpu by lia.
  destruct (read_vector 0xfffe (machine s)) as [pc m1]. reflexivity.
Qed.

Lemma service_NMI (s : Sys) :
  IRQ (cpu (machine s)) = false \/ Z.land (P (cpu (machine s))) I_FLAG <> 0 ->
  do_NMI s = true ->
  service_interrupts s =
  (let c := cpu (machine s) in
   let pushed := stack_push_ProcStatus (push2 (PC c) c) in
   let r := read_vector 0xfffa (machine s) in
   (mkSystem (mkMachine (with_PC (fst r) pushed) (dev (snd r))) false, [EvNMI])).
Proof.
  intros Hno Hnmi. unfold service_interrupts.
  assert (Htest : IRQ (cpu (machine s)) && (Z.land (P (cpu (machine s))) I_FLAG =? 0)
                  = false).
  { destruct Hno as [-> | Hne]; [reflexivity|].
    apply andb_false_intro2. apply Z.eqb_neq. exact Hne. }
  rewrite Htest, Hnmi.
  rewrite read_vector_with_cpu by lia.
  destruct (read_vector 0xfffa (machine s)) as [pc m1]. reflexivity.
Qed.

Lemma service_none (s : Sys) :
  IRQ (cpu (machine s)) = false \/ Z.land (P (cpu (machine s))) I_FLAG <> 0 ->
  do_NMI s = false ->
  service_interrupts s = (s, []).
Proof.
  intros Hno Hnmi. unfold service_interrupts.
  assert (Htest : IRQ (cpu (machine s)) && (Z.land (P (cpu (machine s))) I_FLAG =? 0)
                  = false).
  { destruct Hno as [-> | Hne]; [reflexivity|].
    apply andb_false_intro2. apply Z.eqb_neq. exact Hne. }
  rewrite Htest, Hnmi. reflexivity.
Qed.

(** The three cases of the interrupt tests. *)
Lemma service_cases (s : Sys) :
  (IRQ (cpu (machine s)) = true /\ Z.land (P (cpu (machine s))) I_FLAG = 0) \/
  ((IRQ (cpu (machine s)) = false \/ Z.land (P (cpu (machine s))) I_FLAG <> 0) /\
   do_NMI s = true) \/
  ((IRQ (cpu (machine s)) = false \/ Z.land (P (cpu (machine s))) I_FLAG <> 0) /\
   do_NMI s = false).
Proof.
  destruct (IRQ (cpu (machine s))), (do_NMI s),
    (Z.eq_dec (Z.land (P (cpu (machine s))) I_FLAG) 0); auto.
Qed.

Lemma service_no_cycles (s : Sys) :
  count_ticks (snd (service_interrupts s)) = 0 /\
  result_cycle (cpu (machine (fst (service_interrupts s)))) =
    result_cycle (cpu (machine s)).
Proof.
  destruct (service_cases s) as [[Hirq Hi] | [[Hno Hnmi] | [Hno Hnmi]]].
  - rewrite service_IRQ by assumption. split; reflexivity.
  - rewrite service_NMI by assumption. split; reflexivity.
  - rewrite service_none by assumption. split; reflexivity.
Qed.

Lemma service_latch (s : Sys) :
  nmi_latch_after (do_NMI s) (snd (service_interrupts s)) =
  Some (do_NMI (fst (service_interrupts s))).
Proof.
  destruct (service_cases s) as [[Hirq Hi] | [[Hno Hnmi] | [Hno Hnmi]]].
  - rewrite service_IRQ by assumption. reflexivity.
  - rewrite service_NMI by assumption. cbn. rewrite Hnmi. reflexivity.
  - rewrite service_none by assumption. reflexivity.
Qed.


(** *** One turn of the loop *)

(** The ticks of a turn are the bound of its tick loop. *)
Lemma iteration_ticks (s : Sys) :
  0 <= tick_bound (cpu (execute (machine s))) ->
  count_ticks (snd (fst (iteration s))) = tick_bound (cpu (execute (machine s))) /\
  result_cycle (cpu (machine (fst (fst (iteration s))))) = 0.
Proof.
  intros Hb. unfold iteration. cbn [machine with_machine].
  pose proof (ticks_count (Z.to_nat (tick_bound (cpu (execute (machine s)))))
                (with_machine (execute (machine s)) s)) as Hn.
  destruct (ticks _ _) as [s2 t1]. cbn [snd] in Hn.
  destruct (_done _).
  - cbn [fst snd count_ticks]. split; [lia | reflexivity].
  - pose proof (service_no_cycles (on_cpu (with_result_cycle 0) s2)) as [Ht Hr].
    destruct (service_interrupts _) as [s4 t2]. cbn [fst snd] in *.
    cbn [count_ticks]. rewrite count_ticks_app. split; [lia | exact Hr].
Qed.

Lemma iteration_latch (s : Sys) :
  nmi_latch_after (do_NMI s) (snd (fst (iteration s))) =
  Some (do_NMI (fst (fst (iteration s)))).
Proof.
  unfold iteration.
  pose proof (ticks_latch (Z.to_nat (tick_bound (cpu (machine
                (with_machine (execute (machine s)) s)))))
                (with_machine (execute (machine s)) s)) as Hn.
  destruct (ticks _ _) as [s2 t1]. cbn [fst snd do_NMI with_machine] in Hn.
  destruct (_done _).
  - cbn [fst snd nmi_latch_after]. exact Hn.
  - pose proof (service_latch (on_cpu (with_result_cycle 0) s2)) as Hs.
    destruct (service_interrupts _) as [s4 t2]. cbn [fst snd] in *.
    cbn [nmi_latch_after]. rewrite nmi_latch_after_app, Hn. exact Hs.
Qed.

Lemma run_loop_latch (n : nat) :
  forall s : Sys,
    nmi_latch_after (do_NMI s) (snd (run_loop n s)) =
    Some (do_NMI (fst (run_loop n s))).
Proof.
  induction n as [|n IH]; intros s; [reflexivity|].
  cbn [run_loop]. pose proof (iteration_latch s) as H1.
  destruct (iteration s) as [[s1 t1] continue]. cbn [fst snd] in H1.
  destruct continue; [|exact H1].
  specialize (IH s1). destruct (run_loop n s1) as [s2 t2]. cbn [fst snd] in *.
  rewrite nmi_latch_after_app, H1. exact IH.
Qed.

(** C8: an NMI pulse is consumed at most once.  Along any number of
    turns of the loop every NMI that is serviced consumes a pulse
    latched by [pull_NMI] since the last service (or pending at the
    start), so no pulse is serviced twice; servicing clears the latch;
    and once the latch is clear no turn of the loop services an NMI or
    sees the latch set until [pull_NMI] is called again. *)
Theorem nmi_pulse_consumed_once (n : nat) (s : Sys) :
  nmi_latch_after (do_NMI s) (snd (run_loop n s)) =
    Some (do_NMI (fst (run_loop n s))) /\
  (EvNMI ∈ snd (service_interrupts s) ->
     do_NMI (fst (service_interrupts s)) = false) /\
  (do_NMI s = false ->
   (EvCall call_pull_NMI ∉ snd (run_loop n s)) ->
   (EvNMI ∉ snd (run_loop n s)) /\ do_NMI (fst (run_loop n s)) = false).
Proof.
  split; [apply run_loop_latch | split].
  - destruct (service_cases s) as [[Hirq Hi] | [[Hno Hnmi] | [Hno Hnmi]]].
    + rewrite service_IRQ by assumption. cbn [fst snd]. intros Hin.
      apply list_elem_of_singleton in Hin. discriminate Hin.
    + rewrite service_NMI by assumption. reflexivity.
    + rewrite service_none by assumption. cbn [fst snd]. intros Hin.
      apply elem_of_nil in Hin. destruct Hin.
  - intros Hclear Hquiet.
    pose proof (run_loop_latch n s) as Hrun. rewrite Hclear in Hrun.
    exact (nmi_latch_quiet _ _ Hrun Hquiet).
Qed.

End RunProperties.

(** ** The claims on concrete inputs *)



Lemma ram_write_then_read_witness :
  length (memory (cpu (console cpu_reset []))) = 0x800%nat /\
  read 0x1801 (write 0x42 0x0001 (console cpu_reset [])) =
    (0x42, write 0x42 0x0001 (console cpu_reset [])).
Proof.
  split; [reflexivity|].
  refine (proj2 (ram_write_then_read (console cpu_reset []) 0x0001 0x42 eq_refl _ _)
            0x1801 _ eq_refl); unfold is_u8; lia.
Defined.

Lemma bad_reads_return_zero_witness :
  read 0x4010 (console cpu_reset []) = (0, console cpu_reset []) /\
  read 0x3ff8 (console cpu_reset []) = (0, console cpu_reset []).
Proof.
  split.
  - apply bad_reads_return_zero. left. lia.
  - apply bad_reads_return_zero. right.
    repeat split; first [lia | intros Heq; vm_compute in Heq; discriminate Heq].
Defined.

Lemma stack_push_pull_witness :
  is_u8 (SP cpu_reset) /\
  fst (pull (push 0xab cpu_reset)) = 0xab /\
  fst (pull2 (push2 0x1234 (with_SP 0 cpu_reset))) = 0x1234 /\
  SP (push 0xab (with_SP 0 cpu_reset)) = 0xff.
Proof.
  assert (Hsp : is_u8 (SP cpu_reset)) by (unfold is_u8; cbn; lia).
  assert (Hsp0 : is_u8 (SP (with_SP 0 cpu_reset))) by (unfold is_u8; cbn; lia).
  assert (Hx : is_u8 0xab) by (unfold is_u8; lia).
  assert (Hw : is_u16 0x1234) by (unfold is_u16; lia).
  split; [exact Hsp|].
  pose proof (stack_push_pull cpu_reset 0xab 0x1234 eq_refl Hsp Hx Hw)
    as (_ & _ & (Hpull & _) & _).
  pose proof (stack_push_pull (with_SP 0 cpu_reset) 0xab 0x1234 eq_refl Hsp0 Hx Hw)
    as ((_ & Hdec & _) & _ & _ & (Hpull2 & _) & _).
  split; [exact Hpull|]. split; [exact Hpull2 | exact Hdec].
Defined.

Lemma nmi_pulse_consumed_once_witness :
  do_NMI idle = false /\
  (EvNMI ∉ snd (run_loop (the_bus := quiet_bus) (the_cpu_h := console_cpu_h) 2 idle)) /\
  nmi_latch_after true
    (snd (run_loop (the_bus := nmi_bus) (the_cpu_h := console_cpu_h) 2 nmi_pending))
    = Some false.
Proof.
  split; [reflexivity|]. split.
  - refine (proj1 (proj2 (proj2 (nmi_pulse_consumed_once
              (the_bus := quiet_bus) (the_cpu_h := console_cpu_h) 2 idle)) eq_refl _)).
    vm_compute. intros Hin.
    repeat (apply elem_of_cons in Hin as [Heq|Hin]; [discriminate Heq|]).
    apply elem_of_nil in Hin. exact Hin.
  - exact (proj1 (nmi_pulse_consumed_once
              (the_bus := nmi_bus) (the_cpu_h := console_cpu_h) 2 nmi_pending)).
Defined.

Lemma get_state_restore_state_witness :
  length (memory (CPU_ctor cpu_reset)) = 0x800%nat /\
  restore_state (get_state (CPU_ctor cpu_reset)) cpu_reset = CPU_ctor cpu_reset.
Proof.
  split; [reflexivity|].
  refine (eq_trans (proj1 (get_state_restore_state (CPU_ctor cpu_reset) cpu_reset
                             eq_refl _ eq_refl)) eq_refl).
  apply (bool_decide_unpack _). vm_compute. exact I.
Defined.

Lemma CPU_ctor_presets_witness :
  length (memory cpu_reset) = 0x800%nat /\
  mem_get (memory (CPU_ctor cpu_reset)) 0x01fc = 0x69.
Proof.
  split; [reflexivity|].
  exact (proj1 (proj2 (proj2 (proj2 (proj2 (CPU_ctor_presets cpu_reset eq_refl)))))).
Defined.


(** * Further properties of the bus and of the loop *)

(** ** Routing of the bus *)

Section BusRouting.

Context {PPU APU ROM Ctl : Type}.
Context `{!IPPU PPU, !IPPU_data PPU ROM, !IAPU APU, !IROM ROM, !IController Ctl}.

Local Abbreviation Mach := (Machine PPU APU ROM Ctl).

Lemma ppu_mirror_index (addr : Z) :
  Z.land (0x2000 + Z.land addr 7) 7 = Z.land addr 7.
Proof. rewrite !land_7. lia_mod. Qed.

(** The PPU register file is mirrored every 8 bytes through
    [$2000-$3FFF]: a read or a write anywhere in the range is the read or
    the write of the register at [$2000 + (addr & 7)]. *)
Theorem ppu_registers_mirrored (v addr : Z) (m : Mach) :
  0x2000 <= addr <= 0x3fff ->
  read addr m = read (0x2000 + Z.land addr 7) m /\
  write v addr m = write v (0x2000 + Z.land addr 7) m.
Proof.
  intros Ha. pose proof (land_7_range addr) as Hk.
  unfold read, write.
  rewrite (u16_id addr), (u16_id (0x2000 + Z.land addr 7)) by (unfold is_u16; lia).
  destruct (Z.ltb_spec addr 0x2000) as [Hlt|_]; [lia|].
  destruct (Z.ltb_spec addr 0x4000) as [_|Hge]; [|lia].
  destruct (Z.ltb_spec (0x2000 + Z.land addr 7) 0x2000) as [Hlt|_]; [lia|].
  destruct (Z.ltb_spec (0x2000 + Z.land addr 7) 0x4000) as [_|Hge]; [|lia].
  rewrite ppu_mirror_index. split; reflexivity.
Qed.

Lemma write_cpu_high (v addr : Z) (m : Mach) :
  0x2000 <= u16 addr -> cpu (write v addr m) = cpu m.
Proof.
  intros Ha. unfold write.
  destruct (Z.ltb_spec (u16 addr) 0x2000) as [Hlt|_]; [lia|].
  repeat match goal with
         | |- context [if ?b then _ else _] => destruct b
         | |- context [match ?x with _ => _ end] => destruct x
         end;
    first [ reflexivity
          | rewrite dma_loop by lia; reflexivity
          | unfold with_controller; destruct (_ =? 0); reflexivity ].
Qed.


(** A write to work RAM changes the one cell [addr & 0x7ff]: every
    address of [$0000-$1FFF] that is not a mirror of [addr] reads as
    before. *)
Theorem ram_write_other_cells (v addr addr' : Z) (m : Mach) :
  0 <= addr < 0x2000 -> 0 <= addr' < 0x2000 ->
  addr' mod 0x800 <> addr mod 0x800 ->
  fst (read addr' (write v addr m)) = fst (read addr' m) /\
  dev (write v addr m) = dev m.
Proof.
  intros Ha Ha' Hne.
  rewrite !read_ram by assumption. rewrite write_ram by exact Ha.
  cbn [fst cpu with_cpu memory with_memory dev].
  split; [|reflexivity].
  apply mem_get_set_ne. lia_mod.
Qed.

(** Writes above work RAM reach one device each, and none of them
    changes the CPU object.  In [$2000-$3FFF] the APU and the
    controllers are never touched, a write to a mirror of [$2007] is
    one [regw_data] on the PPU and the cartridge, and a write to a
    mirror of [$2002] changes nothing at all; in [$4000-$401F] the
    cartridge is left alone; from [$4020] on the write is one
    [write_prg] on the cartridge. *)
Theorem write_routes (v addr : Z) (m : Mach) :
  0x2000 <= addr <= 0xffff ->
  cpu (write v addr m) = cpu m /\
  (addr <= 0x3fff ->
     apu (dev (write v addr m)) = apu (dev m) /\
     controller0 (dev (write v addr m)) = controller0 (dev m) /\
     controller1 (dev (write v addr m)) = controller1 (dev m) /\
     (Z.land addr 7 = 7 ->
        write v addr m =
        with_rom (snd (regw_data (u8 v) (ppu (dev m)) (rom (dev m))))
          (with_ppu (fst (regw_data (u8 v) (ppu (dev m)) (rom (dev m)))) m)) /\
     (Z.land addr 7 = 2 -> write v addr m = m)) /\
  (0x4000 <= addr <= 0x401f -> rom (dev (write v addr m)) = rom (dev m)) /\
  (0x4020 <= addr ->
     write v addr m = with_rom (write_prg (u8 v) addr (rom (dev m))) m).
Proof.
  intros Ha.
  assert (Hu : u16 addr = addr) by (apply u16_id; unfold is_u16; lia).
  split; [apply write_cpu_high; lia|].
  unfold write. rewrite Hu.
  destruct (Z.ltb_spec addr 0x2000) as [Hlt|_]; [lia|].
  split; [|split].
  - intros Hppu.
    destruct (Z.ltb_spec addr 0x4000) as [_|Hge]; [|lia].
    destruct (regw_data (u8 v) (ppu (dev m)) (rom (dev m))) as [p r].
    cbn [fst snd].
    repeat split;
      repeat match goal with
             | |- context [match ?x with _ => _ end] => destruct x
             | |- _ -> _ => intros ?
             end; first [reflexivity | discriminate | (destruct m as [c []]; reflexivity)].
  - intros Hio.
    destruct (Z.ltb_spec addr 0x4000) as [Hlt|_]; [lia|].
    destruct (Z.ltb_spec addr 0x4020) as [_|Hge]; [|lia].
    repeat match goal with
           | |- context [match ?x with _ => _ end] => destruct x
           end;
      first [ reflexivity
            | rewrite dma_loop by lia; reflexivity
            | unfold with_controller; destruct (_ =? 0); reflexivity ].
  - intros Hrom.
    destruct (Z.ltb_spec addr 0x4000) as [Hlt|_]; [lia|].
    destruct (Z.ltb_spec addr 0x4020) as [Hlt|_]; [lia|].
    reflexivity.
Qed.

End BusRouting.

Section BusRoutingReads.

Context {PPU APU ROM Ctl : Type}.
Context `{!IPPU PPU, !IPPU_data PPU ROM, !IAPU APU, !IROM ROM, !IController Ctl}.

Local Abbreviation Mach := (Machine PPU APU ROM Ctl).

Lemma land_0x1f_io (addr : Z) :
  0x4000 <= addr <= 0x401f -> Z.land addr 0x1f = addr - 0x4000.
Proof. intros Ha. rewrite land_0x1f. lia_mod. Qed.

(** The I/O page of [CPU::read] in terms of the register index. *)
Lemma read_io (k : Z) (m : Mach) :
  0 <= k < 0x20 ->
  read (0x4000 + k) m =
  match k with
  | 0x15 => (u8 (fst (IAPU_read (apu (dev m)))),
             with_apu (snd (IAPU_read (apu (dev m)))) m)
  | 0x16 => (u8 (fst (IController_read (controller 0 m))),
             with_controller 0 (snd (IController_read (controller 0 m))) m)
  | 0x17 => (u8 (fst (IController_read (controller 1 m))),
             with_controller 1 (snd (IController_read (controller 1 m))) m)
  | _ => (0, m)
  end.
Proof.
  intros Hk. unfold read.
  rewrite u16_id by (unfold is_u16; lia).
  destruct (Z.ltb_spec (0x4000 + k) 0x2000) as [Hlt|_]; [lia|].
  destruct (Z.ltb_spec (0x4000 + k) 0x4000) as [Hlt|_]; [lia|].
  destruct (Z.ltb_spec (0x4000 + k) 0x4020) as [_|Hge]; [|lia].
  rewrite land_0x1f_io by lia. replace (0x4000 + k - 0x4000) with k by lia.
  small_cases k; try reflexivity.
  - destruct (IController_read (controller 1 m)); reflexivity.
  - destruct (IAPU_read (apu (dev m))); reflexivity.
  - destruct (IController_read (controller 0 m)); reflexivity.
Qed.

(** Reads reach one device each, and never the CPU object.  A read of
    work RAM changes nothing.  A read in [$2000-$3FFF] never touches the
    APU or the controllers, and a read of a mirror of [$2007] is one
    [regr_data] on the PPU and the cartridge.  In [$4000-$401F] the PPU
    and the cartridge are left alone, only a read of [$4015] can change
    the APU (it is one [read()] of the APU, which may have side
    effects), only a read of [$4016] controller 0 and only a read of
    [$4017] controller 1.  From [$4020] on only the cartridge can
    change. *)
Theorem read_routes (addr : Z) (m : Mach) :
  0 <= addr <= 0xffff ->
  cpu (snd (read addr m)) = cpu m /\
  (addr < 0x2000 -> snd (read addr m) = m) /\
  (0x2000 <= addr <= 0x3fff ->
     apu (dev (snd (read addr m))) = apu (dev m) /\
     controller0 (dev (snd (read addr m))) = controller0 (dev m) /\
     controller1 (dev (snd (read addr m))) = controller1 (dev m) /\
     (Z.land addr 7 = 7 ->
        read addr m =
        (u8 (fst (regr_data (ppu (dev m)) (rom (dev m)))),
         with_rom (snd (snd (regr_data (ppu (dev m)) (rom (dev m)))))
           (with_ppu (fst (snd (regr_data (ppu (dev m)) (rom (dev m))))) m)))) /\
  (0x4000 <= addr <= 0x401f ->
     ppu (dev (snd (read addr m))) = ppu (dev m) /\
     rom (dev (snd (read addr m))) = rom (dev m) /\
     (addr = 0x4015 ->
        read addr m =
        (u8 (fst (IAPU_read (apu (dev m)))), with_apu (snd (IAPU_read (apu (dev m)))) m)) /\
     (addr <> 0x4015 -> apu (dev (snd (read addr m))) = apu (dev m)) /\
     (addr <> 0x4016 -> controller0 (dev (snd (read addr m))) = controller0 (dev m)) /\
     (addr <> 0x4017 -> controller1 (dev (snd (read addr m))) = controller1 (dev m))) /\
  (0x4020 <= addr ->
     ppu (dev (snd (read addr m))) = ppu (dev m) /\
     apu (dev (snd (read addr m))) = apu (dev m) /\
     controller0 (dev (snd (read addr m))) = controller0 (dev m) /\
     controller1 (dev (snd (read addr m))) = controller1 (dev m)).
Proof.
  intros Ha. split; [apply read_cpu|].
  split; [|split; [|split]].
  - intros Hram. rewrite read_ram by lia. reflexivity.
  - intros Hppu. unfold read.
    rewrite u16_id by (unfold is_u16; lia).
    destruct (Z.ltb_spec addr 0x2000) as [Hlt|_]; [lia|].
    destruct (Z.ltb_spec addr 0x4000) as [_|Hge]; [|lia].
    destruct (regr_data (ppu (dev m)) (rom (dev m))) as [b [p r]].
    destruct (regr_status (ppu (dev m))) as [b2 p2].
    destruct (regr_OAM_data (ppu (dev m))) as [b4 p4].
    cbn [fst snd].
    repeat split;
      repeat match goal with
             | |- context [match ?x with _ => _ end] => destruct x
             | |- _ -> _ => intros ?
             end; first [reflexivity | discriminate].
  - intros Hio.
    assert (Hgen : forall k, 0 <= k < 0x20 ->
              ppu (dev (snd (read (0x4000 + k) m))) = ppu (dev m) /\
              rom (dev (snd (read (0x4000 + k) m))) = rom (dev m) /\
              (k = 0x15 ->
                 read (0x4000 + k) m =
                 (u8 (fst (IAPU_read (apu (dev m)))),
                  with_apu (snd (IAPU_read (apu (dev m)))) m)) /\
              (k <> 0x15 -> apu (dev (snd (read (0x4000 + k) m))) = apu (dev m)) /\
              (k <> 0x16 ->
               controller0 (dev (snd (read (0x4000 + k) m))) = controller0 (dev m)) /\
              (k <> 0x17 ->
               controller1 (dev (snd (read (0x4000 + k) m))) = controller1 (dev m))).
    { intros k Hk. rewrite read_io by exact Hk.
      small_cases k; cbn [snd]; repeat split; try reflexivity;
        intros Hne; first [reflexivity | discriminate Hne | exfalso; apply Hne; reflexivity]. }
    specialize (Hgen (addr - 0x4000) ltac:(lia)).
    replace (0x4000 + (addr - 0x4000)) with addr in Hgen by lia.
    destruct Hgen as (Hp & Hr & H15 & Hap & H16 & H17).
    repeat split; try assumption.
    + intros Heq. apply H15. lia.
    + intros Hne. apply Hap. lia.
    + intros Hne. apply H16. lia.
    + intros Hne. apply H17. lia.
  - intros Hrom. unfold read.
    rewrite u16_id by (unfold is_u16; lia).
    destruct (Z.ltb_spec addr 0x2000) as [Hlt|_]; [lia|].
    destruct (Z.ltb_spec addr 0x4000) as [Hlt|_]; [lia|].
    destruct (Z.ltb_spec addr 0x4020) as [Hlt|_]; [lia|].
    destruct (read_prg addr (rom (dev m))). repeat split; reflexivity.
Qed.

(** Every write in [$4000-$401F] other than [$4014] and [$4016] goes to
    the APU with the register index [addr - $4000]; this includes
    [$4017], which reads as controller 1, and [$4018-$401F]. *)
Theorem write_apu_registers (v addr : Z) (m : Mach) :
  0x4000 <= addr <= 0x401f -> addr <> 0x4014 -> addr <> 0x4016 ->
  write v addr m = with_apu (IAPU_write (u8 v) (addr - 0x4000) (apu (dev m))) m.
Proof.
  intros Ha H14 H16. unfold write.
  rewrite u16_id by (unfold is_u16; lia).
  destruct (Z.ltb_spec addr 0x2000) as [Hlt|_]; [lia|].
  destruct (Z.ltb_spec addr 0x4000) as [Hlt|_]; [lia|].
  destruct (Z.ltb_spec addr 0x4020) as [_|Hge]; [|lia].
  rewrite land_0x1f_io by lia.
  assert (Hk : 0 <= addr - 0x4000 < 0x20) by lia.
  assert (H14' : addr - 0x4000 <> 0x14) by lia.
  assert (H16' : addr - 0x4000 <> 0x16) by lia.
  generalize dependent (addr - 0x4000). intros k Hk H14' H16'.
  small_cases k; reflexivity.
Qed.

(** For a page inside work RAM or its mirrors ([value < 0x20]) the DMA
    loop reads what the bus holds at [(value << 8) + i]; and two values
    with the same low three bits start the same transfer. *)
Theorem dma_source_ram_pages (value value' : Z) (m : Mach) :
  is_u8 value -> is_u8 value' ->
  (value < 0x20 -> dma_source value m = spec_dma_source value m) /\
  (Z.land value 7 = Z.land value' 7 -> write value 0x4014 m = write value' 0x4014 m).
Proof.
  intros Hv Hv'. split.
  - intros Hram. unfold dma_source, spec_dma_source.
    apply list_fmap_ext. intros k i Hi.
    apply lookup_seqZ in Hi as (-> & Hi).
    unfold is_u8 in Hv.
    rewrite Z.shiftl_mul_pow2 by lia. change (2 ^ 8) with 0x100.
    rewrite read_ram by lia. cbn [fst]. f_equal.
    rewrite land_7. lia_mod.
  - intros Hsame.
    rewrite !write_0x4014, (u8_id value), (u8_id value') by assumption.
    rewrite !(dma_loop _ 256 0 m) by lia. rewrite Hsame. reflexivity.
Qed.

End BusRoutingReads.

(** ** Sequences of pushes and pulls *)

Lemma pushes_snoc (xs : list Z) (x : Z) (c : CPU) :
  pushes (xs ++ [x]) c = push x (pushes xs c).
Proof. unfold pushes. rewrite fold_left_app. reflexivity. Qed.

Lemma pushes_SP (xs : list Z) :
  forall c : CPU,
    is_u8 (SP c) -> SP (pushes xs c) = (SP c - Z.of_nat (length xs)) mod 0x100.
Proof.
  induction xs as [|x xs IH]; intros c Hsp; unfold is_u8 in Hsp.
  - cbn [pushes fold_left length]. rewrite Z.sub_0_r, Z.mod_small by lia. reflexivity.
  - change (pushes (x :: xs) c) with (pushes xs (push x c)).
    rewrite IH by (rewrite push_SP; apply u8_range).
    rewrite push_SP. cbn [length]. lia_mod.
Qed.

Lemma pushes_length (xs : list Z) :
  forall c : CPU, length (memory (pushes xs c)) = length (memory c).
Proof.
  induction xs as [|x xs IH]; intros c; [reflexivity|].
  change (pushes (x :: xs) c) with (pushes xs (push x c)).
  rewrite IH. apply length_push.
Qed.

Lemma pushes_outside_page1 (xs : list Z) (i : nat) :
  ~ (0x100 <= i < 0x200)%nat ->
  forall c : CPU, is_u8 (SP c) -> memory (pushes xs c) !! i = memory c !! i.
Proof.
  intros Hi. induction xs as [|x xs IH]; intros c Hsp; [reflexivity|].
  change (pushes (x :: xs) c) with (pushes xs (push x c)).
  rewrite IH by (rewrite push_SP; apply u8_range).
  apply push_outside_page1; assumption.
Qed.

(** The stack is a ring of 256 bytes with no overflow check: [n] pushes
    move SP down by [n] modulo 256, so 256 pushes bring SP back to where
    it was, and no number of pushes changes the length of the RAM or a
    cell outside [$0100-$01FF]. *)
Theorem stack_is_a_ring (xs : list Z) (c : CPU) :
  is_u8 (SP c) ->
  SP (pushes xs c) = (SP c - Z.of_nat (length xs)) mod 0x100 /\
  (length xs = 256%nat -> SP (pushes xs c) = SP c) /\
  length (memory (pushes xs c)) = length (memory c) /\
  (forall i : nat, ~ (0x100 <= i < 0x200)%nat ->
     memory (pushes xs c) !! i = memory c !! i).
Proof.
  intros Hsp. split; [apply pushes_SP; exact Hsp|].
  split; [|split].
  - intros Hfull. rewrite pushes_SP by exact Hsp. rewrite Hfull.
    unfold is_u8 in Hsp. lia_mod.
  - apply pushes_length.
  - intros i Hi. apply pushes_outside_page1; assumption.
Qed.

(** [pull] looks at the stack cells above SP only: a change of other
    cells of the RAM does not change what a run of pulls returns. *)
Lemma pulls_other_cells (mem' : list Z) (n : nat) :
  forall c : CPU,
    (forall j : Z, 1 <= j <= Z.of_nat n ->
       mem_get mem' (u8 (SP c + j) + 0x100) = mem_get (memory c) (u8 (SP c + j) + 0x100)) ->
    pulls n (with_memory mem' c) =
    (fst (pulls n c), with_memory mem' (snd (pulls n c))).
Proof.
  induction n as [|n IH]; intros c Hsame; [reflexivity|].
  cbn [pulls].
  assert (Hp : pull (with_memory mem' c) =
               (mem_get mem' (u8 (SP c + 1) + 0x100),
                with_memory mem' (with_SP (u8 (SP c + 1)) c))) by reflexivity.
  assert (Hq : pull c = (mem_get (memory c) (u8 (SP c + 1) + 0x100),
                         with_SP (u8 (SP c + 1)) c)) by reflexivity.
  rewrite Hp, Hq, IH.
  - destruct (pulls n (with_SP (u8 (SP c + 1)) c)) as [xs c2]. cbn [fst snd].
    rewrite (Hsame 1) by lia. reflexivity.
  - intros j Hj. cbn [SP with_SP memory].
    replace (u8 (u8 (SP c + 1) + j)) with (u8 (SP c + (1 + j))) by (unfold u8; lia_mod).
    apply Hsame. lia.
Qed.

(** The stack is last in, first out: up to 256 bytes pushed one after
    the other are pulled back in the reverse order, and SP is back where
    it was. *)
Theorem pulls_after_pushes (xs : list Z) (c : CPU) :
  length (memory c) = 0x800%nat -> is_u8 (SP c) ->
  Forall is_u8 xs -> (length xs <= 256)%nat ->
  pulls (length xs) (pushes xs c) = (rev xs, with_SP (SP c) (pushes xs c)).
Proof.
  intros Hlen Hsp. induction xs as [|x xs IH] using rev_ind; intros Hbytes Hfit.
  - cbn. unfold with_SP. destruct c. reflexivity.
  - apply Forall_app in Hbytes as [Hxs Hx]. apply (proj1 (Forall_singleton _ _)) in Hx.
    rewrite length_app in *. cbn [length] in *.
    specialize (IH Hxs ltac:(lia)).
    rewrite pushes_snoc, rev_unit.
    replace (length xs + 1)%nat with (S (length xs)) by lia.
    set (c1 := pushes xs c) in *.
    assert (Hlen1 : length (memory c1) = 0x800%nat)
      by (unfold c1; rewrite pushes_length; exact Hlen).
    assert (Hsp1 : is_u8 (SP c1))
      by (unfold c1; rewrite pushes_SP by exact Hsp; apply u8_range).
    cbn [pulls]. rewrite (pull_push x c1 Hlen1 Hsp1 Hx).
    change (with_SP (SP c1) (push x c1))
      with (with_memory (mem_set (memory c1) (0x100 + SP c1) (u8 x)) c1).
    rewrite pulls_other_cells.
    + rewrite IH. cbn [fst snd]. reflexivity.
    + intros j Hj. apply mem_get_set_ne.
      unfold is_u8 in Hsp1. unfold u8. lia_mod.
Qed.

(** [push2] lays a 16-bit value out with its high byte at [$0100 + SP]
    and its low byte one below, wrapping inside the page; SP moves down
    by 2 modulo 256. *)
Theorem push2_layout (w : Z) (c : CPU) :
  length (memory c) = 0x800%nat -> is_u8 (SP c) -> is_u16 w ->
  mem_get (memory (push2 w c)) (0x100 + SP c) = w / 0x100 /\
  mem_get (memory (push2 w c)) (0x100 + (SP c - 1) mod 0x100) = w mod 0x100 /\
  SP (push2 w c) = (SP c - 2) mod 0x100.
Proof.
  intros Hlen Hsp Hw. unfold is_u8 in Hsp. pose proof Hw as Hw'. unfold is_u16 in Hw'.
  unfold push2. rewrite (u16_id w) by exact Hw.
  rewrite land_0xff, Z.shiftr_div_pow2 by lia. change (2 ^ 8) with 0x100.
  rewrite !push_memory, !push_SP.
  rewrite (u8_id (w / 0x100)) by (unfold is_u8; lia_mod).
  rewrite (u8_id (w mod 0x100)) by (unfold is_u8; lia_mod).
  split; [|split].
  - rewrite mem_get_set_ne by lia_mod.
    apply mem_get_set_eq. lia.
  - apply mem_get_set_eq. rewrite length_mem_set. lia_mod.
  - lia_mod.
Qed.

(** ** The interrupt frame *)

Lemma push_wraps (x : Z) (c : CPU) : push x c = push (u8 x) c.
Proof. unfold push, u8. rewrite Z.mod_mod by lia. reflexivity. Qed.

Lemma pull2_value (d : CPU) :
  fst (pull2 d) =
    u16 (Z.lor (mem_get (memory d) (u8 (SP d + 1) + 0x100))
               (Z.shiftl (mem_get (memory d) (u8 (u8 (SP d + 1) + 1) + 0x100)) 8)) /\
  SP (snd (pull2 d)) = u8 (u8 (SP d + 1) + 1).
Proof. split; reflexivity. Qed.

(** What a handler finds on the stack: a CPU whose stack is PC pushed by
    [push2] and then a status byte returns the status byte to [pull] and
    PC to the following [pull2], with SP back where it was. *)
Lemma frame_returns (y : Z) (c c' : CPU) :
  length (memory c) = 0x800%nat -> is_u8 (SP c) -> is_u16 (PC c) ->
  memory c' = memory (push y (push2 (PC c) c)) ->
  SP c' = SP (push y (push2 (PC c) c)) ->
  fst (pull c') = u8 y /\
  fst (pull2 (snd (pull c'))) = PC c /\
  SP (snd (pull2 (snd (pull c')))) = SP c /\
  SP c' = (SP c - 3) mod 0x100.
Proof.
  intros Hlen Hsp Hpc Hmem Hsp'.
  set (c2 := push2 (PC c) c) in *.
  assert (Hlen2 : length (memory c2) = 0x800%nat)
    by (unfold c2, push2; rewrite !length_push; exact Hlen).
  assert (Hsp2 : SP c2 = (SP c - 2) mod 0x100)
    by (unfold c2, push2; rewrite !push_SP; unfold is_u8 in Hsp; lia_mod).
  assert (Hsp2r : is_u8 (SP c2)) by (rewrite Hsp2; apply u8_range).
  pose proof (pull_push (u8 y) c2 Hlen2 Hsp2r (u8_range y)) as Hpull.
  rewrite <- push_wraps in Hpull.
  assert (Hfst : pull c' = (u8 y, with_SP (SP c2) c')).
  { unfold pull. rewrite Hmem, Hsp'.
    change (mem_get (memory (push y c2)) (u8 (SP (push y c2) + 1) + 0x100))
      with (fst (pull (push y c2))).
    rewrite Hpull. cbn [fst]. f_equal. f_equal.
    rewrite push_SP. unfold is_u8 in Hsp2r. unfold u8. lia_mod. }
  rewrite Hfst. cbn [fst snd].
  destruct (pull2_value (with_SP (SP c2) c')) as [Hv Hs]. rewrite Hv, Hs.
  cbn [memory SP with_SP]. rewrite Hmem, push_memory.
  unfold is_u8 in Hsp2r.
  rewrite !mem_get_set_ne by (unfold u8; lia_mod).
  destruct (pull2_value c2) as [Hv2 Hs2]. rewrite <- Hv2, <- Hs2.
  unfold c2 at 1 2. rewrite pull2_push2 by assumption. cbn [fst snd SP with_SP].
  split; [reflexivity|]. split; [reflexivity|]. split; [reflexivity|].
  rewrite Hsp', push_SP, Hsp2. unfold is_u8 in Hsp. lia_mod.
Qed.

Lemma I_FLAG_set (p : Z) : Z.land (u8 (Z.lor p I_FLAG)) I_FLAG = I_FLAG.
Proof.
  unfold u8, I_FLAG. change 0x100 with (2 ^ 8). change 4 with (2 ^ 2).
  apply Z.bits_inj'. intros n Hn. rewrite Z.land_spec, Z.pow2_bits_eqb by lia.
  destruct (Z.eqb_spec 2 n) as [<-|Hne]; [|apply andb_false_r].
  rewrite Z.mod_pow2_bits_low by lia.
  rewrite Z.lor_spec, Z.pow2_bits_eqb by lia.
  change (2 =? 2) with true. rewrite orb_true_r. reflexivity.
Qed.

Section InterruptFrame.

Context {PPU APU ROM Ctl : Type}.
Context `{!IPPU PPU, !IPPU_data PPU ROM, !IAPU APU, !IROM ROM, !IController Ctl}.
Context {the_cpu_h : cpu_h (Machine PPU APU ROM Ctl)}.

Local Abbreviation Sys := (System PPU APU ROM Ctl).

(** Whichever interrupt is serviced, its handler can return: after the
    service SP is 3 lower (modulo 256), [pull] returns the status byte
    that was pushed and the following [pull2] returns the PC of the
    interrupted program, with SP back where it was before the
    interrupt. *)
Theorem interrupt_frame_returns (s : Sys) :
  length (memory (cpu (machine s))) = 0x800%nat ->
  is_u8 (SP (cpu (machine s))) -> is_u16 (PC (cpu (machine s))) ->
  snd (service_interrupts s) <> [] ->
  fst (pull (cpu (machine (fst (service_interrupts s))))) =
    u8 (ProcStatus (push2 (PC (cpu (machine s))) (cpu (machine s)))) /\
  fst (pull2 (snd (pull (cpu (machine (fst (service_interrupts s))))))) =
    PC (cpu (machine s)) /\
  SP (snd (pull2 (snd (pull (cpu (machine (fst (service_interrupts s)))))))) =
    SP (cpu (machine s)) /\
  SP (cpu (machine (fst (service_interrupts s)))) = (SP (cpu (machine s)) - 3) mod 0x100.
Proof.
  intros Hlen Hsp Hpc Hserved.
  destruct (service_cases s) as [[Hirq Hi] | [[Hno Hnmi] | [Hno Hnmi]]].
  - rewrite service_IRQ by assumption. cbn [fst machine cpu].
    apply frame_returns; try assumption; reflexivity.
  - rewrite service_NMI by assumption. cbn [fst machine cpu].
    apply frame_returns; try assumption; reflexivity.
  - rewrite service_none in Hserved by assumption. cbn in Hserved. congruence.
Qed.

(** An IRQ masks itself and does not lose a latched NMI.  After an IRQ
    is serviced the line is still held and the I flag is set, so the
    interrupt tests applied again do not service the IRQ a second time:
    they service the NMI if one is latched and do nothing otherwise. *)
Theorem irq_masks_itself (s : Sys) :
  IRQ (cpu (machine s)) = true -> Z.land (P (cpu (machine s))) I_FLAG = 0 ->
  IRQ (cpu (machine (fst (service_interrupts s)))) = true /\
  Z.land (P (cpu (machine (fst (service_interrupts s))))) I_FLAG = I_FLAG /\
  snd (service_interrupts (fst (service_interrupts s))) =
    (if do_NMI s then [EvNMI] else []) /\
  do_NMI (fst (service_interrupts (fst (service_interrupts s)))) = false.
Proof.
  intros Hirq Hi.
  assert (Hp : Z.land (P (cpu (machine (fst (service_interrupts s))))) I_FLAG = I_FLAG)
    by (rewrite service_IRQ by assumption; apply I_FLAG_set).
  assert (Hl : do_NMI (fst (service_interrupts s)) = do_NMI s)
    by (rewrite service_IRQ by assumption; reflexivity).
  assert (Hmasked : IRQ (cpu (machine (fst (service_interrupts s)))) = false \/
                    Z.land (P (cpu (machine (fst (service_interrupts s))))) I_FLAG <> 0)
    by (right; rewrite Hp; discriminate).
  split; [rewrite service_IRQ by assumption; exact Hirq|].
  split; [exact Hp|].
  destruct (do_NMI s) eqn:Hnmi.
  - rewrite service_NMI by assumption. split; reflexivity.
  - rewrite service_none by assumption. split; [reflexivity | exact Hl].
Qed.

End InterruptFrame.

(** ** Calls from the console *)

Section Callbacks.

Context {PPU APU ROM Ctl : Type}.
Context `{!IPPU PPU, !IPPU_data PPU ROM, !IAPU APU, !IROM ROM, !IController Ctl}.

Local Abbreviation Sys := (System PPU APU ROM Ctl).

Lemma deliver_frame (calls : list ICPU_call) :
  forall s : Sys,
    dev (machine (fold_left deliver calls s)) = dev (machine s) /\
    registers (cpu (machine (fold_left deliver calls s))) = registers (cpu (machine s)).
Proof.
  induction calls as [|c calls IH]; intros s; [split; reflexivity|].
  cbn [fold_left]. destruct (IH (deliver s c)) as [-> ->].
  destruct c; split; reflexivity.
Qed.

Lemma deliver_latched (calls : list ICPU_call) :
  forall s : Sys,
    do_NMI (fold_left deliver calls s) = true <->
    do_NMI s = true \/ call_pull_NMI ∈ calls.
Proof.
  induction calls as [|c calls IH]; intros s; cbn [fold_left].
  - split; [auto | intros [H|H]; [exact H | apply elem_of_nil in H; destruct H]].
  - rewrite IH, elem_of_cons. destruct c; cbn; split;
      intros [H|H]; auto; try (destruct H as [H|H]; [discriminate H | auto]).
Qed.

Lemma deliver_stopped (calls : list ICPU_call) :
  forall s : Sys,
    _done (cpu (machine (fold_left deliver calls s))) = true <->
    _done (cpu (machine s)) = true \/ call_stop ∈ calls.
Proof.
  induction calls as [|c calls IH]; intros s; cbn [fold_left].
  - split; [auto | intros [H|H]; [exact H | apply elem_of_nil in H; destruct H]].
  - rewrite IH, elem_of_cons. destruct c; cbn; split;
      intros [H|H]; auto; try (destruct H as [H|H]; [discriminate H | auto]).
Qed.

Lemma deliver_IRQ_kept (calls : list ICPU_call) :
  (call_pull_IRQ ∉ calls) -> (call_release_IRQ ∉ calls) ->
  forall s : Sys,
    IRQ (cpu (machine (fold_left deliver calls s))) = IRQ (cpu (machine s)).
Proof.
  induction calls as [|c calls IH]; intros Hp Hr s; [reflexivity|].
  cbn [fold_left]. rewrite IH.
  - destruct c; try reflexivity.
    + exfalso. apply Hp. left.
    + exfalso. apply Hr. left.
  - intros Hin. apply Hp. right. exact Hin.
  - intros Hin. apply Hr. right. exact Hin.
Qed.

(** The NMI line is a latch, the stop flag is sticky and the IRQ line is
    a level.  After the console's calls of one tick the NMI is latched
    iff it was latched or [pull_NMI] was called, however often; the
    loop is stopped iff it was stopped or [stop] was called; and the IRQ
    level is the one set by the last [pull_IRQ] or [release_IRQ], a pull
    that is released again leaving no trace.  The calls change neither
    the devices nor any other member of the CPU. *)
Theorem calls_latch_and_level (calls : list ICPU_call) (s : Sys) :
  (do_NMI (fold_left deliver calls s) = true <->
   do_NMI s = true \/ call_pull_NMI ∈ calls) /\
  (_done (cpu (machine (fold_left deliver calls s))) = true <->
   _done (cpu (machine s)) = true \/ call_stop ∈ calls) /\
  (forall pre post, calls = pre ++ call_pull_IRQ :: post ->
     (call_release_IRQ ∉ post) ->
     IRQ (cpu (machine (fold_left deliver calls s))) = true) /\
  (forall pre post, calls = pre ++ call_release_IRQ :: post ->
     (call_pull_IRQ ∉ post) ->
     IRQ (cpu (machine (fold_left deliver calls s))) = false) /\
  ((call_pull_IRQ ∉ calls) -> (call_release_IRQ ∉ calls) ->
     IRQ (cpu (machine (fold_left deliver calls s))) = IRQ (cpu (machine s))) /\
  dev (machine (fold_left deliver calls s)) = dev (machine s) /\
  registers (cpu (machine (fold_left deliver calls s))) = registers (cpu (machine s)).
Proof.
  split; [apply deliver_latched|]. split; [apply deliver_stopped|].
  assert (Hlast : forall (b : bool) pre post,
            calls = pre ++ (if b then call_pull_IRQ else call_release_IRQ) :: post ->
            ((if b then call_release_IRQ else call_pull_IRQ) ∉ post) ->
            IRQ (cpu (machine (fold_left deliver calls s))) = b).
  { intros b pre post -> Hpost.
    rewrite fold_left_app. cbn [fold_left].
    assert (Hrest : forall s0 : Sys, IRQ (cpu (machine s0)) = b ->
              IRQ (cpu (machine (fold_left deliver post s0))) = b).
    { induction post as [|c post IH]; intros s0 Hs0; [exact Hs0|].
      cbn [fold_left]. apply IH.
      - intros H. apply Hpost. right. exact H.
      - destruct c, b; try exact Hs0; try reflexivity;
          exfalso; apply Hpost; left. }
    apply Hrest. destruct b; reflexivity. }
  split; [intros pre post; apply (Hlast true)|].
  split; [intros pre post; apply (Hlast false)|].
  split; [intros Hp Hr; apply deliver_IRQ_kept; assumption|].
  apply deliver_frame.
Qed.

End Callbacks.

(** ** Ticks, turns and the end of the loop *)

Lemma count_services_app (t1 t2 : list Event) :
  count_services (t1 ++ t2) = count_services t1 + count_services t2.
Proof.
  induction t1 as [|e t1 IH]; [reflexivity|].
  destruct e; cbn [app count_services]; rewrite IH; lia.
Qed.

Lemma count_services_ticks (t : list Event) :
  Forall tick_event t -> count_services t = 0.
Proof.
  induction 1 as [|e t [-> | [c ->]] _ IH]; [reflexivity | exact IH | exact IH].
Qed.

Lemma calls_are_tick_events (calls : list ICPU_call) :
  Forall tick_event (map EvCall calls).
Proof.
  induction calls as [|c calls IH]; constructor; [|exact IH].
  right. exists c. reflexivity.
Qed.

Lemma elem_of_calls (c : ICPU_call) (calls : list ICPU_call) :
  EvCall c ∈ map EvCall calls <-> c ∈ calls.
Proof.
  induction calls as [|c' calls IH]; cbn [map].
  - split; intros H; apply elem_of_nil in H; destruct H.
  - rewrite !elem_of_cons, IH. split; intros [H|H]; auto.
    + left. injection H as ->. reflexivity.
    + left. rewrite H. reflexivity.
Qed.

Section Turns.

Context {PPU APU ROM Ctl : Type}.
Context `{!IPPU PPU, !IPPU_data PPU ROM, !IAPU APU, !IROM ROM, !IController Ctl}.
Context {the_bus : IBus (Devices PPU APU ROM Ctl)}.
Context {the_cpu_h : cpu_h (Machine PPU APU ROM Ctl)}.

Local Abbreviation Mach := (Machine PPU APU ROM Ctl).
Local Abbreviation Sys := (System PPU APU ROM Ctl).

Lemma tick_effect (s : Sys) :
  dev (machine (fst (tick s))) = fst (on_cpu_tick (dev (machine s))) /\
  registers (cpu (machine (fst (tick s)))) = registers (cpu (machine s)) /\
  Forall tick_event (snd (tick s)) /\
  (_done (cpu (machine (fst (tick s)))) = true <->
   _done (cpu (machine s)) = true \/ EvCall call_stop ∈ snd (tick s)).
Proof.
  unfold tick. destruct (on_cpu_tick (dev (machine s))) as [d calls]. cbn [fst snd].
  destruct (deliver_frame calls (with_machine (with_dev d (machine s)) s)) as [Hd Hr].
  split; [exact Hd|]. split; [exact Hr|]. split.
  - constructor; [left; reflexivity | apply calls_are_tick_events].
  - rewrite deliver_stopped. cbn [machine with_machine cpu with_dev].
    rewrite elem_of_cons, elem_of_calls.
    split; intros [H|H]; auto. destruct H as [Heq|H]; [discriminate Heq | auto].
Qed.

Lemma ticks_effect (n : nat) :
  forall s : Sys,
    dev (machine (fst (ticks n s))) =
      Nat.iter n (fun d => fst (on_cpu_tick d)) (dev (machine s)) /\
    registers (cpu (machine (fst (ticks n s)))) = registers (cpu (machine s)) /\
    Forall tick_event (snd (ticks n s)) /\
    (_done (cpu (machine (fst (ticks n s)))) = true <->
     _done (cpu (machine s)) = true \/ EvCall call_stop ∈ snd (ticks n s)).
Proof.
  induction n as [|n IH]; intros s.
  - cbn [ticks fst snd Nat.iter]. split; [reflexivity|]. split; [reflexivity|].
    split; [constructor|].
    split; [auto | intros [H|H]; [exact H | apply elem_of_nil in H; destruct H]].
  - cbn [ticks]. destruct (tick_effect s) as (Hd & Hr & Ht & Hs).
    destruct (tick s) as [s1 t1]. destruct (IH s1) as (Hd' & Hr' & Ht' & Hs').
    destruct (ticks n s1) as [s2 t2]. cbn [fst snd] in *.
    split; [|split; [|split]].
    + rewrite Hd', Hd.
      exact (Nat.iter_swap n _ (fun d => fst (on_cpu_tick d)) (dev (machine s))).
    + rewrite Hr', Hr. reflexivity.
    + apply Forall_app. split; assumption.
    + rewrite Hs', Hs, elem_of_app. tauto.
Qed.

(** The ticks of a turn belong to the console.  After [n] ticks the
    devices are what [n] calls of [on_cpu_tick] make of them, whatever
    the CPU holds, and they have changed no member of the CPU but the
    IRQ level and the stop flag: RAM, registers, PC and the cycle
    counter are as the instruction left them. *)
Theorem ticks_leave_registers (n : nat) (s : Sys) :
  dev (machine (fst (ticks n s))) =
    Nat.iter n (fun d => fst (on_cpu_tick d)) (dev (machine s)) /\
  registers (cpu (machine (fst (ticks n s)))) = registers (cpu (machine s)) /\
  count_ticks (snd (ticks n s)) = Z.of_nat n /\
  count_services (snd (ticks n s)) = 0.
Proof.
  destruct (ticks_effect n s) as (Hd & Hr & Ht & _).
  split; [exact Hd|]. split; [exact Hr|]. split.
  - apply ticks_count.
  - apply count_services_ticks. exact Ht.
Qed.

Lemma service_trace (s : Sys) :
  snd (service_interrupts s) = [] \/
  snd (service_interrupts s) = [EvIRQ] \/
  snd (service_interrupts s) = [EvNMI].
Proof.
  destruct (service_cases s) as [[Hirq Hi] | [[Hno Hnmi] | [Hno Hnmi]]].
  - rewrite service_IRQ by assumption. auto.
  - rewrite service_NMI by assumption. auto.
  - rewrite service_none by assumption. auto.
Qed.

(** The shape of a turn of the loop: one instruction, then its ticks
    with the calls they make, then at most one interrupt service, and
    none when the turn leaves the loop.  An interrupt is never serviced
    in the middle of an instruction or between two ticks. *)
Theorem turn_trace_shape (s : Sys) :
  exists t1 t2,
    snd (fst (iteration s)) =
      EvExec (last_op (cpu (execute (machine s)))) :: t1 ++ t2 /\
    Forall tick_event t1 /\
    (t2 = [] \/ t2 = [EvIRQ] \/ t2 = [EvNMI]) /\
    (snd (iteration s) = false -> t2 = []) /\
    count_services (snd (fst (iteration s))) <= 1.
Proof.
  unfold iteration. cbn [machine with_machine].
  destruct (ticks_effect (Z.to_nat (tick_bound (cpu (execute (machine s)))))
              (with_machine (execute (machine s)) s)) as (_ & _ & Ht & _).
  destruct (ticks _ _) as [s2 t1]. cbn [snd] in Ht.
  destruct (_done _).
  - exists t1, []. cbn [fst snd]. rewrite app_nil_r.
    split; [reflexivity|]. split; [exact Ht|]. split; [auto|]. split; [auto|].
    cbn [count_services]. rewrite count_services_ticks by exact Ht. lia.
  - pose proof (service_trace (on_cpu (with_result_cycle 0) s2)) as Hsvc.
    destruct (service_interrupts _) as [s4 t2]. cbn [fst snd] in *.
    exists t1, t2. split; [reflexivity|]. split; [exact Ht|]. split; [exact Hsvc|].
    split; [discriminate|].
    cbn [count_services]. rewrite count_services_app, count_services_ticks by exact Ht.
    destruct Hsvc as [-> | [-> | ->]]; cbn; lia.
Qed.

(** [stop()] is sampled between instructions.  When the console calls
    [stop] during the ticks of a turn, the turn still runs all its
    ticks, then leaves the loop without servicing an interrupt, and the
    loop executes no further instruction however long it is run. *)
Theorem stop_ends_the_loop (n : nat) (s : Sys) :
  EvCall call_stop ∈ snd (fst (iteration s)) ->
  snd (iteration s) = false /\
  count_ticks (snd (fst (iteration s))) =
    Z.of_nat (Z.to_nat (tick_bound (cpu (execute (machine s))))) /\
  count_services (snd (fst (iteration s))) = 0 /\
  _done (cpu (machine (fst (fst (iteration s))))) = true /\
  run_loop (S n) s = fst (iteration s).
Proof.
  intros Hstop.
  assert (Hrun : snd (iteration s) = false -> run_loop (S n) s = fst (iteration s)).
  { cbn [run_loop]. destruct (iteration s) as [[s1 t1] continue]. cbn [fst snd].
    intros ->. reflexivity. }
  revert Hstop Hrun. unfold iteration. cbn [machine with_machine].
  destruct (ticks_effect (Z.to_nat (tick_bound (cpu (execute (machine s)))))
              (with_machine (execute (machine s)) s)) as (_ & _ & Ht & Hs).
  pose proof (ticks_count (Z.to_nat (tick_bound (cpu (execute (machine s)))))
                (with_machine (execute (machine s)) s)) as Hn.
  destruct (ticks _ _) as [s2 t1]. cbn [fst snd] in Ht, Hs, Hn.
  destruct (_done (cpu (machine (on_cpu (with_result_cycle 0) s2)))) eqn:Hdone.
  - cbn [fst snd]. intros _ Hrun.
    split; [reflexivity|]. split; [cbn [count_ticks]; exact Hn|].
    split; [cbn [count_services]; apply count_services_ticks; exact Ht|].
    split; [exact Hdone | apply Hrun; reflexivity].
  - pose proof (service_trace (on_cpu (with_result_cycle 0) s2)) as Hsvc.
    destruct (service_interrupts _) as [s4 t2]. cbn [fst snd] in *.
    intros Hstop _. exfalso.
    assert (Hin : EvCall call_stop ∈ t1).
    { apply elem_of_cons in Hstop as [Heq|Hstop]; [discriminate Heq|].
      apply elem_of_app in Hstop as [Hstop|Hstop]; [exact Hstop|].
      destruct Hsvc as [-> | [-> | ->]].
      - apply elem_of_nil in Hstop. destruct Hstop.
      - apply list_elem_of_singleton in Hstop. discriminate Hstop.
      - apply list_elem_of_singleton in Hstop. discriminate Hstop. }
    assert (Htrue : _done (cpu (machine s2)) = true) by (apply Hs; right; exact Hin).
    change (_done (cpu (machine (on_cpu (with_result_cycle 0) s2))))
      with (_done (cpu (machine s2))) in Hdone.
    congruence.
Qed.

End Turns.

(** ** Fetching *)

Section Fetching.

Context {PPU APU ROM Ctl : Type}.
Context `{!IPPU PPU, !IPPU_data PPU ROM, !IAPU APU, !IROM ROM, !IController Ctl}.

Local Abbreviation Mach := (Machine PPU APU ROM Ctl).

Lemma read_wraps (addr : Z) (m : Mach) : read (u16 addr) m = read addr m.
Proof.
  unfold read. replace (u16 (u16 addr)) with (u16 addr); [reflexivity|].
  unfold u16. rewrite Z.mod_mod by lia. reflexivity.
Qed.

(** What [read] returns and does to the devices depends on the CPU
    object through its RAM only. *)
Lemma read_with_registers (addr : Z) (c' : CPU) (m : Mach) :
  memory c' = memory (cpu m) ->
  read addr (with_cpu c' m) = (fst (read addr m), with_cpu c' (snd (read addr m))).
Proof.
  intros Hmem.
  unfold read, controller, with_controller, with_ppu, with_rom, with_dev, with_cpu.
  cbn [dev cpu]. rewrite Hmem.
  repeat match goal with
         | |- context [if ?b then _ else _] => destruct b
         | |- context [let '(_, _) := ?x in _] => destruct x
         | |- context [match ?x with _ => _ end] => destruct x
         end; reflexivity.
Qed.

(** [next2] is the 16-bit load of [CPU::run] at PC followed by
    [PC += 2]: it returns the little-endian word at PC, the low byte
    read first, and advances PC by 2 modulo 0x10000, so that after
    [$FFFF] the high byte comes from address 0. *)
Theorem next2_is_vector_at_PC (m : Mach) :
  next2 m =
  (fst (read_vector (PC (cpu m)) m),
   with_cpu (with_PC (u16 (PC (cpu m) + 2)) (cpu m)) (snd (read_vector (PC (cpu m)) m))).
Proof.
  unfold next2, next, read_vector.
  rewrite read_with_registers by reflexivity.
  pose proof (read_cpu (PC (cpu m)) m) as Hc1.
  destruct (read (PC (cpu m)) m) as [lo m1]. cbn [fst snd] in *.
  cbn [cpu with_cpu PC with_PC].
  change (with_cpu (with_PC (u16 (u16 (PC (cpu m) + 1) + 1))
                      (with_PC (u16 (PC (cpu m) + 1)) (cpu m)))
                   (with_cpu (with_PC (u16 (PC (cpu m) + 1)) (cpu m)) m1))
    with (with_cpu (with_PC (u16 (u16 (PC (cpu m) + 1) + 1)) (cpu m)) m1).
  rewrite read_with_registers by (rewrite Hc1; reflexivity).
  rewrite read_wraps.
  destruct (read (PC (cpu m) + 1) m1) as [hi m2]. cbn [fst snd].
  do 3 f_equal. unfold u16. lia_mod.
Qed.

Lemma read_rom (addr : Z) (m : Mach) :
  0x4020 <= addr <= 0xffff ->
  read addr m =
  (u8 (fst (read_prg addr (rom (dev m)))),
   with_rom (snd (read_prg addr (rom (dev m)))) m).
Proof.
  intros Ha. unfold read.
  rewrite u16_id by (unfold is_u16; lia).
  destruct (Z.ltb_spec addr 0x2000) as [Hlt|_]; [lia|].
  destruct (Z.ltb_spec addr 0x4000) as [Hlt|_]; [lia|].
  destruct (Z.ltb_spec addr 0x4020) as [Hlt|_]; [lia|].
  destruct (read_prg addr (rom (dev m))). reflexivity.
Qed.

End Fetching.

Section Reset.

Context {PPU APU ROM Ctl : Type}.
Context `{!IPPU PPU, !IPPU_data PPU ROM, !IAPU APU, !IROM ROM, !IController Ctl}.
Context {the_bus : IBus (Devices PPU APU ROM Ctl)}.
Context {the_cpu_h : cpu_h (Machine PPU APU ROM Ctl)}.

Local Abbreviation Sys := (System PPU APU ROM Ctl).

(** [run] starts the loop with PC loaded from [$FFFC/$FFFD] and nothing
    else prepared: SP, P, the other registers, the RAM, the interrupt
    lines and every device but the cartridge that was read are as they
    were, and no cycle passes before the first fetch. *)
Theorem run_loads_PC_only (n : nat) (s : Sys) :
  exists r : ROM,
    run n s =
    run_loop n
      (mkSystem
         (mkMachine
            (with_PC (fst (read_vector 0xfffc (machine s))) (cpu (machine s)))
            (mkDevices (ppu (dev (machine s))) (apu (dev (machine s))) r
                       (controller0 (dev (machine s))) (controller1 (dev (machine s)))))
         (do_NMI s)) /\
    is_u16 (fst (read_vector 0xfffc (machine s))).
Proof.
  unfold run, read_vector.
  rewrite read_rom by lia.
  rewrite read_rom by lia.
  eexists. split; [reflexivity | apply u16_range].
Qed.

End Reset.

(** ** Save states, the other way round *)

(** Capturing right after a restore returns the state that was restored,
    and restoring the same state twice is restoring it once. *)
Theorem restore_state_get_state (st : CPU_state) (c : CPU) :
  length (state_memory st) = 0x800%nat -> Forall is_u8 (state_memory st) ->
  length (memory c) = 0x800%nat ->
  get_state (restore_state st c) = st /\
  restore_state st (restore_state st c) = restore_state st c.
Proof.
  intros Hst Hbytes Hc.
  pose proof (restore_state_memory st c Hst Hc) as Hmem.
  split.
  - pose proof (get_state_memory (restore_state st c)) as Hget.
    rewrite Hmem in Hget. specialize (Hget Hst Hbytes).
    unfold get_state in *. cbn [state_memory] in Hget. rewrite Hget.
    destruct st. reflexivity.
  - pose proof (restore_state_memory st (restore_state st c) Hst) as Hmem2.
    rewrite Hmem in Hmem2. specialize (Hmem2 Hst).
    unfold restore_state in *. cbn [memory] in *. rewrite Hmem2, Hmem. reflexivity.
Qed.

(** ** The constructor, elsewhere *)

(** The constructor writes its five cells and nothing else: every other
    cell of the RAM holds what it held, the RAM keeps its length, and no
    register, line or flag of the CPU is given a value. *)
Theorem CPU_ctor_other_cells (c : CPU) :
  (forall i : nat, i <> 0x008%nat -> i <> 0x009%nat -> i <> 0x00a%nat ->
                   i <> 0x00f%nat -> i <> 0x1fc%nat ->
     memory (CPU_ctor c) !! i = memory c !! i) /\
  length (memory (CPU_ctor c)) = length (memory c) /\
  CPU_ctor c = with_memory (memory (CPU_ctor c)) c.
Proof.
  split; [|split; [apply CPU_ctor_length | reflexivity]].
  intros i H8 H9 Ha Hf Hfc. unfold CPU_ctor. cbn [memory with_memory].
  rewrite !mem_set_lookup_ne by lia. reflexivity.
Qed.

(** ** The cycle chart *)


Section InstructionTime.

Context {PPU APU ROM Ctl : Type}.
Context `{!IPPU PPU, !IPPU_data PPU ROM, !IAPU APU, !IROM ROM, !IController Ctl}.
Context {the_bus : IBus (Devices PPU APU ROM Ctl)}.
Context {the_cpu_h : cpu_h (Machine PPU APU ROM Ctl)}.

Local Abbreviation Sys := (System PPU APU ROM Ctl).


End InstructionTime.

(** ** The properties above on concrete inputs *)

Lemma ppu_registers_mirrored_witness :
  read 0x3456 (console cpu_reset []) = read 0x2006 (console cpu_reset []) /\
  write 0x42 0x3456 (console cpu_reset []) = write 0x42 0x2006 (console cpu_reset []).
Proof.
  exact (ppu_registers_mirrored 0x42 0x3456 (console cpu_reset []) ltac:(lia)).
Defined.


Lemma ram_write_other_cells_witness :
  fst (read 0x0802 (write 0x42 0x0001 (console cpu_reset []))) =
  fst (read 0x0802 (console cpu_reset [])).
Proof.
  refine (proj1 (ram_write_other_cells 0x42 0x0001 0x0802 (console cpu_reset []) _ _ _));
    [lia | lia | intros Heq; vm_compute in Heq; discriminate Heq].
Defined.

Lemma write_routes_witness :
  cpu (write 0x07 0x4014 dma_console) = cpu dma_console /\
  write 0x42 0x3ffa (console cpu_reset []) = console cpu_reset [] /\
  apu (dev (write 0x42 0x3fff (console cpu_reset []))) = apu (dev (console cpu_reset [])).
Proof.
  split; [|split].
  - exact (proj1 (write_routes 0x07 0x4014 dma_console ltac:(lia))).
  - destruct (write_routes 0x42 0x3ffa (console cpu_reset []) ltac:(lia))
      as (_ & Hppu & _).
    destruct (Hppu ltac:(lia)) as (_ & _ & _ & _ & Hstatus).
    exact (Hstatus eq_refl).
  - destruct (write_routes 0x42 0x3fff (console cpu_reset []) ltac:(lia))
      as (_ & Hppu & _).
    destruct (Hppu ltac:(lia)) as (Hapu & _).
    exact Hapu.
Defined.

Lemma read_routes_witness :
  controller1 (dev (snd (read 0x4016 (console cpu_reset [])))) =
  controller1 (dev (console cpu_reset [])) /\
  apu (dev (snd (read 0x4016 (console cpu_reset [])))) = apu (dev (console cpu_reset [])).
Proof.
  destruct (read_routes 0x4016 (console cpu_reset []) ltac:(lia))
    as (_ & _ & _ & Hio & _).
  destruct (Hio ltac:(lia)) as (_ & _ & _ & Hapu & _ & Hc1).
  split; [apply Hc1; lia | apply Hapu; lia].
Defined.

Lemma write_apu_registers_witness :
  apu (dev (write 0x40 0x4017 (console cpu_reset []))) = [(0x17, 0x40)].
Proof.
  pose proof (write_apu_registers 0x40 0x4017 (console cpu_reset [])
                ltac:(lia) ltac:(lia) ltac:(lia)) as Hw.
  rewrite Hw. reflexivity.
Defined.

Lemma dma_source_ram_pages_witness :
  dma_source 0x0f dma_console = spec_dma_source 0x0f dma_console /\
  write 0x0f 0x4014 dma_console = write 0x07 0x4014 dma_console.
Proof.
  assert (Hf : is_u8 0x0f) by (unfold is_u8; lia).
  assert (H7 : is_u8 0x07) by (unfold is_u8; lia).
  destruct (dma_source_ram_pages 0x0f 0x07 dma_console Hf H7) as [Hsrc Hsame].
  split; [apply Hsrc; lia | apply Hsame; reflexivity].
Defined.

Lemma oam_dma_fills_OAM_witness :
  mem_get (OAM (ppu (dev (write 0x80 0x4014 dma_console)))) 0 = 0x11.
Proof.
  assert (Hv : is_u8 0x80) by (unfold is_u8; lia).
  assert (Ha : is_u8 (OAMADDR (ppu (dev dma_console)))) by (unfold is_u8; cbn; lia).
  exact (proj2 (oam_dma_fills_OAM 0x80 dma_console Hv eq_refl Ha) 0 ltac:(lia)).
Defined.

Lemma stack_is_a_ring_witness :
  SP (pushes (replicate 256 0xaa) cpu_reset) = SP cpu_reset.
Proof.
  assert (Hsp : is_u8 (SP cpu_reset)) by (unfold is_u8; cbn; lia).
  exact (proj1 (proj2 (stack_is_a_ring (replicate 256 0xaa) cpu_reset Hsp)) eq_refl).
Defined.

Lemma pulls_after_pushes_witness :
  fst (pulls 3 cpu_with_stack) = [3; 2; 1].
Proof.
  assert (Hsp : is_u8 (SP cpu_reset)) by (unfold is_u8; cbn; lia).
  assert (Hxs : Forall is_u8 [1; 2; 3]) by (repeat constructor; unfold is_u8; lia).
  assert (Hfit : (length [1; 2; 3] <= 256)%nat) by (cbn; lia).
  exact (f_equal fst (pulls_after_pushes [1; 2; 3] cpu_reset eq_refl Hsp Hxs Hfit)).
Defined.

Lemma push2_layout_witness :
  mem_get (memory (push2 0x1234 (with_SP 0 cpu_reset))) 0x100 = 0x12 /\
  mem_get (memory (push2 0x1234 (with_SP 0 cpu_reset))) 0x1ff = 0x34.
Proof.
  assert (Hsp : is_u8 (SP (with_SP 0 cpu_reset))) by (unfold is_u8; cbn; lia).
  assert (Hw : is_u16 0x1234) by (unfold is_u16; lia).
  destruct (push2_layout 0x1234 (with_SP 0 cpu_reset) eq_refl Hsp Hw) as (Hhi & Hlo & _).
  split; [exact Hhi | exact Hlo].
Defined.

Lemma interrupt_frame_returns_witness :
  fst (pull2 (snd (pull (cpu (machine
         (fst (service_interrupts (the_cpu_h := console_cpu_h) nmi_pending)))))))
    = 0x8000.
Proof.
  assert (Hsp : is_u8 (SP (cpu (machine nmi_pending)))) by (unfold is_u8; cbn; lia).
  assert (Hpc : is_u16 (PC (cpu (machine nmi_pending)))) by (unfold is_u16; cbn; lia).
  refine (proj1 (proj2 (interrupt_frame_returns (the_cpu_h := console_cpu_h)
                          nmi_pending eq_refl Hsp Hpc _))).
  intros Hnone. vm_compute in Hnone. discriminate Hnone.
Defined.

Lemma irq_masks_itself_witness :
  snd (service_interrupts (the_cpu_h := console_cpu_h)
         (fst (service_interrupts (the_cpu_h := console_cpu_h) both_pending)))
    = [EvNMI].
Proof.
  exact (proj1 (proj2 (proj2 (irq_masks_itself (the_cpu_h := console_cpu_h)
                                both_pending eq_refl eq_refl)))).
Defined.

Lemma calls_latch_and_level_witness :
  IRQ (cpu (machine (fold_left deliver
         [call_pull_IRQ; call_pull_NMI; call_release_IRQ; call_pull_NMI] idle))) = false /\
  do_NMI (fold_left deliver
         [call_pull_IRQ; call_pull_NMI; call_release_IRQ; call_pull_NMI] idle) = true.
Proof.
  destruct (calls_latch_and_level
              [call_pull_IRQ; call_pull_NMI; call_release_IRQ; call_pull_NMI] idle)
    as (Hnmi & _ & _ & Hrel & _).
  split.
  - refine (Hrel [call_pull_IRQ; call_pull_NMI] [call_pull_NMI] eq_refl _).
    intros Hin. apply list_elem_of_singleton in Hin. discriminate Hin.
  - apply Hnmi. right. right. left.
Defined.

Lemma turn_trace_shape_witness :
  count_services
    (snd (fst (iteration (the_bus := nmi_bus) (the_cpu_h := console_cpu_h) idle))) <= 1.
Proof.
  destruct (turn_trace_shape (the_bus := nmi_bus) (the_cpu_h := console_cpu_h) idle)
    as (t1 & t2 & _ & _ & _ & _ & Hone).
  exact Hone.
Defined.

Lemma stop_ends_the_loop_witness :
  run_loop (the_bus := stop_bus) (the_cpu_h := console_cpu_h) 5 idle =
  fst (iteration (the_bus := stop_bus) (the_cpu_h := console_cpu_h) idle).
Proof.
  refine (proj2 (proj2 (proj2 (proj2
    (stop_ends_the_loop (the_bus := stop_bus) (the_cpu_h := console_cpu_h) 4 idle _))))).
  vm_compute. repeat first [solve [left] | right].
Defined.

Lemma restore_state_get_state_witness :
  get_state (restore_state (get_state (CPU_ctor cpu_reset)) cpu_reset) =
  get_state (CPU_ctor cpu_reset).
Proof.
  refine (proj1 (restore_state_get_state (get_state (CPU_ctor cpu_reset)) cpu_reset
                   eq_refl _ eq_refl)).
  apply (bool_decide_unpack _). vm_compute. exact I.
Defined.

Lemma CPU_ctor_other_cells_witness :
  memory (CPU_ctor cpu_reset) !! 0%nat = memory cpu_reset !! 0%nat.
Proof.
  refine (proj1 (CPU_ctor_other_cells cpu_reset) 0%nat _ _ _ _ _); lia.
Defined.


(** ** What a turn guarantees to the next *)

Section TurnBoundaries.

Context {PPU APU ROM Ctl : Type}.
Context `{!IPPU PPU, !IPPU_data PPU ROM, !IAPU APU, !IROM ROM, !IController Ctl}.
Context {the_bus : IBus (Devices PPU APU ROM Ctl)}.
Context {the_cpu_h : cpu_h (Machine PPU APU ROM Ctl)}.

Local Abbreviation Sys := (System PPU APU ROM Ctl).

Lemma iteration_resets (s : Sys) :
  result_cycle (cpu (machine (fst (fst (iteration s))))) = 0.
Proof.
  unfold iteration.
  destruct (ticks _ _) as [s2 t1].
  destruct (_done _); [reflexivity|].
  pose proof (service_no_cycles (on_cpu (with_result_cycle 0) s2)) as [_ Hr].
  destruct (service_interrupts _) as [s4 t2]. exact Hr.
Qed.

(** The cycle counter does not leak from one instruction into the next:
    after any positive number of turns, however the loop ended,
    [result_cycle] is 0. *)
Theorem result_cycle_is_reset (n : nat) (s : Sys) :
  (0 < n)%nat -> result_cycle (cpu (machine (fst (run_loop n s)))) = 0.
Proof.
  revert s. induction n as [|n IH]; intros s Hn; [lia|].
  cbn [run_loop]. pose proof (iteration_resets s) as H1.
  destruct (iteration s) as [[s1 t1] continue]. cbn [fst] in H1.
  destruct continue; [|exact H1].
  destruct n as [|n]; [exact H1|].
  specialize (IH s1 ltac:(lia)).
  destruct (run_loop (S n) s1) as [s2 t2]. exact IH.
Qed.

Lemma tick_latched (s : Sys) :
  do_NMI (fst (tick s)) = true <->
  do_NMI s = true \/ EvCall call_pull_NMI ∈ snd (tick s).
Proof.
  unfold tick. destruct (on_cpu_tick (dev (machine s))) as [d calls]. cbn [fst snd].
  rewrite deliver_latched. cbn [do_NMI with_machine].
  rewrite elem_of_cons, elem_of_calls.
  split; intros [H|H]; auto. destruct H as [Heq|H]; [discriminate Heq | auto].
Qed.

Lemma ticks_latched (n : nat) :
  forall s : Sys,
    do_NMI (fst (ticks n s)) = true <->
    do_NMI s = true \/ EvCall call_pull_NMI ∈ snd (ticks n s).
Proof.
  induction n as [|n IH]; intros s.
  - cbn [ticks fst snd].
    split; [auto | intros [H|H]; [exact H | apply elem_of_nil in H; destruct H]].
  - cbn [ticks]. pose proof (tick_latched s) as H1.
    destruct (tick s) as [s1 t1]. specialize (IH s1).
    destruct (ticks n s1) as [s2 t2]. cbn [fst snd] in *.
    rewrite IH, H1, elem_of_app. tauto.
Qed.

(** An NMI pulled during the ticks of an instruction is seen before the
    next fetch and is never dropped: unless the turn leaves the loop,
    it ends either with the service of the NMI, the latch cleared, or
    with the service of an IRQ, the NMI still latched. *)
Theorem pulled_nmi_is_not_dropped (s : Sys) :
  EvCall call_pull_NMI ∈ snd (fst (iteration s)) ->
  snd (iteration s) = true ->
  ((exists t, snd (fst (iteration s)) = t ++ [EvNMI]) /\
   do_NMI (fst (fst (iteration s))) = false) \/
  ((exists t, snd (fst (iteration s)) = t ++ [EvIRQ]) /\
   do_NMI (fst (fst (iteration s))) = true).
Proof.
  unfold iteration. cbn [machine with_machine].
  pose proof (ticks_latched (Z.to_nat (tick_bound (cpu (execute (machine s)))))
                (with_machine (execute (machine s)) s)) as Hl.
  destruct (ticks _ _) as [s2 t1]. cbn [fst snd] in Hl.
  destruct (_done _); [cbn [snd]; discriminate|].
  pose proof (service_cases (on_cpu (with_result_cycle 0) s2)) as Hcases.
  pose proof (service_trace (on_cpu (with_result_cycle 0) s2)) as Hsvc.
  destruct (service_interrupts (on_cpu (with_result_cycle 0) s2)) as [s4 t2] eqn:Hs4.
  cbn [fst snd] in *. intros Hpull _.
  assert (Hin : EvCall call_pull_NMI ∈ t1).
  { apply elem_of_cons in Hpull as [Heq|Hpull]; [discriminate Heq|].
    apply elem_of_app in Hpull as [Hpull|Hpull]; [exact Hpull|].
    destruct Hsvc as [-> | [-> | ->]].
    - apply elem_of_nil in Hpull. destruct Hpull.
    - apply list_elem_of_singleton in Hpull. discriminate Hpull.
    - apply list_elem_of_singleton in Hpull. discriminate Hpull. }
  assert (Hlatched : do_NMI (on_cpu (with_result_cycle 0) s2) = true)
    by (apply Hl; right; exact Hin).
  destruct Hcases as [[Hirq Hi] | [[Hno Hnmi] | [Hno Hnmi]]].
  - right. rewrite service_IRQ in Hs4 by assumption. injection Hs4 as <- <-.
    split; [|exact Hlatched].
    eexists. rewrite app_comm_cons. reflexivity.
  - left. rewrite service_NMI in Hs4 by assumption. injection Hs4 as <- <-.
    split; [|reflexivity].
    eexists. rewrite app_comm_cons. reflexivity.
  - congruence.
Qed.

End TurnBoundaries.

Lemma result_cycle_is_reset_witness :
  result_cycle (cpu (machine (fst
    (run_loop (the_bus := quiet_bus) (the_cpu_h := console_cpu_h) 2 branch_scenario)))) = 0.
Proof.
  exact (result_cycle_is_reset (the_bus := quiet_bus) (the_cpu_h := console_cpu_h)
           2 branch_scenario ltac:(lia)).
Defined.

Lemma pulled_nmi_is_not_dropped_witness :
  ((exists t, snd (fst (iteration (the_bus := nmi_bus) (the_cpu_h := console_cpu_h) idle))
              = t ++ [EvNMI]) /\
   do_NMI (fst (fst (iteration (the_bus := nmi_bus) (the_cpu_h := console_cpu_h) idle)))
     = false) \/
  ((exists t, snd (fst (iteration (the_bus := nmi_bus) (the_cpu_h := console_cpu_h) idle))
              = t ++ [EvIRQ]) /\
   do_NMI (fst (fst (iteration (the_bus := nmi_bus) (the_cpu_h := console_cpu_h) idle)))
     = true).
Proof.
  refine (pulled_nmi_is_not_dropped (the_bus := nmi_bus) (the_cpu_h := console_cpu_h)
            idle _ eq_refl).
  vm_compute. repeat first [solve [left] | right].
Defined.

(** ** Cycles per instruction *)

(** The cycle chart of src/cpu.cpp is the canonical table: every entry
    is the cost that the timing rules of the 6502 give the opcode. *)
Lemma cycles_are_canonical (op : Z) : base_cycles op = canonical_cycles (decode op).
Proof.
  assert (Hall : Forall (fun k : nat =>
                   default 0 (cycles !! k) =
                   canonical_cycles (default (JAM, Implicit) (opcode_table !! k)))
                 (seq 0 256))
    by (apply (bool_decide_unpack _); vm_compute; exact I).
  unfold base_cycles, decode, mem_get.
  destruct (Nat.lt_ge_cases (Z.to_nat op) 256) as [Hlt|Hge].
  - apply (proj1 (Forall_forall _ _) Hall). apply elem_of_seq. lia.
  - rewrite !lookup_ge_None_2 by (cbn; lia). reflexivity.
Qed.

Lemma penalties_range (o : Outcome) : 0 <= page_cross_penalty o + branch_penalty o <= 3.
Proof.
  unfold page_cross_penalty, branch_penalty.
  destruct (page_crossed_read o), (branch_taken o), (branch_crossed o); lia.
Qed.

Lemma with_PC_PC (c : CPU) : with_PC (PC c) c = c.
Proof. destruct c. reflexivity. Qed.

Section Penalties.

Context {PPU APU ROM Ctl : Type}.
Context `{!IPPU PPU, !IPPU_data PPU ROM, !IAPU APU, !IROM ROM, !IController Ctl}.

Local Abbreviation Mach := (Machine PPU APU ROM Ctl).

(** *** Fetching operands *)

Lemma next_read (m : Mach) :
  next m =
  (fst (read (PC (cpu m)) m),
   with_cpu (with_PC (u16 (PC (cpu m) + 1)) (cpu m)) (snd (read (PC (cpu m)) m))).
Proof. unfold next. apply read_with_registers. reflexivity. Qed.

Lemma read_vector_with_registers (a : Z) (c' : CPU) (m : Mach) :
  memory c' = memory (cpu m) ->
  read_vector a (with_cpu c' m) =
  (fst (read_vector a m), with_cpu c' (snd (read_vector a m))).
Proof.
  intros Hmem. unfold read_vector.
  rewrite read_with_registers by exact Hmem.
  pose proof (read_cpu a m) as Hc.
  destruct (read a m) as [lo m1]. cbn [fst snd] in *.
  rewrite read_with_registers by (rewrite Hc; exact Hmem).
  destruct (read (a + 1) m1) as [hi m2]. reflexivity.
Qed.

Lemma read_vector_zp_with_registers (z : Z) (c' : CPU) (m : Mach) :
  memory c' = memory (cpu m) ->
  read_vector_zp z (with_cpu c' m) =
  (fst (read_vector_zp z m), with_cpu c' (snd (read_vector_zp z m))).
Proof.
  intros Hmem. unfold read_vector_zp.
  rewrite read_with_registers by exact Hmem.
  pose proof (read_cpu (u8 z) m) as Hc.
  destruct (read (u8 z) m) as [lo m1]. cbn [fst snd] in *.
  rewrite read_with_registers by (rewrite Hc; exact Hmem).
  destruct (read (u8 (z + 1)) m1) as [hi m2]. reflexivity.
Qed.

Lemma read_vector_zp_cpu (z : Z) (m : Mach) : cpu (snd (read_vector_zp z m)) = cpu m.
Proof.
  unfold read_vector_zp.
  pose proof (read_cpu (u8 z) m) as H1.
  destruct (read (u8 z) m) as [lo m1]. cbn [snd] in H1.
  pose proof (read_cpu (u8 (z + 1)) m1) as H2.
  destruct (read (u8 (z + 1)) m1) as [hi m2]. cbn [snd] in *. congruence.
Qed.

Lemma next2_read (m : Mach) :
  next2 m =
  (fst (read_vector (PC (cpu m)) m),
   with_cpu (with_PC (u16 (u16 (PC (cpu m) + 1) + 1)) (cpu m))
            (snd (read_vector (PC (cpu m)) m))).
Proof.
  unfold next2, read_vector. rewrite next_read.
  pose proof (read_cpu (PC (cpu m)) m) as Hc1.
  destruct (read (PC (cpu m)) m) as [lo m1]. cbn [fst snd] in *.
  rewrite next_read. cbn [cpu with_cpu PC with_PC].
  rewrite read_wraps.
  rewrite (read_with_registers _ _ m1) by (rewrite Hc1; reflexivity).
  destruct (read (PC (cpu m) + 1) m1) as [hi m2]. cbn [fst snd].
  reflexivity.
Qed.

(** *** The addressing modes *)

(** An addressing mode changes no register of the CPU but PC. *)
Lemma address_cpu (mode : Mode) (m : Mach) :
  cpu (snd (address mode m)) = with_PC (PC (cpu (snd (address mode m)))) (cpu m).
Proof.
  destruct mode; unfold address; try rewrite next_read; try rewrite next2_read;
    cbn [fst snd cpu with_cpu];
    try (rewrite ?read_cpu, ?read_vector_cpu; cbn [PC with_PC];
         first [symmetry; apply with_PC_PC | reflexivity]).
  - (* Indirect *)
    set (m0 := with_cpu _ (snd (read_vector (PC (cpu m)) m))).
    assert (H0 : cpu m0 = with_PC (u16 (u16 (PC (cpu m) + 1) + 1)) (cpu m))
      by (unfold m0; cbn [cpu with_cpu]; reflexivity).
    pose proof (read_cpu (fst (read_vector (PC (cpu m)) m)) m0) as H1.
    destruct (read _ m0) as [lo m1]. cbn [snd] in H1.
    pose proof (read_cpu (Z.lor (page (fst (read_vector (PC (cpu m)) m)))
                                (u8 (fst (read_vector (PC (cpu m)) m) + 1))) m1) as H2.
    destruct (read _ m1) as [hi m2]. cbn [snd] in *.
    rewrite H2, H1, H0. reflexivity.
  - (* IndexedIndirect *)
    set (m0 := with_cpu _ (snd (read (PC (cpu m)) m))).
    pose proof (read_vector_zp_cpu (fst (read (PC (cpu m)) m) + X (cpu m0)) m0) as H1.
    destruct (read_vector_zp _ m0) as [a m1]. cbn [snd] in *.
    rewrite H1. unfold m0. cbn [cpu with_cpu]. reflexivity.
  - (* IndirectIndexed *)
    set (m0 := with_cpu _ (snd (read (PC (cpu m)) m))).
    pose proof (read_vector_zp_cpu (fst (read (PC (cpu m)) m)) m0) as H1.
    destruct (read_vector_zp _ m0) as [a m1]. cbn [snd] in *.
    rewrite H1. unfold m0. cbn [cpu with_cpu]. reflexivity.
Qed.

(** The page-crossing signal of a mode is the one that the state before
    the operand fetch determines. *)
Lemma address_crossed (mode : Mode) (m : Mach) :
  snd (fst (address mode m)) = crosses mode m.
Proof.
  destruct mode; unfold address, crosses; try rewrite next_read; try rewrite next2_read;
    cbn [fst snd cpu with_cpu X Y with_PC]; try reflexivity.
  - (* Indirect *)
    destruct (read _ _) as [lo m1]. destruct (read _ m1) as [hi m2]. reflexivity.
  - (* IndexedIndirect *)
    destruct (read_vector_zp _ _) as [a m1]. reflexivity.
  - (* IndirectIndexed *)
    pose proof (read_cpu (PC (cpu m)) m) as Hc.
    destruct (read (PC (cpu m)) m) as [z m1]. cbn [fst snd] in *.
    rewrite read_vector_zp_with_registers by (rewrite Hc; reflexivity).
    cbn [fst snd cpu with_cpu Y with_PC]. reflexivity.
Qed.

Lemma operand_cpu (mode : Mode) (m : Mach) :
  cpu (snd (operand mode m)) = with_PC (PC (cpu (snd (operand mode m)))) (cpu m).
Proof.
  assert (Hgen : cpu (snd (let '(ea, crossed, m0) := address mode m in
                           let '(v, m1) := read ea m0 in (v, crossed, m1))) =
                 with_PC (PC (cpu (snd (let '(ea, crossed, m0) := address mode m in
                                        let '(v, m1) := read ea m0 in (v, crossed, m1)))))
                         (cpu m)).
  { pose proof (address_cpu mode m) as Ha.
    destruct (address mode m) as [[ea crossed] m0]. cbn [snd] in Ha.
    pose proof (read_cpu ea m0) as Hr.
    destruct (read ea m0) as [v m1]. cbn [snd] in *.
    rewrite Hr, Ha. reflexivity. }
  destruct mode; try exact Hgen; unfold operand; cbn [snd]; symmetry; apply with_PC_PC.
Qed.

Lemma operand_crossed (mode : Mode) (m : Mach) :
  snd (fst (operand mode m)) = crosses mode m.
Proof.
  assert (Hgen : snd (fst (let '(ea, crossed, m0) := address mode m in
                           let '(v, m1) := read ea m0 in (v, crossed, m1))) =
                 crosses mode m).
  { rewrite <- address_crossed.
    destruct (address mode m) as [[ea crossed] m0].
    destruct (read ea m0) as [v m1]. reflexivity. }
  destruct mode; try exact Hgen; reflexivity.
Qed.

(** *** What the handlers leave alone *)

Lemma write_bookkeeping (v addr : Z) (m : Mach) :
  last_op (cpu (write v addr m)) = last_op (cpu m) /\
  result_cycle (cpu (write v addr m)) = result_cycle (cpu m).
Proof.
  destruct (Z.lt_ge_cases (u16 addr) 0x2000) as [Hlt|Hge].
  - unfold write. destruct (Z.ltb_spec (u16 addr) 0x2000) as [_|Hge]; [|lia].
    split; reflexivity.
  - rewrite write_cpu_high by lia. split; reflexivity.
Qed.

Lemma branch_cycles (mask : Z) (set : bool) (m : Mach) :
  let c := cpu m in
  let target := u16 (u16 (PC c + 1) + signed8 (fst (read (PC c) m))) in
  let o := mkOutcome false
             (Bool.eqb (negb (Z.land (P c) mask =? 0)) set)
             (negb (page target =? page (last_PC c))) in
  last_op (cpu (branch mask set m)) = last_op c /\
  result_cycle (cpu (branch mask set m)) = result_cycle c + branch_penalty o.
Proof.
  cbv zeta. unfold branch, branch_penalty. rewrite next_read.
  cbn [fst snd cpu with_cpu P PC last_PC with_PC branch_taken branch_crossed].
  change (last_PC (addcyc (with_PC (u16 (PC (cpu m) + 1)) (cpu m))))
    with (last_PC (cpu m)).
  destruct (Bool.eqb _ set).
  - destruct (page _ =? page _); cbn; split; try reflexivity; lia.
  - cbn. split; [reflexivity | lia].
Qed.

Lemma handler_BRK_bookkeeping (m : Mach) :
  last_op (cpu (handler_BRK m)) = last_op (cpu m) /\
  result_cycle (cpu (handler_BRK m)) = result_cycle (cpu m).
Proof.
  unfold handler_BRK.
  set (c := with_P _ _).
  pose proof (read_vector_cpu 0xfffe (with_cpu c m)) as Hc.
  destruct (read_vector 0xfffe (with_cpu c m)) as [pc m1]. cbn [snd] in Hc.
  cbn [cpu with_cpu]. rewrite Hc. split; reflexivity.
Qed.

(** A CPU that differs from [c] in PC only has the [last_op] and the
    [result_cycle] of [c]. *)
Lemma keeps_bookkeeping (c c' : CPU) :
  c' = with_PC (PC c') c ->
  last_op c' = last_op c /\ result_cycle c' = result_cycle c.
Proof. intros ->. split; reflexivity. Qed.

Context `{!Operations}.

(** *** The cycles that a handler adds *)

(** A handler leaves [last_op] alone and adds to [result_cycle] the
    penalties that the state before it determines. *)
Lemma handler_cycles (op : Z) (m : Mach) :
  last_op (cpu (handler op m)) = last_op (cpu m) /\
  result_cycle (cpu (handler op m)) =
    result_cycle (cpu m) + page_cross_penalty (outcome op m) +
    branch_penalty (outcome op m).
Proof.
  unfold handler, outcome. destruct (decode op) as [mn mode].
  destruct (kind mn) as [| | |mask set| | |].
  - (* read *)
    pose proof (operand_cpu mode m) as Hc. pose proof (operand_crossed mode m) as Hx.
    destruct (operand mode m) as [[v crossed] m1]. cbn [fst snd] in Hc, Hx. subst crossed.
    destruct (keeps_bookkeeping _ _ Hc) as [Hl Hr].
    unfold page_cross_penalty, branch_penalty.
    cbn [page_crossed_read branch_taken].
    destruct (documented mn && crosses mode m);
      cbn [operate cpu with_cpu set_arch last_op result_cycle addcyc with_result_cycle];
      rewrite Hl, Hr; split; try reflexivity; lia.
  - (* write *)
    pose proof (address_cpu mode m) as Hc.
    destruct (address mode m) as [[ea crossed] m1]. cbn [snd] in Hc.
    destruct (keeps_bookkeeping _ _ Hc) as [Hl Hr].
    destruct (write_bookkeeping (op_store mn (arch (cpu m1))) ea m1) as [-> ->].
    rewrite Hl, Hr. cbn. split; [reflexivity | lia].
  - (* read-modify-write *)
    assert (Hmem : let r := (let '(ea, _, m0) := address mode m in
                             let '(v, m1) := read ea m0 in
                             let '(v', st) := op_modify mn v (arch (cpu m1)) in
                             write v' ea (with_cpu (set_arch st (cpu m1)) m1)) in
                   last_op (cpu r) = last_op (cpu m) /\
                   result_cycle (cpu r) = result_cycle (cpu m) + 0 + 0).
    { cbv zeta.
      pose proof (address_cpu mode m) as Hc.
      destruct (address mode m) as [[ea crossed] m0]. cbn [snd] in Hc.
      destruct (keeps_bookkeeping _ _ Hc) as [Hl Hr].
      pose proof (read_cpu ea m0) as Hread.
      destruct (read ea m0) as [v m1]. cbn [snd] in Hread.
      destruct (op_modify mn v (arch (cpu m1))) as [v' st].
      destruct (write_bookkeeping v' ea (with_cpu (set_arch st (cpu m1)) m1)) as [-> ->].
      cbn [cpu with_cpu set_arch last_op result_cycle].
      rewrite Hread, Hl, Hr. split; [reflexivity | lia]. }
    destruct mode; try exact Hmem.
    cbn. split; [reflexivity | lia].
  - (* branch *)
    destruct (branch_cycles mask set m) as [Hl Hr]. rewrite Hl, Hr.
    unfold page_cross_penalty. cbn [page_crossed_read]. split; [reflexivity | lia].
  - (* BRK *)
    destruct (handler_BRK_bookkeeping m) as [-> ->]. cbn. split; [reflexivity | lia].
  - (* an opcode of cost 0 *)
    cbn. split; [reflexivity | lia].
  - (* the others *)
    pose proof (address_cpu mode m) as Hc.
    destruct (address mode m) as [[ea crossed] m1]. cbn [snd] in Hc.
    destruct (keeps_bookkeeping _ _ Hc) as [Hl Hr].
    cbn [operate cpu with_cpu set_arch last_op result_cycle].
    rewrite Hl, Hr. cbn. split; [reflexivity | lia].
Qed.

End Penalties.

(** *** One turn of the loop *)

Section Turn.

Context {PPU APU ROM Ctl : Type}.
Context `{!IPPU PPU, !IPPU_data PPU ROM, !IAPU APU, !IROM ROM, !IController Ctl}.
Context {the_bus : IBus (Devices PPU APU ROM Ctl)}.

Local Abbreviation Mach := (Machine PPU APU ROM Ctl).
Local Abbreviation Sys := (System PPU APU ROM Ctl).

(** The load of an interrupt vector reads the cartridge and leaves the
    other devices alone. *)
Lemma read_vector_devices (a : Z) (m : Mach) :
  0x4020 <= a -> a + 1 <= 0xffff ->
  ppu (dev (snd (read_vector a m))) = ppu (dev m) /\
  apu (dev (snd (read_vector a m))) = apu (dev m) /\
  controller0 (dev (snd (read_vector a m))) = controller0 (dev m) /\
  controller1 (dev (snd (read_vector a m))) = controller1 (dev m).
Proof.
  intros Hlo Hhi. unfold read_vector.
  rewrite read_rom by lia. rewrite read_rom by lia.
  repeat split; reflexivity.
Qed.

(** The devices after a turn are the devices as the instruction left
    them, ticked once per cycle of the tick loop; the service of an
    interrupt, which loads a vector, can change the cartridge only. *)
Lemma iteration_devices {the_cpu_h : cpu_h Mach} (s : Sys) :
  let ticked := Nat.iter (Z.to_nat (tick_bound (cpu (execute (machine s)))))
                  (fun d => fst (on_cpu_tick d)) (dev (execute (machine s))) in
  let d := dev (machine (fst (fst (iteration s)))) in
  ppu d = ppu ticked /\ apu d = apu ticked /\
  controller0 d = controller0 ticked /\ controller1 d = controller1 ticked /\
  (count_services (snd (fst (iteration s))) = 0 -> d = ticked).
Proof.
  cbv zeta. unfold iteration. cbn [machine with_machine].
  destruct (ticks_effect (Z.to_nat (tick_bound (cpu (execute (machine s)))))
              (with_machine (execute (machine s)) s)) as (Hd & _ & Ht & _).
  destruct (ticks _ _) as [s2 t1]. cbn [fst snd machine with_machine] in Hd, Ht.
  rewrite <- Hd.
  destruct (_done _).
  - cbn [fst snd]. repeat split; reflexivity.
  - set (s3 := on_cpu (with_result_cycle 0) s2).
    assert (Hs3 : dev (machine s3) = dev (machine s2)) by reflexivity.
    destruct (service_cases s3) as [[Hirq Hi] | [[Hno Hnmi] | [Hno Hnmi]]].
    + rewrite service_IRQ by assumption. cbn [fst snd machine dev].
      destruct (read_vector_devices 0xfffe (machine s3) ltac:(lia) ltac:(lia))
        as (-> & -> & -> & ->).
      rewrite Hs3. repeat split; try reflexivity.
      cbn [count_services]. rewrite count_services_app, count_services_ticks by exact Ht.
      cbn. lia.
    + rewrite service_NMI by assumption. cbn [fst snd machine dev].
      destruct (read_vector_devices 0xfffa (machine s3) ltac:(lia) ltac:(lia))
        as (-> & -> & -> & ->).
      rewrite Hs3. repeat split; try reflexivity.
      cbn [count_services]. rewrite count_services_app, count_services_ticks by exact Ht.
      cbn. lia.
    + rewrite service_none by assumption. cbn [fst snd].
      rewrite Hs3. repeat split; reflexivity.
Qed.

Context `{!Operations}.

(** C3: the ticks of an instruction.  With the handlers of the
    specification, a turn of the loop that starts with [result_cycle] at
    0 ticks the bus exactly
    [cycles[opcode] + page_cross_penalty + branch_penalty] times, where
    - [cycles[opcode]], the entry of the cycle chart of src/cpu.cpp, is
      the cost that the canonical 6502 timing gives the opcode;
    - the page-cross penalty is 1 when the instruction is a documented
      read whose indexed address leaves the page of its base address;
    - the branch penalty is 1 for a taken branch and 2 for a taken
      branch that crosses a page;
    the penalties being determined by the state in which the opcode was
    fetched.  Every tick is one [on_cpu_tick] of the console: the
    devices after the turn are the devices as the instruction left them
    ticked that many times (but for the cartridge when an interrupt
    vector is loaded), and [result_cycle] is 0 again for the next
    turn. *)
Theorem ticks_per_instruction (s : Sys) :
  result_cycle (cpu (machine s)) = 0 ->
  let op := fst (fetch (machine s)) in
  let o := outcome op (snd (fetch (machine s))) in
  let n := base_cycles op + page_cross_penalty o + branch_penalty o in
  let r := iteration (the_cpu_h := spec_cpu_h) s in
  let d := dev (machine (fst (fst r))) in
  let ticked := Nat.iter (Z.to_nat n) (fun d => fst (on_cpu_tick d))
                  (dev (execute (the_cpu_h := spec_cpu_h) (machine s))) in
  base_cycles op = canonical_cycles (decode op) /\
  count_ticks (snd (fst r)) = n /\
  ppu d = ppu ticked /\ apu d = apu ticked /\
  controller0 d = controller0 ticked /\ controller1 d = controller1 ticked /\
  (count_services (snd (fst r)) = 0 -> d = ticked) /\
  result_cycle (cpu (machine (fst (fst r)))) = 0.
Proof.
  intros Hzero. cbv zeta.
  pose proof (fetch_cpu (machine s)) as Hfetch.
  assert (Hexec : execute (the_cpu_h := spec_cpu_h) (machine s) =
                  handler (fst (fetch (machine s))) (snd (fetch (machine s)))).
  { unfold execute. destruct (fetch (machine s)) as [op m1]. reflexivity. }
  destruct (fetch (machine s)) as [op m1]. cbn [fst snd] in *.
  destruct (handler_cycles op m1) as [Hop Hrc].
  pose proof (penalties_range (outcome op m1)) as Hpen.
  pose proof (base_cycles_range op) as Hbase.
  assert (Hbound : tick_bound (cpu (execute (the_cpu_h := spec_cpu_h) (machine s))) =
                   base_cycles op + page_cross_penalty (outcome op m1) +
                   branch_penalty (outcome op m1)).
  { rewrite Hexec. unfold tick_bound. rewrite Hop, Hrc, Hfetch.
    cbn [last_op result_cycle with_last_op with_PC with_last_PC].
    rewrite Hzero. lia. }
  rewrite <- Hbound.
  split; [apply cycles_are_canonical|].
  destruct (iteration_ticks (the_cpu_h := spec_cpu_h) s ltac:(rewrite Hbound; lia))
    as [Hticks Hreset].
  destruct (iteration_devices (the_cpu_h := spec_cpu_h) s)
    as (Hppu & Hapu & Hc0 & Hc1 & Hdev).
  repeat split; assumption.
Qed.

End Turn.

(** The scenarios of the specification on the console with a clock: the
    taken BEQ at [$80FE] that crosses a page takes 2 + 1 + 1 ticks, and
    the LDA absolute,X that reads across a page 4 + 1; the clock of the
    console has advanced by as much. *)
Lemma ticks_per_instruction_witness :
  result_cycle (cpu (machine clocked_branch)) = 0 /\
  count_ticks (snd (fst (iteration (the_bus := clock_bus) (the_cpu_h := spec_cpu_h)
                           clocked_branch))) = 4 /\
  apu_ticks (apu (dev (machine (fst (fst
    (iteration (the_bus := clock_bus) (the_cpu_h := spec_cpu_h) clocked_branch)))))) = 4 /\
  result_cycle (cpu (machine clocked_load)) = 0 /\
  count_ticks (snd (fst (iteration (the_bus := clock_bus) (the_cpu_h := spec_cpu_h)
                           clocked_load))) = 5 /\
  apu_ticks (apu (dev (machine (fst (fst
    (iteration (the_bus := clock_bus) (the_cpu_h := spec_cpu_h) clocked_load)))))) = 5.
Proof.
  destruct (ticks_per_instruction (the_bus := clock_bus) clocked_branch eq_refl)
    as (_ & Hn & _ & Hapu & _).
  destruct (ticks_per_instruction (the_bus := clock_bus) clocked_load eq_refl)
    as (_ & Hn' & _ & Hapu' & _).
  split; [reflexivity|].
  split; [refine (eq_trans Hn _); vm_compute; reflexivity|].
  split; [rewrite Hapu; vm_compute; reflexivity|].
  split; [reflexivity|].
  split; [refine (eq_trans Hn' _); vm_compute; reflexivity|].
  rewrite Hapu'. vm_compute. reflexivity.
Defined.
